(** * A shallow embedding of the text-game engine of [data/games/dishwasher.py]

    The Python program keeps a graph of mutable [GameObject]s that point at
    each other ([parentContainer], [contains]).  Here an object reference is
    the object's [uuid] and the object graph is a finite map from uuids to
    object records, so that aliasing is kept: two references to one object
    are two copies of one key.  Python exceptions are results of the error
    monad [result]. *)

From Stdlib Require Import ZArith Lia.
From Stdlib Require PrimFloat.
From stdpp Require Import base option list gmap strings pretty fin_maps.

Open Scope string_scope.
Open Scope Z_scope.
Open Scope list_scope.

(** ** Python values, exceptions and the error monad *)

Inductive pyexn :=
  | KeyError | ValueError | AttributeError | IndexError | TypeError
  | ZeroDivisionError
  | RecursionError     (* the interpreter's stack depth limit was hit *)
  | InvalidReference   (* a uuid that names no object; no Python program
                          can produce one, the map model can *)
  | Unmodelled.        (* an operation on operand types that the model does
                          not evaluate *)

Inductive result (A : Type) :=
  | Ok (a : A)
  | Raise (e : pyexn).
Arguments Ok {A} a.
Arguments Raise {A} e.

#[global] Instance result_ret : MRet result := fun A a => Ok a.
#[global] Instance result_bind : MBind result := fun A B f m =>
  match m with Ok a => f a | Raise e => Raise e end.

Definition of_option {A} (e : pyexn) (o : option A) : result A :=
  match o with Some a => Ok a | None => Raise e end.

(** The values a property bag holds.  [bool] is a subclass of [int] in
    Python, so [True == 1]. *)
Inductive pyval :=
  | PyBool (b : bool)
  | PyInt (z : Z)
  | PyStr (s : string)
  | PyNone.

#[global] Instance pyval_eq_dec : EqDecision pyval.
Proof. solve_decision. Defined.

(** [a == b] *)
Definition py_eq (a b : pyval) : bool :=
  match a, b with
  | PyBool x, PyBool y => bool_decide (x = y)
  | PyBool x, PyInt y | PyInt y, PyBool x => bool_decide (Z.b2z x = y)
  | PyInt x, PyInt y => bool_decide (x = y)
  | PyStr x, PyStr y => bool_decide (x = y)
  | PyNone, PyNone => true
  | _, _ => false
  end.

(** [if a:] *)
Definition py_truthy (a : pyval) : bool :=
  match a with
  | PyBool b => b
  | PyInt z => negb (bool_decide (z = 0))
  | PyStr s => negb (bool_decide (s = ""))
  | PyNone => false
  end.

(** the integer an arithmetic operator sees *)
Definition py_int (a : pyval) : result Z :=
  match a with
  | PyBool b => Ok (Z.b2z b)
  | PyInt z => Ok z
  | _ => Raise TypeError
  end.

(** [s + v] for a string [s]: only a string may be appended *)
Definition py_str (a : pyval) : result string :=
  match a with
  | PyStr s => Ok s
  | _ => Raise TypeError
  end.

(** ** Game objects *)

Inductive pyclass :=
  | World | Agent | DishWasher | Dish | DishSoapBottle | Soap | Food.

#[global] Instance pyclass_eq_dec : EqDecision pyclass.
Proof. solve_decision. Defined.

(** [isinstance(o, Container)] and [isinstance(o, Device)], from the class
    statements. *)
Definition is_Container (c : pyclass) : bool :=
  match c with World | Agent | DishWasher | Dish => true | _ => false end.
Definition is_Device (c : pyclass) : bool :=
  match c with DishWasher | DishSoapBottle => true | _ => false end.

Record GameObject := mkGameObject {
  cls : pyclass;
  constructorsRun : list string;   (* [[]] while the attribute is not set *)
  uuid : nat;
  name : string;
  parentContainer : option nat;
  contains : list nat;
  properties : gmap string pyval;
  foodName : option string         (* attribute of [Food] objects only *)
}.

Abbreviation Heap := (gmap nat GameObject).

Definition set_parent (p : option nat) (o : GameObject) : GameObject :=
  mkGameObject (cls o) (constructorsRun o) (uuid o) (name o) p (contains o)
    (properties o) (foodName o).
Definition set_contains (l : list nat) (o : GameObject) : GameObject :=
  mkGameObject (cls o) (constructorsRun o) (uuid o) (name o)
    (parentContainer o) l (properties o) (foodName o).
Definition set_properties (m : gmap string pyval) (o : GameObject) : GameObject :=
  mkGameObject (cls o) (constructorsRun o) (uuid o) (name o)
    (parentContainer o) (contains o) m (foodName o).
(** [self.properties[k] = v] *)
Definition set_prop (k : string) (v : pyval) (o : GameObject) : GameObject :=
  set_properties (<[k := v]> (properties o)) o.

Definition getObj (h : Heap) (o : nat) : result GameObject :=
  of_option InvalidReference (h !! o).

(** [GameObject.getProperty]: [None] when the key is absent. *)
Definition getProperty (o : GameObject) (propertyName : string) : pyval :=
  match properties o !! propertyName with
  | Some v => v
  | None => PyNone
  end.

(** [self.properties[k]]: [KeyError] when the key is absent. *)
Definition prop (o : GameObject) (k : string) : result pyval :=
  of_option KeyError (properties o !! k).

(** ** Containment *)

(** [list.remove(x)]: drops the first occurrence; [ValueError] (here [None])
    when there is none.  Objects compare by identity. *)
Fixpoint list_remove (x : nat) (l : list nat) : option (list nat) :=
  match l with
  | [] => None
  | y :: l' =>
      if decide (y = x) then Some l' else cons y <$> list_remove x l'
  end.

(** [GameObject.removeObject] *)
Definition removeObject (h : Heap) (self obj : nat) : result Heap :=
  s ← getObj h self;
  l ← of_option ValueError (list_remove obj (contains s));
  let h1 := <[self := set_contains l s]> h in
  o ← getObj h1 obj;
  Ok (<[obj := set_parent None o]> h1).

(** [GameObject.removeSelfFromContainer] *)
Definition removeSelfFromContainer (h : Heap) (self : nat) : result Heap :=
  s ← getObj h self;
  match parentContainer s with
  | Some p => removeObject h p self
  | None => Ok h
  end.

(** [GameObject.addObject] *)
Definition addObject (h : Heap) (self obj : nat) : result Heap :=
  h1 ← removeSelfFromContainer h obj;
  s ← getObj h1 self;
  let h2 := <[self := set_contains (contains s ++ [obj]) s]> h1 in
  o ← getObj h2 obj;
  Ok (<[obj := set_parent (Some self) o]> h2).

(** CPython's default limit on the depth of the call stack; the recursive
    methods below raise [RecursionError] beyond it. *)
Definition recursionLimit : nat := 1000.
#[global] Opaque recursionLimit.
#[global] Arguments recursionLimit : simpl never.

(** The loop [for x in l: outList.extend(f(x))], left to right. *)
Fixpoint flat_mapM {A B} (f : A → result (list B)) (l : list A)
  : result (list B) :=
  match l with
  | [] => Ok []
  | x :: l' => a ← f x; b ← flat_mapM f l'; Ok (a ++ b)
  end.

(** The loop [for x in l: body(x)] over a state that [body] updates. *)
Fixpoint forM_ {A S} (l : list A) (body : S → A → result S) (s : S)
  : result S :=
  match l with
  | [] => Ok s
  | x :: l' => s' ← body s x; forM_ l' body s'
  end.

(** [GameObject.getAllContainedObjectsRecursive], [fuel] bounding the depth
    of the recursion: each child, then the child's own contents. *)
Fixpoint getAllContainedObjectsRecursive (fuel : nat) (h : Heap) (self : nat)
  : result (list nat) :=
  match fuel with
  | O => Raise RecursionError
  | S fuel' =>
      s ← getObj h self;
      flat_mapM (fun obj =>
                   sub ← getAllContainedObjectsRecursive fuel' h obj;
                   Ok (obj :: sub))
                (contains s)
  end.

(** [type(obj)] *)
Definition type_of (h : Heap) (obj : nat) : result pyclass :=
  o ← getObj h obj; Ok (cls o).

(** [GameObject.getReferents], with the overrides of [Dish] and [Agent]. *)
Definition getReferents (o : GameObject) : result (list string) :=
  match cls o with
  | Dish =>
      d ← prop o "isDirty";
      let descStr := (if py_truthy d then "dirty " else "clean ") +:+ name o in
      Ok [descStr; name o]
  | Agent => Ok ["yourself"]
  | _ => Ok [name o]
  end.

(** [o.getReferents()[0]] *)
Definition referent0 (o : GameObject) : result string :=
  l ← getReferents o; of_option IndexError (head l).

(** ** Container *)

(** A method of [Container] called on an object of another class is an
    [AttributeError]. *)
Definition asContainer (h : Heap) (self : nat) : result GameObject :=
  s ← getObj h self;
  if is_Container (cls s) then Ok s else Raise AttributeError.

Definition asDevice (h : Heap) (self : nat) : result GameObject :=
  s ← getObj h self;
  if is_Device (cls s) then Ok s else Raise AttributeError.

(** [Container.openContainer] *)
Definition openContainer (h : Heap) (self : nat)
  : result (Heap * (string * bool)) :=
  s ← asContainer h self;
  if negb (py_truthy (getProperty s "isOpenable")) then
    Ok (h, ("The " +:+ name s +:+ " can't be opened.", false))
  else if py_truthy (getProperty s "isOpen") then
    Ok (h, ("The " +:+ name s +:+ " is already open.", false))
  else
    Ok (<[self := set_prop "isOpen" (PyBool true) s]> h,
        ("The " +:+ name s +:+ " is now open.", true)).

(** [Container.closeContainer] *)
Definition closeContainer (h : Heap) (self : nat)
  : result (Heap * (string * bool)) :=
  s ← asContainer h self;
  if negb (py_eq (getProperty s "isOpenable") (PyBool true)) then
    Ok (h, ("The " +:+ name s +:+ " can't be closed.", false))
  else if negb (py_eq (getProperty s "isOpen") (PyBool true)) then
    Ok (h, ("The " +:+ name s +:+ " is already closed.", false))
  else
    Ok (<[self := set_prop "isOpen" (PyBool false) s]> h,
        ("The " +:+ name s +:+ " is now closed.", true)).

(** What [placeObjectInContainer] returns: a pair on three of its paths and
    a triple on the not-moveable path. *)
Inductive pytuple :=
  | Tuple2 (obs : string) (success : bool)
  | Tuple3 (obs : string) (objRef : option nat) (success : bool).

Definition tuple_obs (t : pytuple) : string :=
  match t with Tuple2 s _ | Tuple3 s _ _ => s end.
Definition tuple_success (t : pytuple) : bool :=
  match t with Tuple2 _ b | Tuple3 _ _ b => b end.

(** [a, b = t] *)
Definition unpack2 (t : pytuple) : result (string * bool) :=
  match t with
  | Tuple2 s b => Ok (s, b)
  | Tuple3 _ _ _ => Raise ValueError
  end.

(** [Container.placeObjectInContainer] *)
Definition placeObjectInContainer (h : Heap) (self obj : nat)
  : result (Heap * pytuple) :=
  s ← asContainer h self;
  o ← getObj h obj;
  if negb (py_eq (getProperty s "isContainer") (PyBool true)) then
    Ok (h, Tuple2 ("The " +:+ name s +:+
                   " is not a container, so things can't be placed there.")
                  false)
  else if negb (py_eq (getProperty o "isMoveable") (PyBool true)) then
    Ok (h, Tuple3 ("The " +:+ name o +:+ " is not moveable.") None false)
  else if negb (py_eq (getProperty s "isOpen") (PyBool true)) then
    Ok (h, Tuple2 ("The " +:+ name s +:+
                   " is closed, so things can't be placed there.") false)
  else
    h' ← addObject h self obj;
    o' ← getObj h' obj;
    r ← referent0 o';
    (* [self.name] is read after [addObject]; no method changes a name *)
    s' ← getObj h' self;
    Ok (h', Tuple2 ("The " +:+ r +:+ " is placed in the " +:+ name s' +:+ ".")
                   true).

(** [Container.takeObjectFromContainer] *)
Definition takeObjectFromContainer (h : Heap) (self obj : nat)
  : result (Heap * (string * option nat * bool)) :=
  s ← asContainer h self;
  o ← getObj h obj;
  if negb (py_eq (getProperty s "isContainer") (PyBool true)) then
    Ok (h, ("The " +:+ name s +:+
            " is not a container, so things can't be removed from it.",
            None, false))
  else if negb (py_eq (getProperty o "isMoveable") (PyBool true)) then
    Ok (h, ("The " +:+ name o +:+ " is not moveable.", None, false))
  else if negb (py_eq (getProperty s "isOpen") (PyBool true)) then
    Ok (h, ("The " +:+ name s +:+
            " is closed, so things can't be removed from it.", None, false))
  else if negb (bool_decide (obj ∈ contains s)) then
    Ok (h, ("The " +:+ name o +:+ " is not contained in the " +:+ name s
            +:+ ".", None, false))
  else
    h' ← removeSelfFromContainer h obj;
    o' ← getObj h' obj;
    r ← referent0 o';
    s' ← getObj h' self;
    Ok (h', ("The " +:+ r +:+ " is removed from the " +:+ name s' +:+ ".",
             Some obj, true)).

(** ** Device *)

(** [Device.turnOn] *)
Definition Device_turnOn (h : Heap) (self : nat)
  : result (Heap * (string * bool)) :=
  s ← asDevice h self;
  if py_eq (getProperty s "isActivatable") (PyBool false) then
    r ← referent0 s;
    Ok (h, ("It's not clear how the " +:+ r +:+ " could be turned on.", false))
  else
    isOn ← prop s "isOn";
    if py_truthy isOn then
      r ← referent0 s;
      Ok (h, ("The " +:+ r +:+ " is already on.", false))
    else
      let s' := set_prop "isOn" (PyBool true) s in
      r ← referent0 s';
      Ok (<[self := s']> h, ("The " +:+ r +:+ " is now turned on.", true)).

(** [Device.turnOff] *)
Definition Device_turnOff (h : Heap) (self : nat)
  : result (Heap * (string * bool)) :=
  s ← asDevice h self;
  if py_eq (getProperty s "isActivatable") (PyBool false) then
    r ← referent0 s;
    Ok (h, ("It's not clear how the " +:+ r +:+ " could be turned off.", false))
  else
    isOn ← prop s "isOn";
    if negb (py_truthy isOn) then
      r ← referent0 s;
      Ok (h, ("The " +:+ r +:+ " is already off.", false))
    else
      let s' := set_prop "isOn" (PyBool false) s in
      r ← referent0 s';
      Ok (<[self := s']> h, ("The " +:+ r +:+ " is now turned off.", true)).

(** [DishWasher.turnOn] *)
Definition DishWasher_turnOn (h : Heap) (self : nat)
  : result (Heap * (string * bool)) :=
  s ← getObj h self;
  isOpen ← prop s "isOpen";
  if py_truthy isOpen then
    Ok (h, ("The " +:+ name s +:+ " is opened, so it can't be turned on.",
            false))
  else Device_turnOn h self.

(** [obj.turnOn()], resolved on the class of [obj] *)
Definition turnOn (h : Heap) (self : nat) : result (Heap * (string * bool)) :=
  c ← type_of h self;
  match c with
  | DishWasher => DishWasher_turnOn h self
  | DishSoapBottle => Device_turnOn h self
  | _ => Raise AttributeError
  end.

(** [obj.turnOff()]: no class overrides [Device.turnOff] *)
Definition turnOff (h : Heap) (self : nat) : result (Heap * (string * bool)) :=
  Device_turnOff h self.

(** ** Constructors

    The module-level counter [UUID] is threaded through: a constructor takes
    its value and returns the next one. *)

(** the object before any [__init__] has run *)
Definition blank (c : pyclass) : GameObject :=
  mkGameObject c [] 0 "" None [] ∅ None.

(** [GameObject.__init__] *)
Definition GameObject_init (self : GameObject) (nm : string) (U : nat)
  : GameObject * nat :=
  match constructorsRun self with
  | _ :: _ => (self, U)
  | [] =>
      (mkGameObject (cls self) ["GameObject"] U
         (nm +:+ " (ID: " +:+ pretty U +:+ ")") None []
         (<["isMoveable" := PyBool true]>
            (<["isContainer" := PyBool false]> ∅))
         (foodName self),
       S U)
  end.

Definition mark_run (c : string) (o : GameObject) : GameObject :=
  mkGameObject (cls o) (constructorsRun o ++ [c]) (uuid o) (name o)
    (parentContainer o) (contains o) (properties o) (foodName o).

(** [Container.__init__] *)
Definition Container_init (self : GameObject) (nm : string) (U : nat)
  : GameObject * nat :=
  if bool_decide ("Container" ∈ constructorsRun self) then (self, U)
  else
    let '(o, U') := GameObject_init self nm U in
    (set_prop "containerPrefix" (PyStr "in")
       (set_prop "isOpen" (PyBool true)
          (set_prop "isOpenable" (PyBool false)
             (set_prop "isContainer" (PyBool true)
                (mark_run "Container" o)))), U').

(** [Device.__init__] *)
Definition Device_init (self : GameObject) (nm : string) (U : nat)
  : GameObject * nat :=
  if bool_decide ("Device" ∈ constructorsRun self) then (self, U)
  else
    let '(o, U') := GameObject_init self nm U in
    (set_prop "isOn" (PyBool false)
       (set_prop "isActivatable" (PyBool true)
          (set_prop "isDevice" (PyBool true)
             (mark_run "Device" o))), U').

(** [DishWasher.__init__] *)
Definition DishWasher_init (U : nat) : GameObject * nat :=
  let '(o, U) := GameObject_init (blank DishWasher) "dishwasher" U in
  let '(o, U) := Container_init o "dishwasher" U in
  let '(o, U) := Device_init o "dishwasher" U in
  (set_prop "finishedCycle" (PyBool false)
     (set_prop "cycleStage" (PyInt 0)
        (set_prop "isMoveable" (PyBool false)
           (set_prop "isOpen" (PyBool false)
              (set_prop "isOpenable" (PyBool true) o)))), U).

(** [Dish.makeDirty] *)
Definition makeDirty (foodName : string) (o : GameObject) : GameObject :=
  set_prop "foodMessName" (PyStr foodName) (set_prop "isDirty" (PyBool true) o).

(** [Dish.makeClean] *)
Definition makeClean (o : GameObject) : GameObject :=
  set_prop "foodMessName" PyNone (set_prop "isDirty" (PyBool false) o).

(** [Dish.__init__] *)
Definition Dish_init (dishType : string) (isDirty : bool) (foodName : string)
    (containerPrefix : string) (U : nat) : GameObject * nat :=
  let '(o, U) := GameObject_init (blank Dish) dishType U in
  let '(o, U) := Container_init o dishType U in
  let o := set_prop "isDirty" (PyBool isDirty)
             (set_prop "dishType" (PyStr dishType)
                (set_prop "containerPrefix" (PyStr containerPrefix) o)) in
  (if isDirty then makeDirty foodName o else o, U).

(** [DishSoapBottle.__init__] *)
Definition DishSoapBottle_init (U : nat) : GameObject * nat :=
  Device_init (blank DishSoapBottle) "bottle of dish soap" U.

(** [Soap.__init__] *)
Definition Soap_init (U : nat) : GameObject * nat :=
  GameObject_init (blank Soap) "dish soap" U.

(** [Food.__init__] *)
Definition Food_init (foodName : string) (U : nat) : GameObject * nat :=
  let '(o, U) := GameObject_init (blank Food) foodName U in
  (set_prop "isFood" (PyBool true)
     (mkGameObject (cls o) (constructorsRun o) (uuid o) (name o)
        (parentContainer o) (contains o) (properties o) (Some foodName)), U).

(** [World.__init__] *)
Definition World_init (U : nat) : GameObject * nat :=
  Container_init (blank World) "kitchen" U.

(** [Agent.__init__] *)
Definition Agent_init (U : nat) : GameObject * nat :=
  let '(o, U) := GameObject_init (blank Agent) "agent" U in
  Container_init o "agent" U.

(** a constructed object enters the object graph under its uuid *)
Definition alloc (h : Heap) (o : GameObject) : Heap := <[uuid o := o]> h.

(** [DishSoapBottle.useWithObject] and the default [Device.useWithObject]
    that [DishWasher] inherits.  [Soap()] draws a uuid from the counter. *)
Definition useWithObject (h : Heap) (U : nat) (self patientObject : nat)
  : result (Heap * nat * (string * bool)) :=
  s ← asDevice h self;
  p ← getObj h patientObject;
  match cls s with
  | DishSoapBottle =>
      if bool_decide (cls p = Dish) then
        let '(soap, U') := Soap_init U in
        h' ← addObject (alloc h soap) patientObject (uuid soap);
        p' ← getObj h' patientObject;
        r ← referent0 p';
        Ok (h', U', ("You squirt some dish soap on the " +:+ r +:+ ".", true))
      else if bool_decide (cls p = DishWasher) then
        let '(soap, U') := Soap_init U in
        h' ← addObject (alloc h soap) patientObject (uuid soap);
        Ok (h', U', ("You squirt some dish soap into the dishwasher.", true))
      else
        Ok (h, U, ("You're not sure how to use the " +:+ name s +:+
                   " with the " +:+ name p +:+ ".", false))
  | _ =>
      r ← referent0 s;
      Ok (h, U, ("You're not sure how to use the " +:+ r +:+ " with the "
                 +:+ name p +:+ ".", false))
  end.

(** ** The dishwasher's cycle *)

(** [DishWasher.tick] *)
Definition DishWasher_tick (fuel : nat) (h : Heap) (self : nat) : result Heap :=
  s ← getObj h self;
  isOpen ← prop s "isOpen";
  let s := if py_eq isOpen (PyBool true)
           then set_prop "cycleStage" (PyInt 0)
                  (set_prop "finishedCycle" (PyBool false)
                     (set_prop "isOn" (PyBool false) s))
           else s in
  let h := <[self := s]> h in
  isOn ← prop s "isOn";
  if py_eq isOn (PyBool true) then
    stage ← prop s "cycleStage";
    n ← py_int stage;
    let s := if bool_decide (n < 3)
             then set_prop "cycleStage" (PyInt (n + 1)) s else s in
    let h := <[self := s]> h in
    stage ← prop s "cycleStage";
    if py_eq stage (PyInt 2) then
      allObjects ← getAllContainedObjectsRecursive fuel h self;
      classes ← mapM (type_of h) allObjects;
      let containsSoap := bool_decide (Soap ∈ classes) in
      h ← (if containsSoap then
             allObjects ← getAllContainedObjectsRecursive fuel h self;
             forM_ allObjects
               (fun h obj =>
                  o ← getObj h obj;
                  if bool_decide (cls o = Dish)
                  then Ok (<[obj := makeClean o]> h) else Ok h) h
           else Ok h);
      allObjects ← getAllContainedObjectsRecursive fuel h self;
      forM_ allObjects
        (fun h obj =>
           o ← getObj h obj;
           if bool_decide (cls o = Soap)
           then removeSelfFromContainer h obj else Ok h) h
    else if py_eq stage (PyInt 3) then
      let s := set_prop "cycleStage" (PyInt 0)
                 (set_prop "finishedCycle" (PyBool true) s) in
      '(h, _) ← turnOff (<[self := s]> h) self;
      Ok h
    else Ok h
  else Ok h.

(** [obj.tick()], resolved on the class of [obj]: only [DishWasher]
    overrides the empty [GameObject.tick]. *)
Definition tick (fuel : nat) (h : Heap) (self : nat) : result Heap :=
  c ← type_of h self;
  match c with
  | DishWasher => DishWasher_tick fuel h self
  | _ => Ok h
  end.

(** ** Descriptions *)

Definition NL : string := String (Ascii.ascii_of_nat 10) "".
Definition TAB : string := String (Ascii.ascii_of_nat 9) "".

(** [s[:-2]] *)
Definition drop_last2 (s : string) : string :=
  String.substring 0 (String.length s - 2) s.

(** The loop of [Dish.makeDescriptionStr] that joins the contents: "and "
    before the last of several, ", " after each. *)
Fixpoint join_contents (n i : nat) (l : list string) (outStr : string)
  : string :=
  match l with
  | [] => outStr
  | e :: l' =>
      let outStr :=
        if bool_decide (i = n - 1)%nat && bool_decide (1 < n)%nat
        then outStr +:+ "and " else outStr in
      join_contents n (S i) l' (outStr +:+ e +:+ ", ")
  end.

(** [obj.makeDescriptionStr(makeDetailed)], resolved on the class of [obj];
    [fuel] bounds the depth of the recursion into the contents. *)
Fixpoint makeDescriptionStr (fuel : nat) (h : Heap) (self : nat)
    (makeDetailed : bool) : result string :=
  match fuel with
  | O => Raise RecursionError
  | S fuel' =>
      s ← getObj h self;
      let listing (outStr : string) : result string :=
        forM_ (contains s)
          (fun outStr obj =>
             d ← makeDescriptionStr fuel' h obj false;
             Ok (outStr +:+ TAB +:+ d +:+ NL)) outStr in
      match cls s with
      | World =>
          listing ("You find yourself in a kitchen.  In the kitchen, you see: "
                   +:+ NL)
      | Agent => Ok "yourself"
      | DishSoapBottle | Food => Ok ("a " +:+ name s)
      | Soap => Ok ("a squirt of " +:+ name s)
      | DishWasher =>
          let outStr := "a " +:+ name s in
          finished ← prop s "finishedCycle";
          let outStr := if py_truthy finished
                        then outStr +:+ " with a blinking green light"
                        else outStr in
          isOn ← prop s "isOn";
          if py_truthy isOn then Ok (outStr +:+ " that is currently on")
          else
            isOpen ← prop s "isOpen";
            if py_truthy isOpen then
              let outStr := outStr +:+ " that is currently open" in
              if bool_decide (length (contains s) = 0%nat)
              then Ok (outStr +:+ " and empty")
              else if negb makeDetailed
              then Ok (outStr +:+ " and contains one or more items.")
              else listing (outStr +:+ " and contains the following items: "
                            +:+ NL)
            else Ok (outStr +:+ " that is currently closed")
      | Dish =>
          dirty ← prop s "isDirty";
          let outStr := "a " +:+ (if py_truthy dirty then "dirty " else "clean ")
                        +:+ name s in
          dirty ← prop s "isDirty";
          effectiveContents ←
            (if py_truthy dirty then
               mess ← prop s "foodMessName";
               m ← py_str mess;
               Ok ["half-eaten pieces of " +:+ m]
             else Ok []);
          effectiveContents ←
            forM_ (contains s)
              (fun acc obj =>
                 d ← makeDescriptionStr fuel' h obj false;
                 Ok (acc ++ [d])) effectiveContents;
          if bool_decide (0 < length effectiveContents)%nat then
            let outStr :=
              join_contents (length effectiveContents) 0 effectiveContents
                (outStr +:+ " that looks to have ") in
            prefix ← prop s "containerPrefix";
            p ← py_str prefix;
            Ok (drop_last2 outStr +:+ " " +:+ p +:+ " it")
          else Ok outStr
      end
  end.

(** ** The game *)

(** An entry of an action list: [[verb, obj, ...]]. *)
Record action := mkAction {
  actionVerb : string;
  actionObjs : list nat
}.

#[global] Instance action_eq_dec : EqDecision action.
Proof. solve_decision. Defined.

(** [action[i]] for [i ≥ 1] *)
Definition action_arg (a : action) (i : nat) : result nat :=
  of_option IndexError (actionObjs a !! (i - 1)%nat).

(** A Python [dict] from strings to lists keeps its keys in insertion
    order, which the loops over [.items()] observe: an association list. *)
Fixpoint dict_get {V} (k : string) (d : list (string * list V))
  : option (list V) :=
  match d with
  | [] => None
  | (k', vs) :: d' => if decide (k' = k) then Some vs else dict_get k d'
  end.

(** [if k in d: d[k].append(v) else: d[k] = [v]] *)
Fixpoint dict_append {V} (k : string) (v : V) (d : list (string * list V))
  : list (string * list V) :=
  match d with
  | [] => [(k, [v])]
  | (k', vs) :: d' =>
      if decide (k' = k) then (k', vs ++ [v]) :: d'
      else (k', vs) :: dict_append k v d'
  end.

Record TextGame := mkTextGame {
  heap : Heap;
  UUID : nat;                       (* the module-level counter *)
  agent : nat;
  rootObject : nat;
  score : Z;
  numSteps : nat;
  gameOver : bool;
  gameWon : bool;
  observationStr : string;
  numStartingDirtyDishes : Z;
  possibleActions : list (string * list action)
}.

Definition set_heap (h : Heap) (g : TextGame) : TextGame :=
  mkTextGame h (UUID g) (agent g) (rootObject g) (score g) (numSteps g)
    (gameOver g) (gameWon g) (observationStr g) (numStartingDirtyDishes g)
    (possibleActions g).
Definition set_UUID (U : nat) (g : TextGame) : TextGame :=
  mkTextGame (heap g) U (agent g) (rootObject g) (score g) (numSteps g)
    (gameOver g) (gameWon g) (observationStr g) (numStartingDirtyDishes g)
    (possibleActions g).
Definition set_score (z : Z) (g : TextGame) : TextGame :=
  mkTextGame (heap g) (UUID g) (agent g) (rootObject g) z (numSteps g)
    (gameOver g) (gameWon g) (observationStr g) (numStartingDirtyDishes g)
    (possibleActions g).
Definition set_numSteps (n : nat) (g : TextGame) : TextGame :=
  mkTextGame (heap g) (UUID g) (agent g) (rootObject g) (score g) n
    (gameOver g) (gameWon g) (observationStr g) (numStartingDirtyDishes g)
    (possibleActions g).
Definition set_over (over won : bool) (g : TextGame) : TextGame :=
  mkTextGame (heap g) (UUID g) (agent g) (rootObject g) (score g) (numSteps g)
    over won (observationStr g) (numStartingDirtyDishes g)
    (possibleActions g).
Definition set_observationStr (s : string) (g : TextGame) : TextGame :=
  mkTextGame (heap g) (UUID g) (agent g) (rootObject g) (score g) (numSteps g)
    (gameOver g) (gameWon g) s (numStartingDirtyDishes g)
    (possibleActions g).
Definition set_possibleActions (d : list (string * list action))
    (g : TextGame) : TextGame :=
  mkTextGame (heap g) (UUID g) (agent g) (rootObject g) (score g) (numSteps g)
    (gameOver g) (gameWon g) (observationStr g) (numStartingDirtyDishes g) d.

(** [TextGame.makeNameToObjectDict] *)
Definition makeNameToObjectDict (g : TextGame)
  : result (list (string * list nat)) :=
  allObjects ← getAllContainedObjectsRecursive recursionLimit (heap g)
                 (rootObject g);
  forM_ allObjects
    (fun nameToObjectDict obj =>
       o ← getObj (heap g) obj;
       names ← getReferents o;
       Ok (foldl (fun d nm => dict_append nm obj d) nameToObjectDict names))
    [].

(** [TextGame.addAction] *)
Definition addAction (actionStr : string) (actionArgs : action)
    (possibleActions : list (string * list action))
  : list (string * list action) :=
  dict_append actionStr actionArgs possibleActions.

(** The nested loops of [generatePossibleActions] over
    [allObjects.items()]: one referent with each of its objects, and pairs
    of them. *)
Definition for_each_referent {S} (allObjects : list (string * list nat))
    (body : S → string → nat → result S) (s : S) : result S :=
  forM_ allObjects
    (fun s '(objReferent, objs) =>
       forM_ objs (fun s obj => body s objReferent obj) s) s.

Definition for_each_referent_pair {S} (allObjects : list (string * list nat))
    (body : S → string → nat → string → nat → result S) (s : S) : result S :=
  forM_ allObjects
    (fun s '(objReferent1, objs1) =>
       forM_ allObjects
         (fun s '(objReferent2, objs2) =>
            forM_ objs1
              (fun s obj1 =>
                 forM_ objs2
                   (fun s obj2 => body s objReferent1 obj1 objReferent2 obj2)
                   s) s) s) s.

(** [TextGame.generatePossibleActions]: the catalog it stores in
    [self.possibleActions] (and returns). *)
Definition generatePossibleActions (g : TextGame) : result TextGame :=
  let h := heap g in
  allObjects ← makeNameToObjectDict g;
  let pa := [] in
  let pa := addAction "look around" (mkAction "look around" []) pa in
  let pa := addAction "look" (mkAction "look around" []) pa in
  let pa := addAction "inventory" (mkAction "inventory" []) pa in
  pa ← for_each_referent allObjects
         (fun pa objReferent obj =>
            let pa := addAction ("take " +:+ objReferent)
                        (mkAction "take" [obj]) pa in
            o ← getObj h obj;
            p ← of_option AttributeError (parentContainer o);
            po ← getObj h p;
            pr ← referent0 po;
            Ok (addAction ("take " +:+ objReferent +:+ " from " +:+ pr)
                  (mkAction "take" [obj]) pa)) pa;
  pa ← for_each_referent allObjects
         (fun pa objReferent obj =>
            let pa := addAction ("open " +:+ objReferent)
                        (mkAction "open" [obj]) pa in
            Ok (addAction ("close " +:+ objReferent)
                  (mkAction "close" [obj]) pa)) pa;
  pa ← for_each_referent allObjects
         (fun pa objReferent obj =>
            Ok (addAction ("examine " +:+ objReferent)
                  (mkAction "examine" [obj]) pa)) pa;
  pa ← for_each_referent allObjects
         (fun pa objReferent obj =>
            let pa := addAction ("turn on " +:+ objReferent)
                        (mkAction "turn on" [obj]) pa in
            Ok (addAction ("turn off " +:+ objReferent)
                  (mkAction "turn off" [obj]) pa)) pa;
  pa ← for_each_referent_pair allObjects
         (fun pa objReferent1 obj1 objReferent2 obj2 =>
            Ok (addAction ("eat " +:+ objReferent1 +:+ " with " +:+
                           objReferent2)
                  (mkAction "eat" [obj1; obj2]) pa)) pa;
  pa ← for_each_referent_pair allObjects
         (fun pa objReferent1 obj1 objReferent2 obj2 =>
            if bool_decide (obj1 ≠ obj2) then
              o2 ← getObj h obj2;
              isC ← prop o2 "isContainer";
              containerPrefix ←
                (if py_truthy isC
                 then v ← prop o2 "containerPrefix"; py_str v
                 else Ok "in");
              Ok (addAction ("put " +:+ objReferent1 +:+ " " +:+
                             containerPrefix +:+ " " +:+ objReferent2)
                    (mkAction "put" [obj1; obj2]) pa)
            else Ok pa) pa;
  pa ← for_each_referent_pair allObjects
         (fun pa objReferent1 obj1 objReferent2 obj2 =>
            if bool_decide (obj1 ≠ obj2) then
              Ok (addAction ("use " +:+ objReferent1 +:+ " on " +:+
                             objReferent2)
                    (mkAction "use" [obj1; obj2]) pa)
            else Ok pa) pa;
  Ok (set_possibleActions pa g).

(** ** Action handlers

    A handler returns the new object graph and the observation string. *)

(** [TextGame.actionEat] *)
Definition actionEat (g : TextGame) (obj dish : nat)
  : result (Heap * string) :=
  let h := heap g in
  o ← getObj h obj;
  if negb (bool_decide (parentContainer o = Some (agent g))) then
    r ← referent0 o;
    Ok (h, "You don't currently have the " +:+ r +:+ " in your inventory.")
  else
    d ← getObj h dish;
    if negb (bool_decide (cls d = Dish)) then
      Ok (h, name d +:+ " is not a dish.")
    else
      dirty ← prop d "isDirty";
      if py_truthy dirty then Ok (h, "You can't eat with a dirty dish.")
      else if py_eq (getProperty o "isFood") (PyBool true) then
        p ← of_option AttributeError (parentContainer o);
        '(h, (_, _, success)) ← takeObjectFromContainer h p obj;
        if bool_decide (success = false) then Ok (h, "You can't see that.")
        else
          o ← getObj h obj;
          d ← getObj h dish;
          h ← addObject (<[dish := makeDirty (name o) d]> h) (rootObject g)
                dish;
          o ← getObj h obj;
          fn ← of_option AttributeError (foodName o);
          d ← getObj h dish;
          dt ← prop d "dishType";
          dts ← py_str dt;
          Ok (h, "You eat the " +:+ fn +:+ " using the " +:+ dts +:+ ".")
      else Ok (h, "You can't eat that.").

(** [TextGame.actionOpen] *)
Definition actionOpen (g : TextGame) (obj : nat) : result (Heap * string) :=
  o ← getObj (heap g) obj;
  if py_eq (getProperty o "isContainer") (PyBool true) then
    '(h, (obsStr, _)) ← openContainer (heap g) obj;
    Ok (h, obsStr)
  else Ok (heap g, "You can't open that.").

(** [TextGame.actionClose] *)
Definition actionClose (g : TextGame) (obj : nat) : result (Heap * string) :=
  o ← getObj (heap g) obj;
  if py_eq (getProperty o "isContainer") (PyBool true) then
    '(h, (obsStr, _)) ← closeContainer (heap g) obj;
    Ok (h, obsStr)
  else Ok (heap g, "You can't close that.").

(** [TextGame.actionTake] *)
Definition actionTake (g : TextGame) (obj : nat) : result (Heap * string) :=
  let h := heap g in
  o ← getObj h obj;
  match parentContainer o with
  | None =>
      Ok (h, "Something has gone wrong -- that object is dangling in the void.  You can't take that.")
  | Some p =>
      if bool_decide (cls o = Agent) then Ok (h, "You cannot take yourself.")
      else
        '(h, (obsStr, _, success)) ← takeObjectFromContainer h p obj;
        if bool_decide (success = false) then Ok (h, obsStr)
        else
          h ← addObject h (agent g) obj;
          o ← getObj h obj;
          r ← referent0 o;
          Ok (h, obsStr +:+ " You put the " +:+ r +:+ " in your inventory.")
  end.

(** [TextGame.actionPut] *)
Definition actionPut (g : TextGame) (objToMove newContainer : nat)
  : result (Heap * string) :=
  let h := heap g in
  c ← getObj h newContainer;
  if py_eq (getProperty c "isContainer") (PyBool false) then
    r ← referent0 c;
    Ok (h, "You can't put things in the " +:+ r +:+ ".")
  else
    o ← getObj h objToMove;
    if negb (bool_decide (parentContainer o = Some (agent g))) then
      r ← referent0 o;
      Ok (h, "You don't currently have the " +:+ r +:+ " in your inventory.")
    else
      originalContainer ← of_option AttributeError (parentContainer o);
      '(h, (obsStr1, _, success)) ←
        takeObjectFromContainer h originalContainer objToMove;
      if bool_decide (success = false) then Ok (h, obsStr1)
      else
        '(h, t) ← placeObjectInContainer h newContainer objToMove;
        '(obsStr2, success) ← unpack2 t;
        if bool_decide (success = false) then
          h ← addObject h originalContainer objToMove;
          Ok (h, obsStr2)
        else Ok (h, obsStr1 +:+ NL +:+ obsStr2).

(** [TextGame.actionInventory] *)
Definition actionInventory (g : TextGame) : result string :=
  a ← getObj (heap g) (agent g);
  let inventory := contains a in
  if bool_decide (length inventory = 0%nat) then Ok "Your inventory is empty."
  else
    forM_ inventory
      (fun obsStr obj =>
         d ← makeDescriptionStr recursionLimit (heap g) obj false;
         Ok (obsStr +:+ TAB +:+ d +:+ NL))
      ("You have the following items in your inventory:" +:+ NL).

(** [TextGame.actionTurnOn] *)
Definition actionTurnOn (g : TextGame) (obj : nat) : result (Heap * string) :=
  o ← getObj (heap g) obj;
  if py_eq (getProperty o "isDevice") (PyBool true) then
    '(h, (obsStr, _)) ← turnOn (heap g) obj;
    Ok (h, obsStr)
  else Ok (heap g, "You can't turn on that.").

(** [TextGame.actionTurnOff] *)
Definition actionTurnOff (g : TextGame) (obj : nat) : result (Heap * string) :=
  o ← getObj (heap g) obj;
  if py_eq (getProperty o "isDevice") (PyBool true) then
    '(h, (obsStr, _)) ← turnOff (heap g) obj;
    Ok (h, obsStr)
  else Ok (heap g, "You can't turn off that.").

(** [TextGame.actionUse]: also returns the counter, which [Soap()] moves. *)
Definition actionUse (g : TextGame) (deviceObj patientObject : nat)
  : result (Heap * nat * string) :=
  o ← getObj (heap g) deviceObj;
  if py_eq (getProperty o "isDevice") (PyBool true) then
    '(h, U, (obsStr, _)) ← useWithObject (heap g) (UUID g) deviceObj
                             patientObject;
    Ok (h, U, obsStr)
  else Ok (heap g, UUID g, "You can't use that.").

(** ** The turn *)

(** The [if]/[elif] chain of [step_action] on the verb of the chosen
    action. *)
Definition interpret (g : TextGame) (a : action) : result TextGame :=
  let verb := actionVerb a in
  if bool_decide (verb = "look around") then
    d ← makeDescriptionStr recursionLimit (heap g) (rootObject g) false;
    Ok (set_observationStr d g)
  else if bool_decide (verb = "inventory") then
    d ← actionInventory g;
    Ok (set_observationStr d g)
  else if bool_decide (verb = "examine") then
    thingToExamine ← action_arg a 1;
    d ← makeDescriptionStr recursionLimit (heap g) thingToExamine true;
    Ok (set_observationStr d g)
  else if bool_decide (verb = "eat") then
    thingToEat ← action_arg a 1;
    dish ← action_arg a 2;
    '(h, obs) ← actionEat g thingToEat dish;
    Ok (set_observationStr obs (set_heap h g))
  else if bool_decide (verb = "open") then
    thingToOpen ← action_arg a 1;
    '(h, obs) ← actionOpen g thingToOpen;
    Ok (set_observationStr obs (set_heap h g))
  else if bool_decide (verb = "close") then
    thingToClose ← action_arg a 1;
    '(h, obs) ← actionClose g thingToClose;
    Ok (set_observationStr obs (set_heap h g))
  else if bool_decide (verb = "take") then
    thingToTake ← action_arg a 1;
    '(h, obs) ← actionTake g thingToTake;
    Ok (set_observationStr obs (set_heap h g))
  else if bool_decide (verb = "turn on") then
    thingToTurnOn ← action_arg a 1;
    '(h, obs) ← actionTurnOn g thingToTurnOn;
    Ok (set_observationStr obs (set_heap h g))
  else if bool_decide (verb = "turn off") then
    thingToTurnOff ← action_arg a 1;
    '(h, obs) ← actionTurnOff g thingToTurnOff;
    Ok (set_observationStr obs (set_heap h g))
  else if bool_decide (verb = "put") then
    thingToMove ← action_arg a 1;
    newContainer ← action_arg a 2;
    '(h, obs) ← actionPut g thingToMove newContainer;
    Ok (set_observationStr obs (set_heap h g))
  else if bool_decide (verb = "use") then
    deviceObj ← action_arg a 1;
    patientObj ← action_arg a 2;
    '(h, U, obs) ← actionUse g deviceObj patientObj;
    Ok (set_observationStr obs (set_UUID U (set_heap h g)))
  else Ok (set_observationStr "ERROR: Unknown action." g).

(** The five-tuple [(observationStr, score, reward, gameOver, gameWon)]. *)
Definition step_result : Type := string * Z * Z * bool * bool.

(** [TextGame.step_action]: the game after the call and the value the call
    returns, a five-tuple on the not-understood path and [None] (no
    [return] statement is reached) on the other. *)
Definition step_action (g : TextGame) (actionStr : string)
  : result (TextGame * option step_result) :=
  let g := set_observationStr "" g in
  let reward := 0 in
  match dict_get actionStr (possibleActions g) with
  | None =>
      let g := set_observationStr "I don't understand that." g in
      Ok (g, Some (observationStr g, score g, reward, gameOver g, gameWon g))
  | Some actions =>
      let g := set_numSteps (S (numSteps g)) g in
      a ← (if bool_decide (1 < length actions)%nat
           then of_option IndexError (actions !! 0%nat)
           else of_option IndexError (actions !! 0%nat));
      g ← interpret g a;
      Ok (g, None)
  end.

(** [TextGame.doWorldTick] *)
Definition doWorldTick (g : TextGame) : result TextGame :=
  allObjects ← getAllContainedObjectsRecursive recursionLimit (heap g)
                 (rootObject g);
  h ← forM_ allObjects (fun h obj => tick recursionLimit h obj) (heap g);
  Ok (set_heap h g).

(** [TextGame.step_tick] *)
Definition step_tick (g : TextGame) : result TextGame := doWorldTick g.

(** [TextGame.calculateScore] *)
Definition calculateScore (g : TextGame) : result TextGame :=
  let g := set_score (numStartingDirtyDishes g) g in
  allObjects ← getAllContainedObjectsRecursive recursionLimit (heap g)
                 (rootObject g);
  '(sc, numDirtyDishes) ←
    forM_ allObjects
      (fun '(sc, numDirtyDishes) obj =>
         o ← getObj (heap g) obj;
         if bool_decide (cls o = Dish)
            && py_eq (getProperty o "isDirty") (PyBool true)
         then Ok (sc - 1, S numDirtyDishes)
         else Ok (sc, numDirtyDishes))
      (score g, 0%nat);
  let g := set_score sc g in
  if bool_decide (numDirtyDishes = 0%nat) then Ok (set_over true true g)
  else Ok g.

(** [TextGame.step_calculate_score] *)
Definition step_calculate_score (g : TextGame) : result (TextGame * Z) :=
  let lastScore := score g in
  g ← calculateScore g;
  let reward := score g - lastScore in
  Ok (g, reward).

(** [TextGame.step] *)
Definition step (g : TextGame) (actionStr : string)
  : result (TextGame * step_result) :=
  '(g, _) ← step_action g actionStr;
  g ← step_tick g;
  '(g, reward) ← step_calculate_score g;
  Ok (g, (observationStr g, score g, reward, gameOver g, gameWon g)).

(** ** A new session *)

(** What the seeded generator [self.random] hands to [initializeWorld]:
    the two shuffled name lists and the three [randint] draws. *)
Record draws := mkDraws {
  foodNames : list string;
  dishNames : list string;
  numDirtyDishes : nat;
  numCleanDishes : nat;
  numFoods : nat
}.

(** the dictionary [containerPrefixes] *)
Definition containerPrefixes (dishType : string) : result string :=
  if bool_decide (dishType ∈ ["plate"; "fork"; "spoon"; "knife"])
  then Ok "on"
  else if bool_decide
            (dishType ∈ ["bowl"; "cup"; "mug"; "pot"; "pan"; "bottle"; "glass"])
  then Ok "in"
  else Raise KeyError.

(** [l[i % len(l)]] *)
Definition nth_mod (l : list string) (i : nat) : result string :=
  if bool_decide (length l = 0%nat) then Raise ZeroDivisionError
  else of_option IndexError (l !! (i mod length l)%nat).

(** [TextGame.initializeWorld] *)
Definition initializeWorld (d : draws) (h : Heap) (U : nat) (agent : nat)
  : result (Heap * nat * nat) :=
  let '(world, U) := World_init U in
  let w := uuid world in
  h ← addObject (alloc h world) w agent;
  let '(dishwasher, U) := DishWasher_init U in
  h ← addObject (alloc h dishwasher) w (uuid dishwasher);
  let '(dishSoapBottle, U) := DishSoapBottle_init U in
  h ← addObject (alloc h dishSoapBottle) w (uuid dishSoapBottle);
  '(h, U) ← forM_ (seq 0 (numDirtyDishes d))
    (fun '(h, U) i =>
       dishType ← nth_mod (dishNames d) i;
       foodName ← nth_mod (foodNames d) i;
       prefix ← containerPrefixes dishType;
       let '(dish, U) := Dish_init dishType true foodName prefix U in
       h ← addObject (alloc h dish) w (uuid dish);
       Ok (h, U)) (h, U);
  '(h, U) ← forM_ (seq 0 (numCleanDishes d))
    (fun '(h, U) i =>
       dishType ← nth_mod (dishNames d) (i + numDirtyDishes d);
       let '(dish, U) := Dish_init dishType false "" "in" U in
       h ← addObject (alloc h dish) w (uuid dish);
       Ok (h, U)) (h, U);
  '(h, U) ← forM_ (seq 0 (numFoods d))
    (fun '(h, U) i =>
       foodName ← nth_mod (foodNames d) (i + numDirtyDishes d);
       let '(food, U) := Food_init foodName U in
       h ← addObject (alloc h food) w (uuid food);
       Ok (h, U)) (h, U);
  Ok (h, U, w).

(** [TextGame.__init__] *)
Definition TextGame_init (d : draws) : result TextGame :=
  let U := 0%nat in
  let '(a, U) := Agent_init U in
  '(h, U, root) ← initializeWorld d (alloc ∅ a) U (uuid a);
  let g := mkTextGame h U (uuid a) root 0 0 false false ""
             (Z.of_nat (numDirtyDishes d)) [] in
  obs ← makeDescriptionStr recursionLimit h root false;
  let g := set_observationStr obs g in
  g ← calculateScore g;
  generatePossibleActions g.

(** One pass of the loop of [main]: a step, then the catalog is rebuilt. *)
Definition turn (g : TextGame) (actionStr : string)
  : result (TextGame * step_result) :=
  '(g, r) ← step g actionStr;
  g ← generatePossibleActions g;
  Ok (g, r).

(** Several turns in a row, the results dropped. *)
Definition play (g : TextGame) (actionStrs : list string) : result TextGame :=
  forM_ actionStrs (fun g a => '(g, _) ← turn g a; Ok g) g.

(** ** The containment invariant

    Child lists and parent pointers agree, and no child list repeats an
    object.  Then an object with a parent is in that parent's list, once,
    and in no other list; an object without a parent is in no list. *)
Record tree_inv (h : Heap) : Prop := mk_tree_inv {
  inv_child : ∀ p op c,
    h !! p = Some op → c ∈ contains op →
    ∃ oc, h !! c = Some oc ∧ parentContainer oc = Some p;
  inv_parent : ∀ c oc p,
    h !! c = Some oc → parentContainer oc = Some p →
    ∃ op, h !! p = Some op ∧ c ∈ contains op;
  inv_nodup : ∀ p op, h !! p = Some op → NoDup (contains op)
}.

(** What a detach-then-append of [c] does to the object stored at [k]:
    [c] leaves the child list of its [old] parent, joins the end of the
    child list of its [new] parent, and its parent pointer becomes [new];
    every other field of every object is kept. *)
Definition reparent (c : nat) (old new : option nat) (k : nat)
    (o : GameObject) : GameObject :=
  set_parent (if decide (k = c) then new else parentContainer o)
    (set_contains
       ((if decide (old = Some k)
         then filter (λ y, y ≠ c) (contains o) else contains o)
        ++ (if decide (new = Some k) then [c] else [])) o).

Definition reparent_all (c : nat) (old new : option nat) (h : Heap) : Heap :=
  map_imap (λ k o, Some (reparent c old new k o)) h.

(** ** The score record of [data/games/balance-scale-weigh.py]

    Its [calculateScore] reads and writes five fields of the game only. *)
Module BalanceScale.

Record ScoreRecord := mkScoreRecord {
  score : Z;
  gameOver : bool;
  gameWon : bool;
  answer_mass : option Z;          (* [None] until [actionAnswer] *)
  cube_weight : Z
}.

(** [TextGame.calculateScore] *)
Definition calculateScore (g : ScoreRecord) : ScoreRecord :=
  let g := mkScoreRecord 0 (gameOver g) (gameWon g) (answer_mass g)
             (cube_weight g) in
  match answer_mass g with
  | Some m =>
      if bool_decide (cube_weight g = m) then
        mkScoreRecord (score g + 1) true true (answer_mass g) (cube_weight g)
      else
        mkScoreRecord 0 true false (answer_mass g) (cube_weight g)
  | None => g
  end.

(** [TextGame.actionAnswer]: the answer is stored; the observation is not
    part of the score record. *)
Definition actionAnswer (g : ScoreRecord) (mass : Z) : ScoreRecord :=
  mkScoreRecord (score g) (gameOver g) (gameWon g) (Some mass) (cube_weight g).

End BalanceScale.

(** ** A concrete session

    The draws of a generator that leaves both name lists in their written
    order and draws 3 dirty dishes, 1 clean dish and 1 food.  The objects
    get the uuids agent 0, kitchen 1, dishwasher 2, bottle of dish soap 3,
    plate 4, bowl 5, cup 6, mug 7, pizza 8. *)
Definition draws0 : draws :=
  mkDraws
    ["apple"; "orange"; "banana"; "pizza"; "peanut butter"; "sandwhich";
     "pasta"; "bell pepper"]
    ["plate"; "bowl"; "cup"; "mug"; "pot"; "pan"; "fork"; "spoon"; "knife";
     "bottle"; "glass"]
    3 1 1.

(** A dirty plate and a squirt of soap go into the dishwasher, which is
    closed and turned on. *)
Definition load_and_start : list string :=
  ["open dishwasher (ID: 2)";
   "take plate (ID: 4)";
   "put plate (ID: 4) in dishwasher (ID: 2)";
   "close dishwasher (ID: 2)";
   "use bottle of dish soap (ID: 3) on dishwasher (ID: 2)";
   "turn on dishwasher (ID: 2)"].

(** the game a result holds, the fresh game of [draws0] otherwise *)
Definition game_of (r : result TextGame) : TextGame :=
  match r with
  | Ok g => g
  | Raise _ => mkTextGame ∅ 0 0 0 0 0 false false "" 0 []
  end.

Definition game0 : TextGame :=
  Eval vm_compute in game_of (TextGame_init draws0).
Definition game_running : TextGame :=
  Eval vm_compute in game_of (play game0 load_and_start).

(** The fields of the game outside the object graph, the counter, the step
    count and the observation. *)
Definition scoreboard (g : TextGame)
  : nat * nat * Z * bool * bool * Z * list (string * list action) :=
  (agent g, rootObject g, score g, gameOver g, gameWon g,
   numStartingDirtyDishes g, possibleActions g).

(** the game after one more step *)
Definition after_step (g : TextGame) (actionStr : string) : TextGame :=
  game_of (r ← step g actionStr; Ok r.1).



(** ** Vocabulary for the properties of the other methods *)

(** Every object of the graph was numbered by the counter before it
    reached [U]. *)
Definition ids_below (U : nat) (h : Heap) : Prop :=
  ∀ k o, h !! k = Some o → (k < U)%nat.

(** [tree_inv] as a test that can be run on a concrete graph. *)
Definition tree_inv_b (h : Heap) : bool :=
  forallb
    (λ '(k, o),
       forallb (λ c, match h !! c with
                     | Some oc => bool_decide (parentContainer oc = Some k)
                     | None => false
                     end) (contains o)
       && match parentContainer o with
          | Some p => match h !! p with
                      | Some op => bool_decide (k ∈ contains op)
                      | None => false
                      end
          | None => true
          end
       && bool_decide (NoDup (contains o)))
    (map_to_list h).

Definition ids_below_b (U : nat) (h : Heap) : bool :=
  forallb (λ '(k, _), bool_decide (k < U)%nat) (map_to_list h).

(** The object graph of a new session with the draws [draws0], as
    [TextGame.__init__] builds it before any scoring: the agent, then
    [initializeWorld]. *)
Definition world0 : Heap :=
  Eval vm_compute in
  match (let '(a, U) := Agent_init 0 in
         initializeWorld draws0 (alloc ∅ a) U (uuid a)) with
  | Ok (h, _, _) => h
  | Raise _ => ∅
  end.

(** A game on [world0] whose catalog has not been built yet. *)
Definition session0 : TextGame :=
  mkTextGame world0 9 0 1 0 0 false false "" 3 [].

(** the object graph a handler returns *)
Definition heap_of {A} (r : result (Heap * A)) : Heap :=
  match r with
  | Ok (h, _) => h
  | Raise _ => ∅
  end.

(** did the call return (rather than raise)? *)
Definition is_Ok {A} (r : result A) : bool :=
  match r with Ok _ => true | Raise _ => false end.

(** the five-tuple a step call returns *)
Definition step_out (g : TextGame) (actionStr : string) : step_result :=
  match step g actionStr with
  | Ok (_, r) => r
  | Raise _ => ("", 0, 0, false, false)
  end.

(** the object stored under a uuid of a concrete graph *)
Definition obj_at (h : Heap) (k : nat) : GameObject :=
  default (blank World) (h !! k).

(** The objects of [world0]. *)
Definition agent0 : GameObject := Eval vm_compute in obj_at world0 0.
Definition kitchen0 : GameObject := Eval vm_compute in obj_at world0 1.
Definition dishwasher0 : GameObject := Eval vm_compute in obj_at world0 2.
Definition bottle0 : GameObject := Eval vm_compute in obj_at world0 3.
Definition plate0 : GameObject := Eval vm_compute in obj_at world0 4.
Definition mug0 : GameObject := Eval vm_compute in obj_at world0 7.
Definition pizza0 : GameObject := Eval vm_compute in obj_at world0 8.

(** what [calculateScore] tests on each object *)
Definition is_dirty_dish (o : GameObject) : bool :=
  bool_decide (cls o = Dish) && py_eq (getProperty o "isDirty") (PyBool true).

(** the number of dirty dishes among the objects of a list *)
Fixpoint count_dirty (h : Heap) (l : list nat) : result nat :=
  match l with
  | [] => Ok 0%nat
  | obj :: l' =>
      o ← getObj h obj;
      k ← count_dirty h l';
      Ok (if is_dirty_dish o then S k else k)
  end.

(** the game [calculateScore] leaves when it has counted [k] dirty dishes *)
Definition scored (g : TextGame) (k : nat) : TextGame :=
  let g := set_score (numStartingDirtyDishes g - Z.of_nat k) g in
  if bool_decide (k = 0%nat) then set_over true true g else g.

(** What a constructor call leaves behind: an object of class [c] that is
    numbered [U] and named after it, outside every container, with the two
    flags every object carries, and the counter moved on by one. *)
Definition fresh_object (c : pyclass) (nm : string) (U : nat)
    (r : GameObject * nat) : Prop :=
  r.2 = S U ∧ cls r.1 = c ∧ uuid r.1 = U ∧
  name r.1 = nm +:+ " (ID: " +:+ pretty U +:+ ")" ∧
  parentContainer r.1 = None ∧ contains r.1 = [] ∧
  properties r.1 !! "isContainer" = Some (PyBool (is_Container c)) ∧
  properties r.1 !! "isMoveable"
  = Some (PyBool (negb (bool_decide (c = DishWasher)))).

(** [world0] after the pizza has been taken, and its objects. *)
Definition world_pizza : Heap :=
  Eval vm_compute in heap_of (actionTake session0 8).
Definition session_pizza : TextGame :=
  mkTextGame world_pizza 9 0 1 0 0 false false "" 3 [].
Definition agent1 : GameObject := Eval vm_compute in obj_at world_pizza 0.
Definition kitchen1 : GameObject := Eval vm_compute in obj_at world_pizza 1.
Definition mug1 : GameObject := Eval vm_compute in obj_at world_pizza 7.
Definition pizza1 : GameObject := Eval vm_compute in obj_at world_pizza 8.

(** [h'] is as well-formed as [h]: the containment invariant and every
    bound on the uuids carry over. *)
Definition keeps (h h' : Heap) : Prop :=
  (tree_inv h → tree_inv h') ∧ (∀ U, ids_below U h → ids_below U h').

(** the state of a game that the well-formedness of its object graph is
    about *)
Definition game_ok (g : TextGame) : Prop :=
  tree_inv (heap g) ∧ ids_below (UUID g) (heap g).

(** What every constructor leaves behind: the counter moved on by one, and
    a new object numbered with its old value, in no container and holding
    nothing. *)
Definition new_at (U : nat) (r : GameObject * nat) : Prop :=
  r.2 = S U ∧ uuid r.1 = U ∧ parentContainer r.1 = None ∧ contains r.1 = [].

Definition dishwasher1 : GameObject := Eval vm_compute in obj_at world_pizza 2.

(** [c] is in the child list of [p] *)
Definition child_of (h : Heap) (c p : nat) : Prop :=
  ∃ op, h !! p = Some op ∧ c ∈ contains op.

(** the objects below [self]: its children, their children, and so on *)
Inductive descendant (h : Heap) (self : nat) : nat → Prop :=
  | desc_child k : child_of h k self → descendant h self k
  | desc_step k p :
      descendant h self p → child_of h k p → descendant h self k.

(** ** Vocabulary for the wash *)







(** the sentence with which [placeObjectInContainer] refuses a moveable
    object: the receiver is not a container, or it is closed *)
Definition place_refusal (s : GameObject) : string :=
  "The " +:+ name s +:+
  (if py_eq (getProperty s "isContainer") (PyBool true)
   then " is closed, so things can't be placed there."
   else " is not a container, so things can't be placed there.").

(** ** Sequences of take and put *)

Inductive move :=
  | Take (obj : nat)
  | Put (obj newContainer : nat).

(** one call of the take or of the put handler on the game *)
Definition do_move (g : TextGame) (m : move) : result TextGame :=
  match m with
  | Take obj => '(h, _) ← actionTake g obj; Ok (set_heap h g)
  | Put obj newContainer =>
      '(h, _) ← actionPut g obj newContainer; Ok (set_heap h g)
  end.

Definition do_moves (g : TextGame) (ms : list move) : result TextGame :=
  forM_ ms do_move g.

(** Every object but the root has a parent. *)
Definition rooted (root : nat) (h : Heap) : Prop :=
  ∀ k o, h !! k = Some o → k ≠ root → is_Some (parentContainer o).

(** [h'] has the objects of [h], with the parents they have in [h], but
    for the object [c]. *)
Definition same_parents_but (c : nat) (h h' : Heap) : Prop :=
  ∀ k, k ≠ c → parentContainer <$> h' !! k = parentContainer <$> h !! k.

(** * The text-game engine of [data/games/refrigerate-food.py]

    The same engine as the dishwasher's, with a temperature on every object
    and a score that is recomputed from the temperatures.  Temperatures are
    Python floats, here the kernel's binary64 numbers.  The classes
    [GameObject], [Container] and [Device] are the dishwasher's, but for the
    [temperature] property and [Container.tick]. *)
Module RefrigerateFood.

Import PrimFloat.

Inductive pyval :=
  | PyBool (b : bool)
  | PyInt (z : Z)
  | PyFloat (f : float)
  | PyStr (s : string)
  | PyNone.

(** [v == True] and [v == False]: a number equals [True] when it is one and
    [False] when it is zero. *)
Definition py_eq_bool (v : pyval) (b : bool) : bool :=
  match v with
  | PyBool x => bool_decide (x = b)
  | PyInt z => bool_decide (z = Z.b2z b)
  | PyFloat f => PrimFloat.eqb f (if b then 1.0 else 0.0)%float
  | PyStr _ | PyNone => false
  end.

(** [if v:] *)
Definition py_truthy (v : pyval) : bool :=
  match v with
  | PyBool b => b
  | PyInt z => negb (bool_decide (z = 0))
  | PyFloat f => negb (PrimFloat.eqb f 0.0%float)
  | PyStr s => negb (bool_decide (s = ""))
  | PyNone => false
  end.

(** [s + v] for a string [s]: only a string may be appended *)
Definition py_str (a : pyval) : result string :=
  match a with
  | PyStr s => Ok s
  | _ => Raise TypeError
  end.

(** The operands of [+], [-] and [<]: two floats or two integers ([bool]
    is a subclass of [int]).  [None] and a string next to a number are a
    [TypeError]; an integer next to a float, and two strings, are not
    evaluated by the model. *)
Definition py_binop {A} (fz : Z → Z → A) (ff : float → float → A)
    (a b : pyval) : result A :=
  match a, b with
  | PyFloat x, PyFloat y => Ok (ff x y)
  | PyInt x, PyInt y => Ok (fz x y)
  | PyInt x, PyBool y => Ok (fz x (Z.b2z y))
  | PyBool x, PyInt y => Ok (fz (Z.b2z x) y)
  | PyBool x, PyBool y => Ok (fz (Z.b2z x) (Z.b2z y))
  | PyFloat _, (PyInt _ | PyBool _) | (PyInt _ | PyBool _), PyFloat _ =>
      Raise Unmodelled
  | PyStr _, PyStr _ => Raise Unmodelled
  | _, _ => Raise TypeError
  end.

(** [a + b], [a - b] and [a < b]; [a > b] is [b < a] *)
Definition py_add : pyval → pyval → result pyval :=
  py_binop (fun x y => PyInt (x + y)) (fun x y => PyFloat (PrimFloat.add x y)).
Definition py_sub : pyval → pyval → result pyval :=
  py_binop (fun x y => PyInt (x - y)) (fun x y => PyFloat (PrimFloat.sub x y)).
Definition py_lt : pyval → pyval → result bool :=
  py_binop (fun x y => bool_decide (x < y)) PrimFloat.ltb.

(** ** Game objects *)

Inductive pyclass := World | Agent | Fridge | FoodItem | Counter.

#[global] Instance pyclass_eq_dec : EqDecision pyclass.
Proof. solve_decision. Defined.

Definition is_Container (c : pyclass) : bool :=
  match c with World | Agent | Fridge | Counter => true | FoodItem => false end.
Definition is_Device (c : pyclass) : bool :=
  match c with Fridge => true | _ => false end.

Record GameObject := mkGameObject {
  cls : pyclass;
  constructorsRun : list string;   (* [[]] while the attribute is not set *)
  uuid : nat;
  name : string;
  parentContainer : option nat;
  contains : list nat;
  properties : gmap string pyval
}.

Abbreviation Heap := (gmap nat GameObject).

Definition set_parent (p : option nat) (o : GameObject) : GameObject :=
  mkGameObject (cls o) (constructorsRun o) (uuid o) (name o) p (contains o)
    (properties o).
Definition set_contains (l : list nat) (o : GameObject) : GameObject :=
  mkGameObject (cls o) (constructorsRun o) (uuid o) (name o)
    (parentContainer o) l (properties o).
(** [self.properties[k] = v] *)
Definition set_prop (k : string) (v : pyval) (o : GameObject) : GameObject :=
  mkGameObject (cls o) (constructorsRun o) (uuid o) (name o)
    (parentContainer o) (contains o) (<[k := v]> (properties o)).

Definition getObj (h : Heap) (o : nat) : result GameObject :=
  of_option InvalidReference (h !! o).

(** [GameObject.getProperty]: [None] when the key is absent. *)
Definition getProperty (o : GameObject) (propertyName : string) : pyval :=
  match properties o !! propertyName with
  | Some v => v
  | None => PyNone
  end.

(** [self.properties[k]]: [KeyError] when the key is absent. *)
Definition prop (o : GameObject) (k : string) : result pyval :=
  of_option KeyError (properties o !! k).

(** [GameObject.removeObject] *)
Definition removeObject (h : Heap) (self obj : nat) : result Heap :=
  s ← getObj h self;
  l ← of_option ValueError (list_remove obj (contains s));
  let h1 := <[self := set_contains l s]> h in
  o ← getObj h1 obj;
  Ok (<[obj := set_parent None o]> h1).

(** [GameObject.removeSelfFromContainer] *)
Definition removeSelfFromContainer (h : Heap) (self : nat) : result Heap :=
  s ← getObj h self;
  match parentContainer s with
  | Some p => removeObject h p self
  | None => Ok h
  end.

(** [GameObject.addObject] *)
Definition addObject (h : Heap) (self obj : nat) : result Heap :=
  h1 ← removeSelfFromContainer h obj;
  s ← getObj h1 self;
  let h2 := <[self := set_contains (contains s ++ [obj]) s]> h1 in
  o ← getObj h2 obj;
  Ok (<[obj := set_parent (Some self) o]> h2).

(** [GameObject.getAllContainedObjectsRecursive] *)
Fixpoint getAllContainedObjectsRecursive (fuel : nat) (h : Heap) (self : nat)
  : result (list nat) :=
  match fuel with
  | O => Raise RecursionError
  | S fuel' =>
      s ← getObj h self;
      flat_mapM (fun obj =>
                   sub ← getAllContainedObjectsRecursive fuel' h obj;
                   Ok (obj :: sub))
                (contains s)
  end.

(** [GameObject.getReferents], with the overrides of [FoodItem] and
    [Agent]. *)
Definition getReferents (o : GameObject) : result (list string) :=
  match cls o with
  | FoodItem =>
      spoiled ← prop o "isSpoiled";
      Ok ((if py_truthy spoiled then ["spoiled " +:+ name o] else [])
          ++ [name o])
  | Agent => Ok ["yourself"]
  | _ => Ok [name o]
  end.

(** [o.getReferents()[0]] *)
Definition referent0 (o : GameObject) : result string :=
  l ← getReferents o; of_option IndexError (head l).

(** ** Container *)

Definition asContainer (h : Heap) (self : nat) : result GameObject :=
  s ← getObj h self;
  if is_Container (cls s) then Ok s else Raise AttributeError.

Definition asDevice (h : Heap) (self : nat) : result GameObject :=
  s ← getObj h self;
  if is_Device (cls s) then Ok s else Raise AttributeError.

(** [Container.openContainer] *)
Definition openContainer (h : Heap) (self : nat)
  : result (Heap * (string * bool)) :=
  s ← asContainer h self;
  if negb (py_truthy (getProperty s "isOpenable")) then
    Ok (h, ("The " +:+ name s +:+ " can't be opened.", false))
  else if py_truthy (getProperty s "isOpen") then
    Ok (h, ("The " +:+ name s +:+ " is already open.", false))
  else
    Ok (<[self := set_prop "isOpen" (PyBool true) s]> h,
        ("The " +:+ name s +:+ " is now open.", true)).

(** [Container.closeContainer] *)
Definition closeContainer (h : Heap) (self : nat)
  : result (Heap * (string * bool)) :=
  s ← asContainer h self;
  if negb (py_eq_bool (getProperty s "isOpenable") true) then
    Ok (h, ("The " +:+ name s +:+ " can't be closed.", false))
  else if negb (py_eq_bool (getProperty s "isOpen") true) then
    Ok (h, ("The " +:+ name s +:+ " is already closed.", false))
  else
    Ok (<[self := set_prop "isOpen" (PyBool false) s]> h,
        ("The " +:+ name s +:+ " is now closed.", true)).

(** [Container.placeObjectInContainer]; the not-moveable path returns a
    triple. *)
Definition placeObjectInContainer (h : Heap) (self obj : nat)
  : result (Heap * pytuple) :=
  s ← asContainer h self;
  o ← getObj h obj;
  if negb (py_eq_bool (getProperty s "isContainer") true) then
    Ok (h, Tuple2 ("The " +:+ name s +:+
                   " is not a container, so things can't be placed there.")
                  false)
  else if negb (py_eq_bool (getProperty o "isMoveable") true) then
    Ok (h, Tuple3 ("The " +:+ name o +:+ " is not moveable.") None false)
  else if negb (py_eq_bool (getProperty s "isOpen") true) then
    Ok (h, Tuple2 ("The " +:+ name s +:+
                   " is closed, so things can't be placed there.") false)
  else
    h' ← addObject h self obj;
    o' ← getObj h' obj;
    r ← referent0 o';
    s' ← getObj h' self;
    Ok (h', Tuple2 ("The " +:+ r +:+ " is placed in the " +:+ name s' +:+ ".")
                   true).

(** [Container.takeObjectFromContainer] *)
Definition takeObjectFromContainer (h : Heap) (self obj : nat)
  : result (Heap * (string * option nat * bool)) :=
  s ← asContainer h self;
  o ← getObj h obj;
  if negb (py_eq_bool (getProperty s "isContainer") true) then
    Ok (h, ("The " +:+ name s +:+
            " is not a container, so things can't be removed from it.",
            None, false))
  else if negb (py_eq_bool (getProperty o "isMoveable") true) then
    Ok (h, ("The " +:+ name o +:+ " is not moveable.", None, false))
  else if negb (py_eq_bool (getProperty s "isOpen") true) then
    Ok (h, ("The " +:+ name s +:+
            " is closed, so things can't be removed from it.", None, false))
  else if negb (bool_decide (obj ∈ contains s)) then
    Ok (h, ("The " +:+ name o +:+ " is not contained in the " +:+ name s
            +:+ ".", None, false))
  else
    h' ← removeSelfFromContainer h obj;
    o' ← getObj h' obj;
    r ← referent0 o';
    s' ← getObj h' self;
    Ok (h', ("The " +:+ r +:+ " is removed from the " +:+ name s' +:+ ".",
             Some obj, true)).

(** [Container.tick]: everything below the container moves towards the
    container's temperature, by at most 5.0 a tick. *)
Definition Container_tick (fuel : nat) (h : Heap) (self : nat) : result Heap :=
  objectsInContainer ← getAllContainedObjectsRecursive fuel h self;
  let maxTempChangePerTick := PyFloat 5.0%float in
  forM_ objectsInContainer
    (fun h obj =>
       o ← getObj h obj;
       s ← getObj h self;
       ot ← prop o "temperature";
       st ← prop s "temperature";
       hotter ← py_lt st ot;
       if (hotter : bool) then
         newTemperature ← py_sub ot maxTempChangePerTick;
         below ← py_lt newTemperature st;
         let newTemperature := if (below : bool) then st else newTemperature in
         Ok (<[obj := set_prop "temperature" newTemperature o]> h)
       else
         colder ← py_lt ot st;
         if (colder : bool) then
           newTemperature ← py_add ot maxTempChangePerTick;
           above ← py_lt st newTemperature;
           let newTemperature := if (above : bool) then st else newTemperature in
           Ok (<[obj := set_prop "temperature" newTemperature o]> h)
         else Ok h) h.

(** ** Device *)

(** [Device.turnOn] *)
Definition Device_turnOn (h : Heap) (self : nat)
  : result (Heap * (string * bool)) :=
  s ← asDevice h self;
  if py_eq_bool (getProperty s "isActivatable") false then
    r ← referent0 s;
    Ok (h, ("It's not clear how the " +:+ r +:+ " could be turned on.", false))
  else
    isOn ← prop s "isOn";
    if py_truthy isOn then
      r ← referent0 s;
      Ok (h, ("The " +:+ r +:+ " is already on.", false))
    else
      let s' := set_prop "isOn" (PyBool true) s in
      r ← referent0 s';
      Ok (<[self := s']> h, ("The " +:+ r +:+ " is now turned on.", true)).

(** [Device.turnOff] *)
Definition Device_turnOff (h : Heap) (self : nat)
  : result (Heap * (string * bool)) :=
  s ← asDevice h self;
  if py_eq_bool (getProperty s "isActivatable") false then
    r ← referent0 s;
    Ok (h, ("It's not clear how the " +:+ r +:+ " could be turned off.", false))
  else
    isOn ← prop s "isOn";
    if negb (py_truthy isOn) then
      r ← referent0 s;
      Ok (h, ("The " +:+ r +:+ " is already off.", false))
    else
      let s' := set_prop "isOn" (PyBool false) s in
      r ← referent0 s';
      Ok (<[self := s']> h, ("The " +:+ r +:+ " is now turned off.", true)).

(** [Device.useWithObject] *)
Definition useWithObject (h : Heap) (self patientObject : nat)
  : result (string * bool) :=
  s ← asDevice h self;
  p ← getObj h patientObject;
  r ← referent0 s;
  Ok ("You're not sure how to use the " +:+ r +:+ " with the " +:+ name p
      +:+ ".", false).

(** ** The fridge and the food *)

(** [Fridge.tick]: a fridge that is on and closed cools everything below
    it by [tempDecreasePerTick], down to [minTemperature]. *)
Definition Fridge_tick (fuel : nat) (h : Heap) (self : nat) : result Heap :=
  s ← getObj h self;
  isOn ← prop s "isOn";
  if py_eq_bool isOn true then
    isOpen ← prop s "isOpen";
    if py_eq_bool isOpen false then
      objectsOnStove ← getAllContainedObjectsRecursive fuel h self;
      forM_ objectsOnStove
        (fun h obj =>
           o ← getObj h obj;
           s ← getObj h self;
           ot ← prop o "temperature";
           dec ← prop s "tempDecreasePerTick";
           newTemperature ← py_sub ot dec;
           minT ← prop s "minTemperature";
           below ← py_lt newTemperature minT;
           let newTemperature := if (below : bool) then minT else newTemperature in
           Ok (<[obj := set_prop "temperature" newTemperature o]> h)) h
    else Ok h
  else Ok h.

(** [FoodItem.tick] *)
Definition FoodItem_tick (h : Heap) (self : nat) : result Heap :=
  s ← getObj h self;
  t ← prop s "temperature";
  maxT ← prop s "maxTemperature";
  above ← py_lt maxT t;
  let s := set_prop "isAboveMaxTemp" (PyBool above) s in
  isAbove ← prop s "isAboveMaxTemp";
  s ← (if py_eq_bool isAbove true then
         n ← prop s "timeAboveMaxTemp";
         n' ← py_add n (PyInt 1);
         Ok (set_prop "timeAboveMaxTemp" n' s)
       else Ok s);
  n ← prop s "timeAboveMaxTemp";
  spoilTime ← prop s "spoilTime";
  tooLong ← py_lt spoilTime n;
  let s := if (tooLong : bool) then set_prop "isSpoiled" (PyBool true) s else s in
  Ok (<[self := s]> h).

(** [obj.tick()], resolved on the class of [obj]: [Fridge] and [FoodItem]
    have their own, the other classes inherit [Container.tick]. *)
Definition tick (fuel : nat) (h : Heap) (self : nat) : result Heap :=
  s ← getObj h self;
  match cls s with
  | Fridge => Fridge_tick fuel h self
  | FoodItem => FoodItem_tick h self
  | World | Agent | Counter => Container_tick fuel h self
  end.

(** ** Descriptions *)

(** [obj.makeDescriptionStr(makeDetailed)], resolved on the class of
    [obj]. *)
Fixpoint makeDescriptionStr (fuel : nat) (h : Heap) (self : nat)
    (makeDetailed : bool) : result string :=
  match fuel with
  | O => Raise RecursionError
  | S fuel' =>
      s ← getObj h self;
      (* the end of the descriptions of [Fridge] and [Counter]: "that
         looks to have a, and b in it", or "that is empty" *)
      let with_contents (outStr : string) : result string :=
        effectiveContents ←
          forM_ (contains s)
            (fun acc obj =>
               d ← makeDescriptionStr fuel' h obj false;
               Ok (acc ++ [d])) [];
        if bool_decide (0 < length effectiveContents)%nat then
          let outStr :=
            join_contents (length effectiveContents) 0 effectiveContents
              (outStr +:+ " that looks to have ") in
          prefix ← prop s "containerPrefix";
          p ← py_str prefix;
          Ok (drop_last2 outStr +:+ " " +:+ p +:+ " it")
        else Ok (outStr +:+ " that is empty") in
      match cls s with
      | World =>
          forM_ (contains s)
            (fun outStr obj =>
               d ← makeDescriptionStr fuel' h obj false;
               Ok (outStr +:+ TAB +:+ d +:+ NL))
            ("You find yourself in a kitchen.  In the kitchen, you see: "
             +:+ NL)
      | Agent => Ok "yourself"
      | FoodItem =>
          prefix ← prop s "foodPrefix";
          p ← py_str prefix;
          let outStr := p +:+ " " in
          spoiled ← prop s "isSpoiled";
          let outStr := if py_truthy spoiled then outStr +:+ "spoiled "
                        else outStr in
          Ok (outStr +:+ name s)
      | Counter => with_contents ("a " +:+ name s)
      | Fridge =>
          let outStr := "a " +:+ name s in
          isOn ← prop s "isOn";
          let outStr := if negb (py_truthy isOn)
                        then outStr +:+ " that is currently off, and"
                        else outStr in
          isOpen ← prop s "isOpen";
          if py_truthy isOpen
          then with_contents (outStr +:+ " that is currently open")
          else Ok (outStr +:+ " that is currently closed")
      end
  end.

(** ** Constructors *)

Definition blank (c : pyclass) : GameObject := mkGameObject c [] 0 "" None [] ∅.

(** [GameObject.__init__] *)
Definition GameObject_init (self : GameObject) (nm : string) (U : nat)
  : GameObject * nat :=
  match constructorsRun self with
  | _ :: _ => (self, U)
  | [] =>
      (mkGameObject (cls self) ["GameObject"] U
         (nm +:+ " (ID: " +:+ pretty U +:+ ")") None []
         (<["temperature" := PyFloat 20.0%float]>
            (<["isMoveable" := PyBool true]>
               (<["isContainer" := PyBool false]> ∅))),
       S U)
  end.

Definition mark_run (c : string) (o : GameObject) : GameObject :=
  mkGameObject (cls o) (constructorsRun o ++ [c]) (uuid o) (name o)
    (parentContainer o) (contains o) (properties o).

(** [Container.__init__] *)
Definition Container_init (self : GameObject) (nm : string) (U : nat)
  : GameObject * nat :=
  if bool_decide ("Container" ∈ constructorsRun self) then (self, U)
  else
    let '(o, U') := GameObject_init self nm U in
    (set_prop "containerPrefix" (PyStr "in")
       (set_prop "isOpen" (PyBool true)
          (set_prop "isOpenable" (PyBool false)
             (set_prop "isContainer" (PyBool true)
                (mark_run "Container" o)))), U').

(** [Device.__init__] *)
Definition Device_init (self : GameObject) (nm : string) (U : nat)
  : GameObject * nat :=
  if bool_decide ("Device" ∈ constructorsRun self) then (self, U)
  else
    let '(o, U') := GameObject_init self nm U in
    (set_prop "isOn" (PyBool false)
       (set_prop "isActivatable" (PyBool true)
          (set_prop "isDevice" (PyBool true)
             (mark_run "Device" o))), U').

(** [Fridge.__init__] *)
Definition Fridge_init (U : nat) : GameObject * nat :=
  let '(o, U) := GameObject_init (blank Fridge) "fridge" U in
  let '(o, U) := Container_init o "fridge" U in
  let '(o, U) := Device_init o "fridge" U in
  (set_prop "tempDecreasePerTick" (PyFloat 5.0%float)
     (set_prop "minTemperature" (PyFloat 4.0%float)
        (set_prop "isActivatable" (PyBool false)
           (set_prop "isOn" (PyBool true)
              (set_prop "isMoveable" (PyBool false)
                 (set_prop "isOpen" (PyBool false)
                    (set_prop "isOpenable" (PyBool true)
                       (set_prop "containerPrefix" (PyStr "in") o))))))), U).

(** [FoodItem.__init__] *)
Definition FoodItem_init (foodPrefix foodName : string) (spoilTime : Z)
    (U : nat) : GameObject * nat :=
  let '(o, U) := GameObject_init (blank FoodItem) foodName U in
  (set_prop "isAboveMaxTemp" (PyBool true)
     (set_prop "isSpoiled" (PyBool false)
        (set_prop "timeAboveMaxTemp" (PyInt 0)
           (set_prop "maxTemperature" (PyFloat 4.0%float)
              (set_prop "spoilTime" (PyInt spoilTime)
                 (set_prop "isFood" (PyBool true)
                    (set_prop "foodPrefix" (PyStr foodPrefix) o)))))), U).

(** [Counter.__init__] *)
Definition Counter_init (U : nat) : GameObject * nat :=
  let '(o, U) := GameObject_init (blank Counter) "counter" U in
  let '(o, U) := Container_init o "counter" U in
  (set_prop "isMoveable" (PyBool false)
     (set_prop "isOpenable" (PyBool false)
        (set_prop "containerPrefix" (PyStr "on") o)), U).

(** [World.__init__] *)
Definition World_init (U : nat) : GameObject * nat :=
  Container_init (blank World) "kitchen" U.

(** [Agent.__init__] *)
Definition Agent_init (U : nat) : GameObject * nat :=
  let '(o, U) := GameObject_init (blank Agent) "agent" U in
  Container_init o "agent" U.

Definition alloc (h : Heap) (o : GameObject) : Heap := <[uuid o := o]> h.

(** ** The game *)

Record TextGame := mkTextGame {
  heap : Heap;
  UUID : nat;                       (* the module-level counter *)
  agent : nat;
  rootObject : nat;
  score : Z;
  numSteps : nat;
  gameOver : bool;
  gameWon : bool;
  observationStr : string;
  numFoodsToPutInFridge : Z;
  (* [None] until [generatePossibleActions] has set the attribute *)
  possibleActions : option (list (string * list action))
}.

Definition set_heap (h : Heap) (g : TextGame) : TextGame :=
  mkTextGame h (UUID g) (agent g) (rootObject g) (score g) (numSteps g)
    (gameOver g) (gameWon g) (observationStr g) (numFoodsToPutInFridge g)
    (possibleActions g).
Definition set_score (z : Z) (g : TextGame) : TextGame :=
  mkTextGame (heap g) (UUID g) (agent g) (rootObject g) z (numSteps g)
    (gameOver g) (gameWon g) (observationStr g) (numFoodsToPutInFridge g)
    (possibleActions g).
Definition set_numSteps (n : nat) (g : TextGame) : TextGame :=
  mkTextGame (heap g) (UUID g) (agent g) (rootObject g) (score g) n
    (gameOver g) (gameWon g) (observationStr g) (numFoodsToPutInFridge g)
    (possibleActions g).
Definition set_over (over won : bool) (g : TextGame) : TextGame :=
  mkTextGame (heap g) (UUID g) (agent g) (rootObject g) (score g) (numSteps g)
    over won (observationStr g) (numFoodsToPutInFridge g)
    (possibleActions g).
Definition set_observationStr (s : string) (g : TextGame) : TextGame :=
  mkTextGame (heap g) (UUID g) (agent g) (rootObject g) (score g) (numSteps g)
    (gameOver g) (gameWon g) s (numFoodsToPutInFridge g)
    (possibleActions g).
Definition set_possibleActions (d : list (string * list action))
    (g : TextGame) : TextGame :=
  mkTextGame (heap g) (UUID g) (agent g) (rootObject g) (score g) (numSteps g)
    (gameOver g) (gameWon g) (observationStr g) (numFoodsToPutInFridge g)
    (Some d).

(** [TextGame.makeNameToObjectDict] *)
Definition makeNameToObjectDict (g : TextGame)
  : result (list (string * list nat)) :=
  allObjects ← getAllContainedObjectsRecursive recursionLimit (heap g)
                 (rootObject g);
  forM_ allObjects
    (fun nameToObjectDict obj =>
       o ← getObj (heap g) obj;
       names ← getReferents o;
       Ok (foldl (fun d nm => dict_append nm obj d) nameToObjectDict names))
    [].

(** [TextGame.generatePossibleActions]: the catalog it stores in
    [self.possibleActions] (and returns). *)
Definition generatePossibleActions (g : TextGame) : result TextGame :=
  let h := heap g in
  allObjects ← makeNameToObjectDict g;
  let pa := [] in
  let pa := addAction "look around" (mkAction "look around" []) pa in
  let pa := addAction "look" (mkAction "look around" []) pa in
  let pa := addAction "inventory" (mkAction "inventory" []) pa in
  pa ← for_each_referent allObjects
         (fun pa objReferent obj =>
            Ok (addAction ("eat " +:+ objReferent)
                  (mkAction "eat" [obj]) pa)) pa;
  pa ← for_each_referent allObjects
         (fun pa objReferent obj =>
            let pa := addAction ("take " +:+ objReferent)
                        (mkAction "take" [obj]) pa in
            o ← getObj h obj;
            p ← of_option AttributeError (parentContainer o);
            po ← getObj h p;
            pr ← referent0 po;
            Ok (addAction ("take " +:+ objReferent +:+ " from " +:+ pr)
                  (mkAction "take" [obj]) pa)) pa;
  pa ← for_each_referent allObjects
         (fun pa objReferent obj =>
            let pa := addAction ("open " +:+ objReferent)
                        (mkAction "open" [obj]) pa in
            Ok (addAction ("close " +:+ objReferent)
                  (mkAction "close" [obj]) pa)) pa;
  pa ← for_each_referent allObjects
         (fun pa objReferent obj =>
            Ok (addAction ("examine " +:+ objReferent)
                  (mkAction "examine" [obj]) pa)) pa;
  pa ← for_each_referent allObjects
         (fun pa objReferent obj =>
            let pa := addAction ("turn on " +:+ objReferent)
                        (mkAction "turn on" [obj]) pa in
            Ok (addAction ("turn off " +:+ objReferent)
                  (mkAction "turn off" [obj]) pa)) pa;
  pa ← for_each_referent_pair allObjects
         (fun pa objReferent1 obj1 objReferent2 obj2 =>
            if bool_decide (obj1 ≠ obj2) then
              o2 ← getObj h obj2;
              isC ← prop o2 "isContainer";
              containerPrefix ←
                (if py_truthy isC
                 then v ← prop o2 "containerPrefix"; py_str v
                 else Ok "in");
              Ok (addAction ("put " +:+ objReferent1 +:+ " " +:+
                             containerPrefix +:+ " " +:+ objReferent2)
                    (mkAction "put" [obj1; obj2]) pa)
            else Ok pa) pa;
  pa ← for_each_referent_pair allObjects
         (fun pa objReferent1 obj1 objReferent2 obj2 =>
            if bool_decide (obj1 ≠ obj2) then
              Ok (addAction ("use " +:+ objReferent1 +:+ " on " +:+
                             objReferent2)
                    (mkAction "use" [obj1; obj2]) pa)
            else Ok pa) pa;
  Ok (set_possibleActions pa g).

(** ** Action handlers *)

(** [TextGame.actionEat] *)
Definition actionEat (g : TextGame) (obj : nat) : result (Heap * string) :=
  let h := heap g in
  o ← getObj h obj;
  if negb (bool_decide (parentContainer o = Some (agent g))) then
    r ← referent0 o;
    Ok (h, "You don't currently have the " +:+ r +:+ " in your inventory.")
  else if py_eq_bool (getProperty o "isFood") true then
    p ← of_option AttributeError (parentContainer o);
    '(h, (_, _, success)) ← takeObjectFromContainer h p obj;
    if bool_decide (success = false) then Ok (h, "You can't see that.")
    else
      o ← getObj h obj;
      Ok (h, "You eat the " +:+ name o +:+ ".")
  else Ok (h, "You can't eat that.").

(** [TextGame.actionOpen] *)
Definition actionOpen (g : TextGame) (obj : nat) : result (Heap * string) :=
  o ← getObj (heap g) obj;
  if py_eq_bool (getProperty o "isContainer") true then
    '(h, (obsStr, _)) ← openContainer (heap g) obj;
    Ok (h, obsStr)
  else Ok (heap g, "You can't open that.").

(** [TextGame.actionClose] *)
Definition actionClose (g : TextGame) (obj : nat) : result (Heap * string) :=
  o ← getObj (heap g) obj;
  if py_eq_bool (getProperty o "isContainer") true then
    '(h, (obsStr, _)) ← closeContainer (heap g) obj;
    Ok (h, obsStr)
  else Ok (heap g, "You can't close that.").

(** [TextGame.actionTake] *)
Definition actionTake (g : TextGame) (obj : nat) : result (Heap * string) :=
  let h := heap g in
  o ← getObj h obj;
  match parentContainer o with
  | None =>
      Ok (h, "Something has gone wrong -- that object is dangling in the void.  You can't take that.")
  | Some p =>
      if bool_decide (cls o = Agent) then Ok (h, "You cannot take yourself.")
      else
        '(h, (obsStr, _, success)) ← takeObjectFromContainer h p obj;
        if bool_decide (success = false) then Ok (h, obsStr)
        else
          h ← addObject h (agent g) obj;
          o ← getObj h obj;
          r ← referent0 o;
          Ok (h, obsStr +:+ " You put the " +:+ r +:+ " in your inventory.")
  end.

(** [TextGame.actionPut] *)
Definition actionPut (g : TextGame) (objToMove newContainer : nat)
  : result (Heap * string) :=
  let h := heap g in
  c ← getObj h newContainer;
  if py_eq_bool (getProperty c "isContainer") false then
    r ← referent0 c;
    Ok (h, "You can't put things in the " +:+ r +:+ ".")
  else
    o ← getObj h objToMove;
    if negb (bool_decide (parentContainer o = Some (agent g))) then
      r ← referent0 o;
      Ok (h, "You don't currently have the " +:+ r +:+ " in your inventory.")
    else
      originalContainer ← of_option AttributeError (parentContainer o);
      '(h, (obsStr1, _, success)) ←
        takeObjectFromContainer h originalContainer objToMove;
      if bool_decide (success = false) then Ok (h, obsStr1)
      else
        '(h, t) ← placeObjectInContainer h newContainer objToMove;
        '(obsStr2, success) ← unpack2 t;
        if bool_decide (success = false) then
          h ← addObject h originalContainer objToMove;
          Ok (h, obsStr2)
        else Ok (h, obsStr1 +:+ NL +:+ obsStr2).

(** [TextGame.actionInventory] *)
Definition actionInventory (g : TextGame) : result string :=
  a ← getObj (heap g) (agent g);
  let inventory := contains a in
  if bool_decide (length inventory = 0%nat) then Ok "Your inventory is empty."
  else
    forM_ inventory
      (fun obsStr obj =>
         d ← makeDescriptionStr recursionLimit (heap g) obj false;
         Ok (obsStr +:+ TAB +:+ d +:+ NL))
      ("You have the following items in your inventory:" +:+ NL).

(** [TextGame.actionTurnOn] *)
Definition actionTurnOn (g : TextGame) (obj : nat) : result (Heap * string) :=
  o ← getObj (heap g) obj;
  if py_eq_bool (getProperty o "isDevice") true then
    '(h, (obsStr, _)) ← Device_turnOn (heap g) obj;
    Ok (h, obsStr)
  else Ok (heap g, "You can't turn on that.").

(** [TextGame.actionTurnOff] *)
Definition actionTurnOff (g : TextGame) (obj : nat) : result (Heap * string) :=
  o ← getObj (heap g) obj;
  if py_eq_bool (getProperty o "isDevice") true then
    '(h, (obsStr, _)) ← Device_turnOff (heap g) obj;
    Ok (h, obsStr)
  else Ok (heap g, "You can't turn off that.").

(** [TextGame.actionUse] *)
Definition actionUse (g : TextGame) (deviceObj patientObject : nat)
  : result string :=
  o ← getObj (heap g) deviceObj;
  if py_eq_bool (getProperty o "isDevice") true then
    '(obsStr, _) ← useWithObject (heap g) deviceObj patientObject;
    Ok obsStr
  else Ok "You can't use that.".

(** ** The turn *)

(** The [if]/[elif] chain of [step_action] on the verb of the chosen
    action. *)
Definition interpret (g : TextGame) (a : action) : result TextGame :=
  let verb := actionVerb a in
  if bool_decide (verb = "look around") then
    d ← makeDescriptionStr recursionLimit (heap g) (rootObject g) false;
    Ok (set_observationStr d g)
  else if bool_decide (verb = "inventory") then
    d ← actionInventory g;
    Ok (set_observationStr d g)
  else if bool_decide (verb = "examine") then
    thingToExamine ← action_arg a 1;
    d ← makeDescriptionStr recursionLimit (heap g) thingToExamine true;
    Ok (set_observationStr d g)
  else if bool_decide (verb = "eat") then
    thingToEat ← action_arg a 1;
    '(h, obs) ← actionEat g thingToEat;
    Ok (set_observationStr obs (set_heap h g))
  else if bool_decide (verb = "open") then
    thingToOpen ← action_arg a 1;
    '(h, obs) ← actionOpen g thingToOpen;
    Ok (set_observationStr obs (set_heap h g))
  else if bool_decide (verb = "close") then
    thingToClose ← action_arg a 1;
    '(h, obs) ← actionClose g thingToClose;
    Ok (set_observationStr obs (set_heap h g))
  else if bool_decide (verb = "take") then
    thingToTake ← action_arg a 1;
    '(h, obs) ← actionTake g thingToTake;
    Ok (set_observationStr obs (set_heap h g))
  else if bool_decide (verb = "turn on") then
    thingToTurnOn ← action_arg a 1;
    '(h, obs) ← actionTurnOn g thingToTurnOn;
    Ok (set_observationStr obs (set_heap h g))
  else if bool_decide (verb = "turn off") then
    thingToTurnOff ← action_arg a 1;
    '(h, obs) ← actionTurnOff g thingToTurnOff;
    Ok (set_observationStr obs (set_heap h g))
  else if bool_decide (verb = "put") then
    thingToMove ← action_arg a 1;
    newContainer ← action_arg a 2;
    '(h, obs) ← actionPut g thingToMove newContainer;
    Ok (set_observationStr obs (set_heap h g))
  else if bool_decide (verb = "use") then
    deviceObj ← action_arg a 1;
    patientObj ← action_arg a 2;
    obs ← actionUse g deviceObj patientObj;
    Ok (set_observationStr obs g)
  else Ok (set_observationStr "ERROR: Unknown action." g).

(** [TextGame.step_action]: the game after the call and the value the call
    returns, a five-tuple on the not-understood path and [None] on the
    other.  Before [generatePossibleActions] has run there is no attribute
    [possibleActions]. *)
Definition step_action (g : TextGame) (actionStr : string)
  : result (TextGame * option step_result) :=
  let g := set_observationStr "" g in
  let reward := 0 in
  catalog ← of_option AttributeError (possibleActions g);
  match dict_get actionStr catalog with
  | None =>
      let g := set_observationStr "I don't understand that." g in
      Ok (g, Some (observationStr g, score g, reward, gameOver g, gameWon g))
  | Some actions =>
      let g := set_numSteps (S (numSteps g)) g in
      a ← (if bool_decide (1 < length actions)%nat
           then of_option IndexError (actions !! 0%nat)
           else of_option IndexError (actions !! 0%nat));
      g ← interpret g a;
      Ok (g, None)
  end.

(** [TextGame.doWorldTick] *)
Definition doWorldTick (g : TextGame) : result TextGame :=
  allObjects ← getAllContainedObjectsRecursive recursionLimit (heap g)
                 (rootObject g);
  h ← forM_ allObjects (fun h obj => tick recursionLimit h obj) (heap g);
  Ok (set_heap h g).

(** [TextGame.step_tick] *)
Definition step_tick (g : TextGame) : result TextGame := doWorldTick g.

(** [TextGame.calculateScore] *)
Definition calculateScore (g : TextGame) : result TextGame :=
  let g := set_score 0 g in
  allObjects ← getAllContainedObjectsRecursive recursionLimit (heap g)
                 (rootObject g);
  '(sc, numFoodsFound, numFoodsChanged) ←
    forM_ allObjects
      (fun '(sc, numFoodsFound, numFoodsChanged) obj =>
         o ← getObj (heap g) obj;
         if bool_decide (cls o = FoodItem) then
           if py_eq_bool (getProperty o "isSpoiled") true then
             Ok (sc - 1, numFoodsFound + 1, numFoodsChanged + 1)
           else if py_eq_bool (getProperty o "isAboveMaxTemp") false then
             Ok (sc + 1, numFoodsFound + 1, numFoodsChanged + 1)
           else Ok (sc, numFoodsFound + 1, numFoodsChanged)
         else Ok (sc, numFoodsFound, numFoodsChanged))
      (score g, 0, 0);
  let numFoodsMissing := numFoodsToPutInFridge g - numFoodsFound in
  let g := set_score (sc - numFoodsMissing) g in
  if bool_decide (score g = numFoodsToPutInFridge g) then
    Ok (set_over true true g)
  else if bool_decide (numFoodsToPutInFridge g
                       ≤ numFoodsChanged + numFoodsMissing) then
    Ok (set_over true false g)
  else Ok (set_over false false g).

(** [TextGame.step_calculate_score] *)
Definition step_calculate_score (g : TextGame) : result (TextGame * Z) :=
  let lastScore := score g in
  g ← calculateScore g;
  let reward := score g - lastScore in
  Ok (g, reward).

(** [TextGame.step] *)
Definition step (g : TextGame) (actionStr : string)
  : result (TextGame * step_result) :=
  '(g, _) ← step_action g actionStr;
  g ← step_tick g;
  '(g, reward) ← step_calculate_score g;
  Ok (g, (observationStr g, score g, reward, gameOver g, gameWon g)).

(** ** A new session *)

(** What the seeded generator hands to [initializeWorld]: the order
    [shuffle] leaves the six foods in, as positions in the list before the
    shuffle, and the [randint] draw. *)
Record draws := mkDraws {
  shuffled : list nat;
  numFoods : nat
}.

(** the six [FoodItem(...)] calls, in order *)
Definition possibleFoods : list (string * string) :=
  [("some", "apple sauce"); ("some", "yogurt");
   ("a bottle of", "orange juice"); ("a bottle of", "pineapple juice");
   ("a bottle of", "soy milk"); ("a jar of", "jam")].

(** [TextGame.initializeWorld] *)
Definition initializeWorld (d : draws) (h : Heap) (U : nat) (agent : nat)
  : result (Heap * nat * nat) :=
  let '(world, U) := World_init U in
  let w := uuid world in
  h ← addObject (alloc h world) w agent;
  let '(fridge, U) := Fridge_init U in
  h ← addObject (alloc h fridge) w (uuid fridge);
  let '(counter, U) := Counter_init U in
  let c := uuid counter in
  h ← addObject (alloc h counter) w c;
  '(h, U, foods) ←
    forM_ possibleFoods
      (fun '(h, U, foods) '(foodPrefix, foodName) =>
         let '(food, U) := FoodItem_init foodPrefix foodName 20 U in
         Ok (alloc h food, U, foods ++ [uuid food])) (h, U, []);
  let foods := omap (fun i => foods !! i) (shuffled d) in
  h ← forM_ (seq 0 (numFoods d))
        (fun h i =>
           food ← (if bool_decide (length foods = 0%nat)
                   then Raise ZeroDivisionError
                   else of_option IndexError
                          (foods !! (i mod length foods)%nat));
           addObject h c food) h;
  Ok (h, U, w).

(** [TextGame.__init__]; the catalog is not built here. *)
Definition TextGame_init (d : draws) : result TextGame :=
  let U := 0%nat in
  let '(a, U) := Agent_init U in
  '(h, U, root) ← initializeWorld d (alloc ∅ a) U (uuid a);
  let g := mkTextGame h U (uuid a) root 0 0 false false ""
             (Z.of_nat (numFoods d)) None in
  obs ← makeDescriptionStr recursionLimit h root false;
  let g := set_observationStr obs g in
  calculateScore g.

(** One pass of the loop of [main]: a step, then the catalog is rebuilt. *)
Definition turn (g : TextGame) (actionStr : string)
  : result (TextGame * step_result) :=
  '(g, r) ← step g actionStr;
  g ← generatePossibleActions g;
  Ok (g, r).


(** Several passes of the loop of [main], the results dropped. *)
Definition play (g : TextGame) (actionStrs : list string) : result TextGame :=
  forM_ actionStrs (fun g a => '(g, _) ← turn g a; Ok g) g.

(** ** A session *)



(** the game a result holds, an empty game otherwise *)
Definition game_of (r : result TextGame) : TextGame :=
  match r with
  | Ok g => g
  | Raise _ => mkTextGame ∅ 0 0 0 0 0 false false "" 0 None
  end.

Definition is_Ok {A} (r : result A) : bool :=
  match r with Ok _ => true | Raise _ => false end.


(** the game after one more step, and the five-tuple of that step *)
Definition after_step (g : TextGame) (actionStr : string) : TextGame :=
  game_of (r ← step g actionStr; Ok r.1).
Definition step_out (g : TextGame) (actionStr : string) : step_result :=
  match step g actionStr with
  | Ok (_, r) => r
  | Raise _ => ("", 0, 0, false, false)
  end.


End RefrigerateFood.

(** * Proofs *)

(** ** The error monad *)

Lemma bind_Ok {A B} (m : result A) (f : A → result B) (b : B) :
  m ≫= f = Ok b ↔ ∃ a, m = Ok a ∧ f a = Ok b.
Proof.
  destruct m as [a|e]; simpl.
  - split; [intros H; by exists a | intros (a' & [= <-] & H); done].
  - split; [done | intros (a' & [=] & _)].
Qed.

Lemma of_option_Ok {A} (e : pyexn) (o : option A) (a : A) :
  of_option e o = Ok a ↔ o = Some a.
Proof. destruct o; simpl; split; congruence. Qed.

(** Takes apart a hypothesis [H : ... = Ok _] one layer at a time, with
    [bind_Ok] rather than by computing, so that no recursive method is
    unfolded. *)
Ltac ok_inv H :=
  repeat
    (match type of H with
     | Ok _ = Ok _ => injection H as H
     | Raise _ = Ok _ => discriminate H
     | mbind _ _ = Ok _ =>
         let x := fresh "x" in
         let E := fresh "E" in
         apply bind_Ok in H as (x & E & H); cbv beta in H
     | (let '(_, _) := ?p in _) = Ok _ => destruct p; cbv beta iota in H
     | of_option _ _ = Ok _ => apply of_option_Ok in H
     end).

(** Closes [a = b] by evaluating both sides in the virtual machine, without
    writing their normal forms into the proof. *)
Ltac vm_refl :=
  lazymatch goal with
  | |- ?a = ?b => vm_cast_no_check (@eq_refl _ b)
  end.

Lemma getObj_Ok (h : Heap) (k : nat) (o : GameObject) :
  getObj h k = Ok o ↔ h !! k = Some o.
Proof. apply of_option_Ok. Qed.

(** ** Removing from a list *)

Lemma filter_ne_id (x : nat) (l : list nat) :
  x ∉ l → filter (λ y, y ≠ x) l = l.
Proof.
  induction l as [|y l IH]; [done|].
  intros Hx. apply not_elem_of_cons in Hx as [Hxy Hxl].
  rewrite filter_cons_True; [|done]. by rewrite IH.
Qed.

Lemma list_remove_NoDup (x : nat) (l : list nat) :
  x ∈ l → NoDup l → list_remove x l = Some (filter (λ y, y ≠ x) l).
Proof.
  induction l as [|y l IH]; [by intros ?%elem_of_nil|].
  intros Hx Hnd. apply NoDup_cons in Hnd as [Hy Hnd]. simpl.
  destruct (decide (y = x)) as [->|Hne].
  - rewrite filter_cons_False; [|naive_solver]. by rewrite filter_ne_id.
  - apply elem_of_cons in Hx as [->|Hx]; [done|].
    rewrite IH; [|done..]. simpl. by rewrite filter_cons_True.
Qed.

Lemma list_remove_None (x : nat) (l : list nat) :
  list_remove x l = None ↔ x ∉ l.
Proof.
  induction l as [|y l IH]; simpl.
  - split; [intros _; apply not_elem_of_nil | done].
  - destruct (decide (y = x)) as [->|Hne].
    + split; [done | intros H; exfalso; apply H; left].
    + rewrite not_elem_of_cons, <- IH.
      destruct (list_remove x l); simpl; split; try done;
        intros [_ H]; done.
Qed.

(** ** Detach and append on the object graph *)

Lemma set_parent_contains_id (o : GameObject) :
  set_parent (parentContainer o) (set_contains (contains o) o) = o.
Proof. by destruct o. Qed.

Lemma lookup_reparent_all c old new (h : Heap) k :
  reparent_all c old new h !! k = reparent c old new k <$> h !! k.
Proof.
  unfold reparent_all. rewrite map_lookup_imap.
  destruct (h !! k); reflexivity.
Qed.

Lemma reparent_None_id c (h : Heap) oc :
  h !! c = Some oc → parentContainer oc = None →
  reparent_all c None None h = h.
Proof.
  intros Hc Hp. apply map_eq. intros k. rewrite lookup_reparent_all.
  destruct (h !! k) as [o|] eqn:Hk; [|done]. simpl. f_equal.
  unfold reparent. repeat case_decide; simplify_eq; rewrite app_nil_r.
  - rewrite <- Hp. apply set_parent_contains_id.
  - apply set_parent_contains_id.
Qed.

Lemma removeSelfFromContainer_spec (h : Heap) c oc :
  tree_inv h → h !! c = Some oc →
  removeSelfFromContainer h c
  = Ok (reparent_all c (parentContainer oc) None h).
Proof.
  intros Hinv Hc. unfold removeSelfFromContainer, getObj.
  rewrite Hc. simpl. destruct (parentContainer oc) as [p|] eqn:Hp.
  - destruct (inv_parent h Hinv c oc p Hc Hp) as (op & Hpo & Hin).
    unfold removeObject, getObj. rewrite Hpo. simpl.
    rewrite (list_remove_NoDup c (contains op) Hin (inv_nodup h Hinv p op Hpo)).
    simpl.
    assert (<[p:=set_contains (filter (λ y, y ≠ c) (contains op)) op]> h !! c
            = Some (if decide (c = p)
                    then set_contains (filter (λ y, y ≠ c) (contains op)) op
                    else oc)) as ->.
    { case_decide; simplify_eq; by simplify_map_eq. }
    simpl. f_equal. apply map_eq. intros k. rewrite lookup_reparent_all.
    destruct (decide (k = c)) as [->|Hkc].
    + rewrite lookup_insert_eq, Hc. simpl. f_equal. unfold reparent.
      repeat case_decide; simplify_eq; by rewrite ?app_nil_r.
    + rewrite lookup_insert_ne by done.
      destruct (decide (k = p)) as [->|Hkp].
      * rewrite lookup_insert_eq, Hpo. simpl. f_equal. unfold reparent.
        repeat case_decide; simplify_eq. rewrite app_nil_r. by destruct op.
      * rewrite lookup_insert_ne by done.
        destruct (h !! k) as [o|]; [|done]. simpl. f_equal. unfold reparent.
        repeat case_decide; simplify_eq. rewrite app_nil_r.
        symmetry. apply set_parent_contains_id.
  - f_equal. symmetry. by eapply reparent_None_id.
Qed.

Lemma addObject_spec (h : Heap) p c oc :
  tree_inv h → h !! c = Some oc → is_Some (h !! p) →
  addObject h p c = Ok (reparent_all c (parentContainer oc) (Some p) h).
Proof.
  intros Hinv Hc [op Hp]. unfold addObject.
  rewrite (removeSelfFromContainer_spec h c oc Hinv Hc). simpl.
  set (old := parentContainer oc).
  unfold getObj. rewrite lookup_reparent_all, Hp. simpl.
  rewrite lookup_insert, lookup_reparent_all, Hc.
  destruct (decide (p = c)) as [->|Hpc]; simpl; f_equal; apply map_eq;
    intros k; rewrite lookup_reparent_all.
  - assert (op = oc) as -> by congruence.
    destruct (decide (k = c)) as [->|Hkc].
    + rewrite lookup_insert_eq, Hc. simpl. f_equal. unfold reparent.
      repeat case_decide; simplify_eq; simpl; by rewrite ?app_nil_r.
    + rewrite !lookup_insert_ne by done. rewrite lookup_reparent_all.
      destruct (h !! k) as [o|]; [|done]. simpl. f_equal. unfold reparent.
      repeat case_decide; simplify_eq; simpl; by rewrite ?app_nil_r.
  - destruct (decide (k = c)) as [->|Hkc].
    + rewrite lookup_insert_eq, Hc. simpl. f_equal. unfold reparent.
      repeat case_decide; simplify_eq; simpl; by rewrite ?app_nil_r.
    + rewrite lookup_insert_ne by done.
      destruct (decide (k = p)) as [->|Hkp].
      * rewrite lookup_insert_eq, Hp. simpl. f_equal. unfold reparent.
        repeat case_decide; simplify_eq; simpl; by rewrite ?app_nil_r.
      * rewrite lookup_insert_ne by done. rewrite lookup_reparent_all.
        destruct (h !! k) as [o|]; [|done]. simpl. f_equal. unfold reparent.
        repeat case_decide; simplify_eq; simpl; by rewrite ?app_nil_r.
Qed.

Lemma contains_reparent c old new k o x :
  x ∈ contains (reparent c old new k o) ↔
  (x ∈ contains o ∧ (old = Some k → x ≠ c)) ∨ (x = c ∧ new = Some k).
Proof.
  unfold reparent. simpl. rewrite elem_of_app.
  repeat case_decide; simplify_eq;
    rewrite ?list_elem_of_filter, ?elem_of_nil, ?list_elem_of_singleton;
    naive_solver.
Qed.

Lemma parent_reparent c old new k o :
  parentContainer (reparent c old new k o)
  = if decide (k = c) then new else parentContainer o.
Proof. done. Qed.

(** A detach-then-append keeps the containment invariant. *)
Lemma tree_inv_reparent (h : Heap) c oc new :
  tree_inv h → h !! c = Some oc →
  (∀ p, new = Some p → is_Some (h !! p)) →
  tree_inv (reparent_all c (parentContainer oc) new h).
Proof.
  intros Hinv Hc Hnew. set (old := parentContainer oc). split.
  - intros p op' x Hp Hx. rewrite lookup_reparent_all in Hp.
    destruct (h !! p) as [op|] eqn:Hpo; simplify_eq/=.
    rewrite lookup_reparent_all.
    apply contains_reparent in Hx as [[Hx Hne]|[-> ->]].
    + destruct (inv_child h Hinv p op x Hpo Hx) as (ox & Hox & Hpar).
      rewrite Hox. eexists; split; [done|]. rewrite parent_reparent.
      case_decide; [|done]. simplify_eq. by destruct Hne.
    + rewrite Hc. eexists; split; [done|]. rewrite parent_reparent.
      by rewrite decide_True.
  - intros x ox' p Hx Hpar. rewrite lookup_reparent_all in Hx.
    destruct (h !! x) as [ox|] eqn:Hox; simplify_eq/=.
    rewrite lookup_reparent_all.
    case_decide; simplify_eq.
    + destruct (Hnew p eq_refl) as [op Hp]. rewrite Hp.
      eexists; split; [done|]. apply contains_reparent. by right.
    + destruct (inv_parent h Hinv x ox p Hox Hpar) as (op & Hp & Hin).
      rewrite Hp. eexists; split; [done|]. apply contains_reparent.
      left. split; [done|]. congruence.
  - intros p op' Hp. rewrite lookup_reparent_all in Hp.
    destruct (h !! p) as [op|] eqn:Hpo; simplify_eq/=.
    pose proof (inv_nodup h Hinv p op Hpo) as Hnd.
    apply NoDup_app. split_and!.
    + case_decide; [by apply NoDup_filter | done].
    + intros x Hx Hx'. case_decide; simplify_eq;
        [|by apply elem_of_nil in Hx'].
      apply list_elem_of_singleton in Hx' as ->.
      case_decide.
      * apply list_elem_of_filter in Hx as [? _]. done.
      * destruct (inv_child h Hinv p op c Hpo Hx) as (oc' & Hoc' & Hpar).
        simplify_eq; done.
    + case_decide; [apply NoDup_singleton | apply NoDup_nil_2].
Qed.

(** ** What a turn leaves alone *)

Ltac ok_inv_all :=
  repeat match goal with
         | H : _ = Ok _ |- _ => progress ok_inv H
         end.

Lemma interpret_scoreboard g a g' :
  interpret g a = Ok g' → scoreboard g' = scoreboard g.
Proof.
  unfold interpret. intros H.
  repeat case_bool_decide; ok_inv_all; by subst.
Qed.

Lemma step_action_scoreboard g a g' r :
  step_action g a = Ok (g', r) → scoreboard g' = scoreboard g.
Proof.
  unfold step_action. intros H. simpl in H.
  destruct (dict_get a (possibleActions g)) as [actions|].
  - assert (∃ x, interpret (set_numSteps (S (numSteps (set_observationStr "" g)))
                              (set_observationStr "" g)) x = Ok g')
      as [x Hx].
    { case_bool_decide; ok_inv_all; subst; eauto. }
    by apply interpret_scoreboard in Hx.
  - by simplify_eq.
Qed.

Lemma doWorldTick_scoreboard g g' :
  doWorldTick g = Ok g' → scoreboard g' = scoreboard g.
Proof. unfold doWorldTick. intros H. ok_inv_all. by subst. Qed.


(** ** The reward *)

(** C5: for every step call, the reward of the returned tuple is the score
    after the handler, the tick and the rescoring minus the score before the
    call, and the engine computes it: the handler and the tick leave the
    score as it was. *)
Theorem step_reward g actionStr g' obs sc reward over won :
  step g actionStr = Ok (g', (obs, sc, reward, over, won)) →
  reward = score g' - score g ∧ sc = score g' ∧
  ∃ g1 ret g2,
    step_action g actionStr = Ok (g1, ret) ∧ score g1 = score g ∧
    step_tick g1 = Ok g2 ∧ score g2 = score g ∧
    step_calculate_score g2 = Ok (g', reward).
Proof.
  unfold step. intros H.
  destruct (step_action g actionStr) as [[g1 ret]|] eqn:Ha; [|done].
  simpl in H. destruct (step_tick g1) as [g2|] eqn:Ht; [|done].
  simpl in H.
  destruct (step_calculate_score g2) as [[g3 r]|] eqn:Hs; [|done].
  simpl in H. simplify_eq.
  apply step_action_scoreboard in Ha as Ha'.
  apply doWorldTick_scoreboard in Ht as Ht'.
  unfold scoreboard in *. simplify_eq.
  assert (reward = score g' - score g2) as ->.
  { unfold step_calculate_score in Hs. ok_inv_all. by subst. }
  split_and!; [congruence | done |].
  exists g1, ret, g2. split_and!; congruence.
Qed.

(** ** The game-over latch *)


(** A step call that returns, returns the game and the tuple that
    [after_step] and [step_out] name. *)
Lemma step_eta g actionStr :
  is_Ok (step g actionStr) = true →
  step g actionStr = Ok (after_step g actionStr, step_out g actionStr).
Proof.
  unfold after_step, step_out.
  destruct (step g actionStr) as [[g' r]|]; [reflexivity | discriminate].
Qed.

Lemma step_result_eta (r : step_result) :
  r = (r.1.1.1.1, r.1.1.1.2, r.1.1.2, r.1.2, r.2).
Proof. by destruct r as [[[[? ?] ?] ?] ?]. Qed.

Lemma step_reward_witness :
  1 = score (after_step game_running "look") - score game_running.
Proof.
  assert (is_Ok (step game_running "look") = true) as Hok by vm_refl.
  assert ((step_out game_running "look").1.1.2 = 1) as Hr by vm_refl.
  pose proof (step_eta game_running "look" Hok) as Hstep.
  rewrite (step_result_eta (step_out game_running "look")) in Hstep.
  rewrite <- Hr.
  exact (proj1 (step_reward _ _ _ _ _ _ _ _ Hstep)).
Defined.



(** ** The command that is not in the catalog *)

Lemma step_action_unknown g actionStr :
  dict_get actionStr (possibleActions g) = None →
  step_action g actionStr
  = Ok (set_observationStr "I don't understand that." g,
        Some ("I don't understand that.", score g, 0, gameOver g, gameWon g)).
Proof. unfold step_action. simpl. by intros ->. Qed.

(** C1: [step_action] takes the not-understood path without touching the
    world or the score, but [step] drops what it returns and goes on to the
    tick and the rescoring.  With the dishwasher running on a dirty plate
    and soap, the step call of a command outside the catalog washes the
    plate, removes the soap and returns reward 1. *)
Theorem unknown_command_still_ticks :
  dict_get "frobnicate" (possibleActions game_running) = None ∧
  score game_running = 0 ∧
  step_action game_running "frobnicate"
  = Ok (set_observationStr "I don't understand that." game_running,
        Some ("I don't understand that.", 0, 0, false, false)) ∧
  ∃ g', step game_running "frobnicate"
        = Ok (g', ("I don't understand that.", 1, 1, false, false)) ∧
        score g' = 1 ∧
        (o ← heap game_running !! 4%nat; properties o !! "isDirty")
        = Some (PyBool true) ∧
        (o ← heap g' !! 4%nat; properties o !! "isDirty")
        = Some (PyBool false) ∧
        heap g' ≠ heap game_running.
Proof.
  assert (dict_get "frobnicate" (possibleActions game_running) = None) as Hn
    by vm_refl.
  assert (score game_running = 0) as Hs by vm_refl.
  assert (gameOver game_running = false) as Ho by vm_refl.
  assert (gameWon game_running = false) as Hw by vm_refl.
  split_and!; [exact Hn | exact Hs | |].
  - rewrite (step_action_unknown _ _ Hn), Hs, Ho, Hw. reflexivity.
  - exists (after_step game_running "frobnicate").
    assert (is_Ok (step game_running "frobnicate") = true) as Hok by vm_refl.
    assert (step_out game_running "frobnicate"
            = ("I don't understand that.", 1, 1, false, false)) as Hout
      by vm_refl.
    assert (score (after_step game_running "frobnicate") = 1) as Hs'
      by vm_refl.
    assert ((o ← heap game_running !! 4%nat; properties o !! "isDirty")
            = Some (PyBool true)) as Hd by vm_refl.
    assert ((o ← heap (after_step game_running "frobnicate") !! 4%nat;
             properties o !! "isDirty") = Some (PyBool false)) as Hd'
      by vm_refl.
    split_and!; [|exact Hs' | exact Hd | exact Hd' |].
    + rewrite <- Hout. by apply step_eta.
    + intros Heq. rewrite Heq in Hd'. congruence.
Qed.

(** ** Container.place and Container.takeOut *)

Lemma referent0_reparent c old new k o :
  referent0 (reparent c old new k o) = referent0 o.
Proof. reflexivity. Qed.

Lemma getObj_Some (h : Heap) (k : nat) (o : GameObject) :
  h !! k = Some o → getObj h k = Ok o.
Proof. apply getObj_Ok. Qed.

Lemma asContainer_Ok (h : Heap) self s :
  h !! self = Some s → is_Container (cls s) = true →
  asContainer h self = Ok s.
Proof. intros Hs Hc. unfold asContainer, getObj. rewrite Hs. simpl. by rewrite Hc. Qed.

Lemma placeObjectInContainer_fails (h : Heap) self obj s o :
  h !! self = Some s → is_Container (cls s) = true → h !! obj = Some o →
  negb (py_eq (getProperty s "isContainer") (PyBool true))
  || negb (py_eq (getProperty o "isMoveable") (PyBool true))
  || negb (py_eq (getProperty s "isOpen") (PyBool true)) = true →
  ∃ t, placeObjectInContainer h self obj = Ok (h, t) ∧
       tuple_success t = false ∧ tuple_obs t ≠ "".
Proof.
  intros Hs Hc Ho Hf. unfold placeObjectInContainer.
  rewrite (asContainer_Ok h self s Hs Hc). simpl.
  unfold getObj. rewrite Ho. simpl.
  destruct (negb (py_eq (getProperty s "isContainer") (PyBool true)));
    [eexists; split_and!; [done..|]; simpl; done|].
  destruct (negb (py_eq (getProperty o "isMoveable") (PyBool true)));
    [eexists; split_and!; [done..|]; simpl; done|].
  destruct (negb (py_eq (getProperty s "isOpen") (PyBool true)));
    [eexists; split_and!; [done..|]; simpl; done|].
  done.
Qed.

Lemma placeObjectInContainer_succeeds (h : Heap) self obj s o r :
  tree_inv h →
  h !! self = Some s → is_Container (cls s) = true → h !! obj = Some o →
  negb (py_eq (getProperty s "isContainer") (PyBool true))
  || negb (py_eq (getProperty o "isMoveable") (PyBool true))
  || negb (py_eq (getProperty s "isOpen") (PyBool true)) = false →
  referent0 o = Ok r →
  placeObjectInContainer h self obj
  = Ok (reparent_all obj (parentContainer o) (Some self) h,
        Tuple2 ("The " +:+ r +:+ " is placed in the " +:+ name s +:+ ".")
               true).
Proof.
  intros Hinv Hs Hc Ho Hf Hr. unfold placeObjectInContainer.
  rewrite (asContainer_Ok h self s Hs Hc), (getObj_Some h obj o Ho).
  apply orb_false_iff in Hf as [Hf H3]. apply orb_false_iff in Hf as [H1 H2].
  cbn [mbind result_bind]. rewrite H1, H2, H3.
  rewrite (addObject_spec h self obj o Hinv Ho) by eauto.
  cbn [mbind result_bind].
  rewrite (getObj_Some _ obj (reparent obj (parentContainer o) (Some self) obj o))
    by (by rewrite lookup_reparent_all, Ho).
  cbn [mbind result_bind]. rewrite referent0_reparent, Hr.
  cbn [mbind result_bind].
  rewrite (getObj_Some _ self (reparent obj (parentContainer o) (Some self) self s))
    by (by rewrite lookup_reparent_all, Hs).
  reflexivity.
Qed.

Lemma takeObjectFromContainer_fails (h : Heap) self obj s o :
  h !! self = Some s → is_Container (cls s) = true → h !! obj = Some o →
  negb (py_eq (getProperty s "isContainer") (PyBool true))
  || negb (py_eq (getProperty o "isMoveable") (PyBool true))
  || negb (py_eq (getProperty s "isOpen") (PyBool true))
  || negb (bool_decide (obj ∈ contains s)) = true →
  ∃ msg, takeObjectFromContainer h self obj = Ok (h, (msg, None, false)) ∧
         msg ≠ "".
Proof.
  intros Hs Hc Ho Hf. unfold takeObjectFromContainer.
  rewrite (asContainer_Ok h self s Hs Hc). simpl.
  unfold getObj. rewrite Ho. simpl.
  destruct (negb (py_eq (getProperty s "isContainer") (PyBool true)));
    [eexists; split; [done|]; simpl; done|].
  destruct (negb (py_eq (getProperty o "isMoveable") (PyBool true)));
    [eexists; split; [done|]; simpl; done|].
  destruct (negb (py_eq (getProperty s "isOpen") (PyBool true)));
    [eexists; split; [done|]; simpl; done|].
  destruct (negb (bool_decide (obj ∈ contains s)));
    [eexists; split; [done|]; simpl; done|].
  done.
Qed.

Lemma takeObjectFromContainer_succeeds (h : Heap) self obj s o r :
  tree_inv h →
  h !! self = Some s → is_Container (cls s) = true → h !! obj = Some o →
  negb (py_eq (getProperty s "isContainer") (PyBool true))
  || negb (py_eq (getProperty o "isMoveable") (PyBool true))
  || negb (py_eq (getProperty s "isOpen") (PyBool true))
  || negb (bool_decide (obj ∈ contains s)) = false →
  referent0 o = Ok r →
  parentContainer o = Some self ∧
  takeObjectFromContainer h self obj
  = Ok (reparent_all obj (Some self) None h,
        ("The " +:+ r +:+ " is removed from the " +:+ name s +:+ ".",
         Some obj, true)).
Proof.
  intros Hinv Hs Hc Ho Hf Hr.
  apply orb_false_iff in Hf as [Hf H4]. apply orb_false_iff in Hf as [Hf H3].
  apply orb_false_iff in Hf as [H1 H2].
  assert (obj ∈ contains s) as Hin
    by (by apply negb_false_iff, bool_decide_eq_true in H4).
  destruct (inv_child h Hinv self s obj Hs Hin) as (o' & Ho' & Hpar).
  assert (o' = o) as -> by congruence. split; [done|].
  unfold takeObjectFromContainer.
  rewrite (asContainer_Ok h self s Hs Hc), (getObj_Some h obj o Ho).
  cbn [mbind result_bind]. rewrite H1, H2, H3, H4.
  rewrite (removeSelfFromContainer_spec h obj o Hinv Ho), Hpar.
  cbn [mbind result_bind].
  rewrite (getObj_Some _ obj (reparent obj (Some self) None obj o))
    by (by rewrite lookup_reparent_all, Ho).
  cbn [mbind result_bind]. rewrite referent0_reparent, Hr.
  cbn [mbind result_bind].
  rewrite (getObj_Some _ self (reparent obj (Some self) None self s))
    by (by rewrite lookup_reparent_all, Hs).
  reflexivity.
Qed.

(** ** Tools for the further properties *)

Lemma tree_inv_b_sound (h : Heap) : tree_inv_b h = true → tree_inv h.
Proof.
  unfold tree_inv_b. rewrite forallb_forall. intros Hall.
  assert (∀ k o, h !! k = Some o →
            forallb (λ c, match h !! c with
                          | Some oc => bool_decide (parentContainer oc = Some k)
                          | None => false
                          end) (contains o) = true ∧
            match parentContainer o with
            | Some p => match h !! p with
                        | Some op => bool_decide (k ∈ contains op)
                        | None => false
                        end
            | None => true
            end = true ∧
            bool_decide (NoDup (contains o)) = true) as H.
  { intros k o Hk.
    specialize (Hall (k, o)). simpl in Hall.
    rewrite !andb_true_iff in Hall.
    destruct Hall as [[? ?] ?]; [|done].
    apply list_elem_of_In, elem_of_map_to_list. done. }
  split.
  - intros p op c Hp Hc. destruct (H p op Hp) as (H1 & _ & _).
    rewrite forallb_forall in H1. apply list_elem_of_In in Hc.
    specialize (H1 c Hc). destruct (h !! c) as [oc|]; [|done].
    apply bool_decide_eq_true in H1. eauto.
  - intros c oc p Hc Hpar. destruct (H c oc Hc) as (_ & H2 & _).
    rewrite Hpar in H2. destruct (h !! p) as [op|]; [|done].
    apply bool_decide_eq_true in H2. eauto.
  - intros p op Hp. destruct (H p op Hp) as (_ & _ & H3).
    by apply bool_decide_eq_true in H3.
Qed.

Lemma ids_below_b_sound U (h : Heap) : ids_below_b U h = true → ids_below U h.
Proof.
  unfold ids_below_b, ids_below. rewrite forallb_forall. intros Hall k o Hk.
  specialize (Hall (k, o)). simpl in Hall.
  eapply bool_decide_eq_true_1, Hall, list_elem_of_In, elem_of_map_to_list.
  done.
Qed.

(** A loop keeps what each of its rounds keeps. *)
Lemma forM__invariant {A S} (P : S → Prop) (l : list A)
    (body : S → A → result S) (s s' : S) :
  (∀ s x s1, x ∈ l → P s → body s x = Ok s1 → P s1) →
  forM_ l body s = Ok s' → P s → P s'.
Proof.
  revert s. induction l as [|x l IH]; intros s Hbody H HP.
  - simpl in H. by simplify_eq.
  - cbn [forM_] in H. apply bind_Ok in H as (s1 & Hx & H).
    apply (IH s1); [|done|].
    + intros s0 y s2 Hy. apply Hbody. by right.
    + apply (Hbody s x s1); [left|done..].
Qed.

(** ** Detaching an object *)

(** X1: on a graph that satisfies the containment invariant,
    [removeSelfFromContainer] returns; afterwards the object has no parent
    and is in no child list, every other parent pointer and every property
    bag is as before, the invariant still holds, and a second call changes
    nothing. *)
Theorem removeSelfFromContainer_detaches (h : Heap) c oc :
  tree_inv h → h !! c = Some oc →
  ∃ h', removeSelfFromContainer h c = Ok h' ∧
        tree_inv h' ∧
        parentContainer <$> h' !! c = Some None ∧
        (∀ k o, h' !! k = Some o → c ∉ contains o) ∧
        (∀ k, k ≠ c →
              parentContainer <$> h' !! k = parentContainer <$> h !! k) ∧
        (∀ k, properties <$> h' !! k = properties <$> h !! k) ∧
        removeSelfFromContainer h' c = Ok h'.
Proof.
  intros Hinv Hc. exists (reparent_all c (parentContainer oc) None h).
  assert (reparent_all c (parentContainer oc) None h !! c
          = Some (reparent c (parentContainer oc) None c oc)) as Hc'
    by (by rewrite lookup_reparent_all, Hc).
  split_and!.
  - by apply removeSelfFromContainer_spec.
  - by apply tree_inv_reparent.
  - rewrite Hc'. simpl. by rewrite decide_True.
  - intros k o' Hk Hin. rewrite lookup_reparent_all in Hk.
    destruct (h !! k) as [o|] eqn:Hko; [|done].
    simpl in Hk. injection Hk as <-.
    apply contains_reparent in Hin as [[Hin Hne]|[_ ?]]; [|done].
    destruct (inv_child h Hinv k o c Hko Hin) as (oc' & ? & Hpar).
    simplify_eq. by apply Hne.
  - intros k Hk. rewrite lookup_reparent_all.
    destruct (h !! k) as [o|]; [|done]. simpl. by rewrite decide_False.
  - intros k. rewrite lookup_reparent_all. by destruct (h !! k).
  - unfold removeSelfFromContainer. rewrite (getObj_Some _ _ _ Hc').
    cbn [mbind result_bind]. rewrite parent_reparent.
    by rewrite decide_True.
Qed.

Lemma world0_tree_inv : tree_inv world0.
Proof. apply tree_inv_b_sound. vm_refl. Qed.

Lemma removeSelfFromContainer_detaches_witness :
  ∃ h', removeSelfFromContainer world0 4 = Ok h' ∧ tree_inv h'.
Proof.
  assert (world0 !! 4%nat = Some plate0) as H4 by vm_refl.
  destruct (removeSelfFromContainer_detaches world0 4 plate0
              world0_tree_inv H4) as (h' & H1 & H2 & _).
  exists h'. split; [exact H1 | exact H2].
Defined.

(** ** Opening and closing *)

Lemma set_prop_set_prop k v w o :
  set_prop k v (set_prop k w o) = set_prop k v o.
Proof. unfold set_prop, set_properties. simpl. by rewrite insert_insert_eq. Qed.

Lemma set_prop_id k v o :
  properties o !! k = Some v → set_prop k v o = o.
Proof.
  intros H. unfold set_prop, set_properties. rewrite insert_id by done.
  by destruct o.
Qed.

Lemma getProperty_Some o k v :
  properties o !! k = Some v → getProperty o k = v.
Proof. unfold getProperty. by intros ->. Qed.

Lemma getProperty_set_prop k v o : getProperty (set_prop k v o) k = v.
Proof. unfold getProperty. simpl. by rewrite lookup_insert_eq. Qed.

(** X2: an openable, closed container opens; opening it again fails with
    "already open" and changes nothing; closing it then gives back exactly
    the object graph before the opening; closing a closed container fails
    with "already closed" and changes nothing. *)
Theorem open_close_round_trip (h : Heap) self s :
  h !! self = Some s → is_Container (cls s) = true →
  properties s !! "isOpenable" = Some (PyBool true) →
  properties s !! "isOpen" = Some (PyBool false) →
  ∃ h1,
    openContainer h self
    = Ok (h1, ("The " +:+ name s +:+ " is now open.", true)) ∧
    (o ← h1 !! self; properties o !! "isOpen") = Some (PyBool true) ∧
    openContainer h1 self
    = Ok (h1, ("The " +:+ name s +:+ " is already open.", false)) ∧
    closeContainer h1 self
    = Ok (h, ("The " +:+ name s +:+ " is now closed.", true)) ∧
    closeContainer h self
    = Ok (h, ("The " +:+ name s +:+ " is already closed.", false)).
Proof.
  intros Hs Hc Hopenable Hopen.
  pose (s1 := set_prop "isOpen" (PyBool true) s).
  exists (<[self := s1]> h).
  assert (<[self := s1]> h !! self = Some s1) as Hs1
    by apply lookup_insert_eq.
  assert (getProperty s1 "isOpenable" = PyBool true) as Hopenable1.
  { apply getProperty_Some. simpl. by rewrite lookup_insert_ne. }
  assert (getProperty s1 "isOpen" = PyBool true) as Hopen1
    by apply getProperty_set_prop.
  assert (name s1 = name s) as Hname by reflexivity.
  assert (<[self := set_prop "isOpen" (PyBool false) s1]> (<[self := s1]> h)
          = h) as Hback.
  { unfold s1. rewrite set_prop_set_prop, insert_insert_eq.
    rewrite (set_prop_id _ _ _ Hopen). by apply insert_id. }
  split_and!.
  - unfold openContainer. rewrite (asContainer_Ok h self s Hs Hc).
    cbn [mbind result_bind].
    by rewrite (getProperty_Some _ _ _ Hopenable),
      (getProperty_Some _ _ _ Hopen).
  - rewrite Hs1. exact (lookup_insert_eq _ _ _).
  - unfold openContainer. rewrite (asContainer_Ok _ self s1 Hs1 Hc).
    cbn [mbind result_bind]. by rewrite Hopenable1, Hopen1, Hname.
  - unfold closeContainer. rewrite (asContainer_Ok _ self s1 Hs1 Hc).
    cbn [mbind result_bind]. rewrite Hopenable1, Hopen1, Hname, Hback. done.
  - unfold closeContainer. rewrite (asContainer_Ok h self s Hs Hc).
    cbn [mbind result_bind].
    by rewrite (getProperty_Some _ _ _ Hopenable),
      (getProperty_Some _ _ _ Hopen).
Qed.

Lemma open_close_round_trip_witness :
  ∃ h1, closeContainer h1 2 = Ok (world0, ("The " +:+ name dishwasher0 +:+ " is now closed.", true)).
Proof.
  assert (world0 !! 2%nat = Some dishwasher0) as H2 by vm_refl.
  assert (is_Container (cls dishwasher0) = true) as Hc by vm_refl.
  assert (properties dishwasher0 !! "isOpenable" = Some (PyBool true))
    as Ha by vm_refl.
  assert (properties dishwasher0 !! "isOpen" = Some (PyBool false))
    as Hb by vm_refl.
  destruct (open_close_round_trip world0 2 dishwasher0 H2 Hc Ha Hb)
    as (h1 & _ & _ & _ & H & _).
  exists h1. exact H.
Defined.

(** ** Turning the dishwasher on and off *)

Lemma asDevice_Ok (h : Heap) self s :
  h !! self = Some s → is_Device (cls s) = true → asDevice h self = Ok s.
Proof.
  intros Hs Hc. unfold asDevice. rewrite (getObj_Some _ _ _ Hs).
  cbn [mbind result_bind]. by rewrite Hc.
Qed.

Lemma type_of_Ok (h : Heap) self s :
  h !! self = Some s → type_of h self = Ok (cls s).
Proof. intros Hs. unfold type_of. by rewrite (getObj_Some _ _ _ Hs). Qed.

Lemma prop_Some o k v : properties o !! k = Some v → prop o k = Ok v.
Proof. unfold prop. by intros ->. Qed.

Lemma referent0_DishWasher o :
  cls o = DishWasher → referent0 o = Ok (name o).
Proof. intros H. unfold referent0, getReferents. by rewrite H. Qed.

(** X3: a dishwasher that is off and open refuses to be turned on and
    nothing changes.  One that is off and closed turns on; turning it on
    again fails with "already on" and changes nothing; turning it off then
    gives back exactly the object graph before; turning off a dishwasher
    that is off fails with "already off". *)
Theorem dishwasher_turnOn_turnOff (h : Heap) self s (isOpen : bool) :
  h !! self = Some s → cls s = DishWasher →
  properties s !! "isOn" = Some (PyBool false) →
  properties s !! "isActivatable" = Some (PyBool true) →
  properties s !! "isOpen" = Some (PyBool isOpen) →
  if isOpen then
    turnOn h self
    = Ok (h, ("The " +:+ name s +:+ " is opened, so it can't be turned on.",
              false))
  else
    ∃ h1,
      turnOn h self
      = Ok (h1, ("The " +:+ name s +:+ " is now turned on.", true)) ∧
      (o ← h1 !! self; properties o !! "isOn") = Some (PyBool true) ∧
      turnOn h1 self
      = Ok (h1, ("The " +:+ name s +:+ " is already on.", false)) ∧
      turnOff h1 self
      = Ok (h, ("The " +:+ name s +:+ " is now turned off.", true)) ∧
      turnOff h self
      = Ok (h, ("The " +:+ name s +:+ " is already off.", false)).
Proof.
  intros Hs Hcls Hon Hact Hopen.
  assert (is_Device (cls s) = true) as Hdev by (by rewrite Hcls).
  assert (referent0 s = Ok (name s)) as Hr
    by (by apply referent0_DishWasher).
  destruct isOpen.
  - unfold turnOn. rewrite (type_of_Ok h self s Hs), Hcls.
    cbn [mbind result_bind]. unfold DishWasher_turnOn.
    rewrite (getObj_Some _ _ _ Hs). cbn [mbind result_bind].
    by rewrite (prop_Some _ _ _ Hopen).
  - pose (s1 := set_prop "isOn" (PyBool true) s).
    exists (<[self := s1]> h).
    assert (<[self := s1]> h !! self = Some s1) as Hs1
      by apply lookup_insert_eq.
    assert (properties s1 !! "isOn" = Some (PyBool true)) as Hon1
      by exact (lookup_insert_eq _ _ _).
    assert (properties s1 !! "isOpen" = Some (PyBool false)) as Hopen1
      by (simpl; by rewrite lookup_insert_ne).
    assert (getProperty s1 "isActivatable" = PyBool true) as Hact1.
    { apply getProperty_Some. simpl. by rewrite lookup_insert_ne. }
    assert (cls s1 = DishWasher) as Hcls1 by exact Hcls.
    assert (referent0 s1 = Ok (name s)) as Hr1
      by exact (referent0_DishWasher s1 Hcls1).
    assert (is_Device (cls s1) = true) as Hdev1 by exact Hdev.
    assert (<[self := set_prop "isOn" (PyBool false) s1]> (<[self := s1]> h)
            = h) as Hback.
    { unfold s1. rewrite set_prop_set_prop, insert_insert_eq.
      rewrite (set_prop_id _ _ _ Hon). by apply insert_id. }
    assert (referent0 (set_prop "isOn" (PyBool false) s1) = Ok (name s))
      as Hr2
      by exact (referent0_DishWasher (set_prop "isOn" (PyBool false) s1)
                  Hcls1).
    assert (referent0 (set_prop "isOn" (PyBool true) s) = Ok (name s))
      as Hr3 by exact Hr1.
    split_and!.
    + unfold turnOn. rewrite (type_of_Ok h self s Hs), Hcls.
      cbn [mbind result_bind]. unfold DishWasher_turnOn.
      rewrite (getObj_Some _ _ _ Hs). cbn [mbind result_bind].
      rewrite (prop_Some _ _ _ Hopen). cbn [mbind result_bind py_truthy].
      unfold Device_turnOn. rewrite (asDevice_Ok h self s Hs Hdev).
      cbn [mbind result_bind].
      rewrite (getProperty_Some _ _ _ Hact), (prop_Some _ _ _ Hon).
      cbn [mbind result_bind py_truthy py_eq]. rewrite Hr3. done.
    + rewrite Hs1. exact Hon1.
    + unfold turnOn. rewrite (type_of_Ok _ self s1 Hs1), Hcls1.
      cbn [mbind result_bind]. unfold DishWasher_turnOn.
      rewrite (getObj_Some _ _ _ Hs1). cbn [mbind result_bind].
      rewrite (prop_Some _ _ _ Hopen1). cbn [mbind result_bind py_truthy].
      unfold Device_turnOn. rewrite (asDevice_Ok _ self s1 Hs1 Hdev1).
      cbn [mbind result_bind].
      rewrite Hact1, (prop_Some _ _ _ Hon1).
      cbn [mbind result_bind py_truthy py_eq]. rewrite Hr1. done.
    + unfold turnOff, Device_turnOff.
      rewrite (asDevice_Ok _ self s1 Hs1 Hdev1). cbn [mbind result_bind].
      rewrite Hact1, (prop_Some _ _ _ Hon1).
      cbn [mbind result_bind py_truthy py_eq negb]. rewrite Hr2, Hback. done.
    + unfold turnOff, Device_turnOff.
      rewrite (asDevice_Ok h self s Hs Hdev). cbn [mbind result_bind].
      rewrite (getProperty_Some _ _ _ Hact), (prop_Some _ _ _ Hon).
      cbn [mbind result_bind py_truthy py_eq negb]. rewrite Hr. done.
Qed.

Lemma dishwasher_turnOn_turnOff_witness :
  ∃ h1, turnOff h1 2
        = Ok (world0, ("The " +:+ name dishwasher0
                       +:+ " is now turned off.", true)).
Proof.
  assert (world0 !! 2%nat = Some dishwasher0) as H2 by vm_refl.
  assert (cls dishwasher0 = DishWasher) as Hc by vm_refl.
  assert (properties dishwasher0 !! "isOn" = Some (PyBool false))
    as Ha by vm_refl.
  assert (properties dishwasher0 !! "isActivatable"
          = Some (PyBool true)) as Hb by vm_refl.
  assert (properties dishwasher0 !! "isOpen" = Some (PyBool false))
    as Hd by vm_refl.
  destruct (dishwasher_turnOn_turnOff world0 2 dishwasher0 false
              H2 Hc Ha Hb Hd) as (h1 & _ & _ & _ & H & _).
  exists h1. exact H.
Defined.

(** ** The balance-scale score *)

(** X4: in the balance-scale game, rescoring after any answer sets
    gameOver; gameWon and a score of 1 go with the answer that equals the
    cube's weight, gameWon false and a score of 0 with any other answer,
    whatever gameWon was before: unlike gameOver, gameWon is not a latch. *)
Theorem balance_scale_answer (s : BalanceScale.ScoreRecord) (mass : Z) :
  let s' := BalanceScale.calculateScore (BalanceScale.actionAnswer s mass) in
  BalanceScale.gameOver s' = true ∧
  BalanceScale.gameWon s' = bool_decide (BalanceScale.cube_weight s = mass) ∧
  BalanceScale.score s'
  = (if bool_decide (BalanceScale.cube_weight s = mass) then 1 else 0) ∧
  BalanceScale.calculateScore s' = s'.
Proof.
  unfold BalanceScale.calculateScore, BalanceScale.actionAnswer. simpl.
  case_bool_decide; simpl; rewrite ?bool_decide_eq_true_2 by done;
    rewrite ?bool_decide_eq_false_2 by done; done.
Qed.

(** ** The command catalog as a dictionary *)

Lemma dict_get_append {V} (k k' : string) (v : V) d :
  dict_get k' (dict_append k v d)
  = if decide (k' = k) then Some (default [] (dict_get k d) ++ [v])
    else dict_get k' d.
Proof.
  induction d as [|[k0 vs] d IH]; simpl.
  - repeat case_decide; simplify_eq; done.
  - destruct (decide (k0 = k)) as [->|Hne]; simpl.
    + repeat case_decide; simplify_eq; done.
    + rewrite IH. repeat case_decide; simplify_eq; done.
Qed.

Lemma dict_keys_append {V} (k : string) (v : V) d :
  (dict_append k v d).*1
  = if decide (k ∈ d.*1) then d.*1 else d.*1 ++ [k].
Proof.
  induction d as [|[k0 vs] d IH].
  - cbn [dict_append fmap list_fmap fst app].
    destruct (decide (k ∈ [])) as [H|H]; [by apply elem_of_nil in H | done].
  - cbn [dict_append].
    destruct (decide (k0 = k)) as [->|Hne];
      cbn [fmap list_fmap fst app] in *.
    + destruct (decide (k ∈ k :: d.*1)) as [H|H]; [done|].
      exfalso. apply H. left.
    + rewrite IH.
      destruct (decide (k ∈ d.*1)) as [Hin|Hnin];
        destruct (decide (k ∈ k0 :: d.*1)) as [H|H]; try done.
      * exfalso. apply H. by right.
      * apply elem_of_cons in H as [->|H]; done.
Qed.

(** X5: [addAction] only ever appends.  Looking up the command just added
    gives the tuples registered for it before, in their order, followed by
    the new one; every other command keeps its tuples; the commands keep
    their order, a new command going to the end. *)
Theorem addAction_appends (actionStr k' : string) (actionArgs : action)
    (pa : list (string * list action)) :
  dict_get k' (addAction actionStr actionArgs pa)
  = (if decide (k' = actionStr)
     then Some (default [] (dict_get actionStr pa) ++ [actionArgs])
     else dict_get k' pa) ∧
  (addAction actionStr actionArgs pa).*1
  = (if decide (actionStr ∈ pa.*1) then pa.*1 else pa.*1 ++ [actionStr]).
Proof.
  unfold addAction. split; [apply dict_get_append | apply dict_keys_append].
Qed.

(** ** Taking an object *)

(** Two detach-then-append moves of one object in a row are one move. *)
Lemma reparent_all_compose (h : Heap) c oc new1 new2 :
  tree_inv h → h !! c = Some oc →
  reparent_all c new1 new2 (reparent_all c (parentContainer oc) new1 h)
  = reparent_all c (parentContainer oc) new2 h.
Proof.
  intros Hinv Hc. apply map_eq. intros k. rewrite !lookup_reparent_all.
  destruct (h !! k) as [o|] eqn:Hk; [|done]. cbn [fmap option_fmap option_map].
  f_equal.
  assert (parentContainer oc ≠ Some k → c ∉ contains o) as Hnot.
  { intros Hne Hin.
    destruct (inv_child h Hinv k o c Hk Hin) as (oc' & ? & ?).
    simplify_eq. }
  assert (∀ l : list nat, c ∉ l → filter (λ y, y ≠ c) (l ++ [c]) = l) as Hf.
  { intros l Hl. rewrite filter_app, filter_ne_id by done.
    rewrite filter_cons_False by naive_solver. by rewrite app_nil_r. }
  assert (c ∉ filter (λ y, y ≠ c) (contains o)) as Hfc.
  { intros [? ?]%list_elem_of_filter. done. }
  set (old := parentContainer oc) in *. clearbody old.
  destruct o as [ocls oruns ouuid oname opar ocont oprops ofood].
  unfold reparent, set_parent, set_contains. simpl in *. f_equal.
  - by case_decide.
  - destruct (decide (new1 = Some k)) as [Hn1|Hn1];
      destruct (decide (old = Some k)) as [Ho|Ho];
      rewrite ?app_nil_r; try done.
    + by rewrite Hf.
    + rewrite Hf; [done | by apply Hnot].
Qed.

Lemma orb4_false a b c d :
  a = true → b = true → c = true → d = true →
  negb a || negb b || negb c || negb d = false.
Proof. by intros -> -> -> ->. Qed.

Lemma orb3_false a b c :
  a = true → b = true → c = true → negb a || negb b || negb c = false.
Proof. by intros -> -> ->. Qed.

Lemma actionTake_success g obj o p po r :
  tree_inv (heap g) →
  heap g !! obj = Some o → parentContainer o = Some p →
  heap g !! p = Some po → is_Container (cls po) = true →
  cls o ≠ Agent → is_Some (heap g !! agent g) →
  py_eq (getProperty po "isContainer") (PyBool true) = true →
  py_eq (getProperty o "isMoveable") (PyBool true) = true →
  py_eq (getProperty po "isOpen") (PyBool true) = true →
  referent0 o = Ok r →
  actionTake g obj
  = Ok (reparent_all obj (Some p) (Some (agent g)) (heap g),
        ("The " +:+ r +:+ " is removed from the " +:+ name po +:+ ".")
        +:+ " You put the " +:+ r +:+ " in your inventory.").
Proof.
  intros Hinv Ho Hpar Hp Hcp Hcls [a Ha] H1 H2 H3 Hr.
  destruct (inv_parent _ Hinv obj o p Ho Hpar) as (po' & Hp' & Hin).
  assert (po' = po) as -> by congruence.
  destruct (takeObjectFromContainer_succeeds (heap g) p obj po o r Hinv Hp Hcp
              Ho) as [_ Htake]; [|done|].
  { apply orb4_false; [done..|]. by apply bool_decide_eq_true. }
  unfold actionTake. cbv zeta. rewrite (getObj_Some _ _ _ Ho).
  cbn [mbind result_bind]. rewrite Hpar.
  rewrite bool_decide_eq_false_2 by done.
  rewrite Htake. cbn [mbind result_bind]. 
  rewrite bool_decide_eq_false_2 by done.
  pose proof (tree_inv_reparent (heap g) obj o None Hinv Ho) as Hinv1.
  rewrite Hpar in Hinv1.
  assert (reparent_all obj (Some p) None (heap g) !! obj
          = Some (reparent obj (Some p) None obj o)) as Ho1
    by (by rewrite lookup_reparent_all, Ho).
  rewrite (addObject_spec _ (agent g) obj _ (Hinv1 ltac:(done)) Ho1)
    by (rewrite lookup_reparent_all, Ha; eauto).
  rewrite parent_reparent, decide_True by done.
  pose proof (reparent_all_compose (heap g) obj o None (Some (agent g))
                Hinv Ho) as Hcomp.
  rewrite Hpar in Hcomp. rewrite Hcomp.
  cbn [mbind result_bind].
  rewrite (getObj_Some _ obj (reparent obj (Some p) (Some (agent g)) obj o))
    by (by rewrite lookup_reparent_all, Ho).
  cbn [mbind result_bind]. rewrite referent0_reparent, Hr. done.
Qed.

Lemma reparent_all_facts (h : Heap) c oc new k :
  tree_inv h → h !! c = Some oc →
  let h' := reparent_all c (parentContainer oc) new h in
  properties <$> h' !! k = properties <$> h !! k ∧
  cls <$> h' !! k = cls <$> h !! k ∧
  name <$> h' !! k = name <$> h !! k ∧
  (k ≠ c → parentContainer <$> h' !! k = parentContainer <$> h !! k) ∧
  parentContainer <$> h' !! c = Some new ∧
  (parentContainer oc ≠ Some k → new ≠ Some k →
   contains <$> h' !! k = contains <$> h !! k) ∧
  (new = Some k →
   contains <$> h' !! k
   = (λ o, filter (λ y, y ≠ c) (contains o) ++ [c]) <$> h !! k) ∧
  (parentContainer oc = Some k → new ≠ Some k →
   contains <$> h' !! k = (λ o, filter (λ y, y ≠ c) (contains o)) <$> h !! k).
Proof.
  intros Hinv Hc h'. unfold h'. rewrite !lookup_reparent_all, Hc.
  destruct (h !! k) as [o|] eqn:Hk; cbn [fmap option_fmap option_map].
  - assert (parentContainer oc ≠ Some k → c ∉ contains o) as Hnot.
    { intros Hne Hin.
      destruct (inv_child h Hinv k o c Hk Hin) as (oc' & ? & ?).
      simplify_eq. }
    split_and!; try done.
    + intros Hne. by rewrite parent_reparent, decide_False.
    + by rewrite parent_reparent, decide_True.
    + intros H1 H2. f_equal. unfold reparent. simpl.
      rewrite !decide_False by done. by rewrite app_nil_r.
    + intros ->. f_equal. unfold reparent. simpl.
      rewrite (decide_True (P := Some k = Some k)) by done.
      case_decide; [done|]. by rewrite filter_ne_id by auto.
    + intros H1 H2. f_equal. unfold reparent. simpl.
      rewrite decide_True, decide_False by done. by rewrite app_nil_r.
  - split_and!; try done. by rewrite parent_reparent, decide_True.
Qed.

(** X6: taking an object that is moveable, out of a container that is
    open, puts it last in the inventory: its parent is the agent, it has
    left its old parent's child list, no property bag has changed and the
    containment invariant still holds.  The observation names the object
    twice and the old container once. *)
Theorem actionTake_moves_to_inventory g obj o p po a r :
  tree_inv (heap g) →
  heap g !! obj = Some o → parentContainer o = Some p →
  heap g !! p = Some po → is_Container (cls po) = true →
  cls o ≠ Agent → heap g !! agent g = Some a →
  py_eq (getProperty po "isContainer") (PyBool true) = true →
  py_eq (getProperty o "isMoveable") (PyBool true) = true →
  py_eq (getProperty po "isOpen") (PyBool true) = true →
  referent0 o = Ok r →
  ∃ h',
    actionTake g obj
    = Ok (h', ("The " +:+ r +:+ " is removed from the " +:+ name po +:+ ".")
              +:+ " You put the " +:+ r +:+ " in your inventory.") ∧
    tree_inv h' ∧
    parentContainer <$> h' !! obj = Some (Some (agent g)) ∧
    contains <$> h' !! agent g
    = Some (filter (λ y, y ≠ obj) (contains a) ++ [obj]) ∧
    (p ≠ agent g →
     contains <$> h' !! p = Some (filter (λ y, y ≠ obj) (contains po))) ∧
    (∀ k, properties <$> h' !! k = properties <$> heap g !! k).
Proof.
  intros Hinv Ho Hpar Hp Hcp Hcls Ha H1 H2 H3 Hr.
  exists (reparent_all obj (Some p) (Some (agent g)) (heap g)).
  pose proof (λ k, reparent_all_facts (heap g) obj o (Some (agent g)) k
                     Hinv Ho) as Hfacts.
  cbv zeta in Hfacts. rewrite Hpar in Hfacts.
  split_and!.
  - by apply (actionTake_success g obj o p po r).
  - rewrite <- Hpar. apply tree_inv_reparent; [done..|].
    intros ? [= <-]. eauto.
  - destruct (Hfacts obj) as (_ & _ & _ & _ & H & _). exact H.
  - destruct (Hfacts (agent g)) as (_ & _ & _ & _ & _ & _ & H & _).
    rewrite H by done. by rewrite Ha.
  - intros Hne. destruct (Hfacts p) as (_ & _ & _ & _ & _ & _ & _ & H).
    rewrite H by congruence. by rewrite Hp.
  - intros k. destruct (Hfacts k) as (H & _). exact H.
Qed.

Lemma actionTake_moves_to_inventory_witness :
  ∃ h', tree_inv h' ∧
        contains <$> h' !! 0%nat = Some ([] ++ [4%nat]).
Proof.
  assert (heap session0 !! 4%nat = Some plate0) as H4 by vm_refl.
  assert (parentContainer plate0 = Some 1%nat) as Hp by vm_refl.
  assert (heap session0 !! 1%nat = Some kitchen0) as H1 by vm_refl.
  assert (is_Container (cls kitchen0) = true) as Hc by vm_refl.
  assert (cls plate0 ≠ Agent) as Hn.
  { assert (cls plate0 = Dish) as -> by vm_refl. done. }
  assert (heap session0 !! agent session0 = Some agent0) as H0
    by vm_refl.
  assert (py_eq (getProperty kitchen0 "isContainer") (PyBool true)
          = true) as Ha by vm_refl.
  assert (py_eq (getProperty plate0 "isMoveable") (PyBool true)
          = true) as Hb by vm_refl.
  assert (py_eq (getProperty kitchen0 "isOpen") (PyBool true)
          = true) as Hd by vm_refl.
  assert (referent0 plate0 = Ok "dirty plate (ID: 4)") as Hr
    by vm_refl.
  assert (filter (λ y, y ≠ 4%nat) (contains agent0) = []) as Hf
    by vm_refl.
  destruct (actionTake_moves_to_inventory session0 4 plate0 1
              kitchen0 agent0 "dirty plate (ID: 4)"
              world0_tree_inv H4 Hp H1 Hc Hn H0 Ha Hb Hd Hr)
    as (h' & _ & Hinv & _ & Hcont & _).
  exists h'. split; [exact Hinv|]. rewrite <- Hf. exact Hcont.
Defined.

(** ** Putting an object, and the round trip *)

Lemma py_eq_true_not_false v :
  py_eq v (PyBool true) = true → py_eq v (PyBool false) = false.
Proof.
  destruct v as [[]|z| |]; simpl; try done.
  intros H%bool_decide_eq_true. subst. done.
Qed.

Lemma actionPut_success g obj dst o a c r :
  tree_inv (heap g) →
  heap g !! obj = Some o → parentContainer o = Some (agent g) →
  heap g !! agent g = Some a → is_Container (cls a) = true →
  py_eq (getProperty a "isContainer") (PyBool true) = true →
  py_eq (getProperty a "isOpen") (PyBool true) = true →
  heap g !! dst = Some c → is_Container (cls c) = true →
  py_eq (getProperty c "isContainer") (PyBool true) = true →
  py_eq (getProperty c "isOpen") (PyBool true) = true →
  py_eq (getProperty o "isMoveable") (PyBool true) = true →
  referent0 o = Ok r →
  actionPut g obj dst
  = Ok (reparent_all obj (Some (agent g)) (Some dst) (heap g),
        ("The " +:+ r +:+ " is removed from the " +:+ name a +:+ ".")
        +:+ NL +:+
        ("The " +:+ r +:+ " is placed in the " +:+ name c +:+ ".")).
Proof.
  intros Hinv Ho Hpar Ha Hca Ha1 Ha2 Hc Hcc Hc1 Hc2 Hm Hr.
  destruct (inv_parent _ Hinv obj o _ Ho Hpar) as (a' & Ha' & Hin).
  assert (a' = a) as -> by congruence.
  destruct (takeObjectFromContainer_succeeds (heap g) (agent g) obj a o r
              Hinv Ha Hca Ho) as [_ Htake]; [|done|].
  { apply orb4_false; [done..|]. by apply bool_decide_eq_true. }
  pose proof (tree_inv_reparent (heap g) obj o None Hinv Ho) as Hinv1.
  rewrite Hpar in Hinv1. specialize (Hinv1 ltac:(done)).
  set (h1 := reparent_all obj (Some (agent g)) None (heap g)) in *.
  assert (h1 !! obj = Some (reparent obj (Some (agent g)) None obj o)) as Ho1
    by (unfold h1; by rewrite lookup_reparent_all, Ho).
  assert (h1 !! dst = Some (reparent obj (Some (agent g)) None dst c)) as Hc'
    by (unfold h1; by rewrite lookup_reparent_all, Hc).
  pose proof (placeObjectInContainer_succeeds h1 dst obj _ _ r Hinv1 Hc' Hcc
                Ho1) as Hplace.
  rewrite parent_reparent, decide_True in Hplace by done.
  pose proof (reparent_all_compose (heap g) obj o None (Some dst) Hinv Ho)
    as Hcomp.
  rewrite Hpar in Hcomp. fold h1 in Hcomp. rewrite Hcomp in Hplace.
  unfold actionPut. cbv zeta. rewrite (getObj_Some _ _ _ Hc).
  cbn [mbind result_bind]. rewrite (py_eq_true_not_false _ Hc1).
  rewrite (getObj_Some _ _ _ Ho). cbn [mbind result_bind].
  rewrite bool_decide_eq_true_2 by done. cbn [negb].
  rewrite Hpar. cbn [of_option mbind result_bind].
  rewrite Htake. cbn [mbind result_bind].
  rewrite bool_decide_eq_false_2 by done.
  rewrite Hplace; [|by apply orb3_false|done].
  cbn [mbind result_bind unpack2]. rewrite bool_decide_eq_false_2 by done.
  done.
Qed.

(** X7: take an object out of an open container and put it back: both
    handlers succeed, every parent pointer, every property bag and every
    child list other than that container's is as before the take, and the
    container's child list is the old one with the object moved to its end.
    The containment invariant holds again. *)
Theorem take_then_put_back g obj o p po a r :
  tree_inv (heap g) →
  heap g !! obj = Some o → parentContainer o = Some p →
  heap g !! p = Some po → is_Container (cls po) = true →
  cls o ≠ Agent →
  heap g !! agent g = Some a → is_Container (cls a) = true →
  py_eq (getProperty a "isContainer") (PyBool true) = true →
  py_eq (getProperty a "isOpen") (PyBool true) = true →
  py_eq (getProperty po "isContainer") (PyBool true) = true →
  py_eq (getProperty po "isOpen") (PyBool true) = true →
  py_eq (getProperty o "isMoveable") (PyBool true) = true →
  referent0 o = Ok r →
  ∃ h1 obs1 h2 obs2,
    actionTake g obj = Ok (h1, obs1) ∧
    actionPut (set_heap h1 g) obj p = Ok (h2, obs2) ∧
    tree_inv h2 ∧
    (∀ k, parentContainer <$> h2 !! k = parentContainer <$> heap g !! k) ∧
    (∀ k, properties <$> h2 !! k = properties <$> heap g !! k) ∧
    (∀ k, k ≠ p → contains <$> h2 !! k = contains <$> heap g !! k) ∧
    contains <$> h2 !! p = Some (filter (λ y, y ≠ obj) (contains po) ++ [obj]).
Proof.
  intros Hinv Ho Hpar Hp Hcp Hcls Ha Hca Ha1 Ha2 Hp1 Hp2 Hm Hr.
  pose proof (actionTake_success g obj o p po r Hinv Ho Hpar Hp Hcp Hcls
                ltac:(eauto) Hp1 Hm Hp2 Hr) as Htake.
  set (h1 := reparent_all obj (Some p) (Some (agent g)) (heap g)) in *.
  assert (tree_inv h1) as Hinv1.
  { unfold h1. rewrite <- Hpar. apply tree_inv_reparent; [done..|].
    intros ? [= <-]. eauto. }
  pose proof (actionPut_success (set_heap h1 g) obj p
                (reparent obj (Some p) (Some (agent g)) obj o)
                (reparent obj (Some p) (Some (agent g)) (agent g) a)
                (reparent obj (Some p) (Some (agent g)) p po) r Hinv1) as Hput.
  cbn [heap agent set_heap] in Hput.
  rewrite parent_reparent, decide_True in Hput by done.
  unfold h1 in Hput at 1 2 3. rewrite !lookup_reparent_all in Hput.
  rewrite Ho, Ha, Hp in Hput.
  specialize (Hput eq_refl eq_refl eq_refl Hca Ha1 Ha2 eq_refl Hcp Hp1 Hp2
                Hm Hr).
  pose proof (reparent_all_compose (heap g) obj o (Some (agent g)) (Some p)
                Hinv Ho) as Hcomp.
  rewrite Hpar in Hcomp. fold h1 in Hcomp. rewrite Hcomp in Hput.
  eexists h1, _, _, _. split; [exact Htake|]. split; [exact Hput|].
  pose proof (λ k, reparent_all_facts (heap g) obj o (Some p) k Hinv Ho)
    as Hfacts.
  cbv zeta in Hfacts. rewrite Hpar in Hfacts.
  split_and!.
  - pose proof (tree_inv_reparent (heap g) obj o (Some p) Hinv Ho) as Hi.
    rewrite Hpar in Hi. apply Hi. intros ? [= <-]. eauto.
  - intros k. destruct (Hfacts k) as (_ & _ & _ & H1 & H2 & _).
    destruct (decide (k = obj)) as [->|Hne]; [|by apply H1].
    by rewrite H2, Ho, <- Hpar.
  - intros k. destruct (Hfacts k) as (H & _). exact H.
  - intros k Hk. destruct (Hfacts k) as (_ & _ & _ & _ & _ & H & _).
    apply H; congruence.
  - destruct (Hfacts p) as (_ & _ & _ & _ & _ & _ & H & _).
    rewrite H by done. by rewrite Hp.
Qed.

Lemma take_then_put_back_witness :
  ∃ h2, tree_inv h2 ∧
        contains <$> h2 !! 1%nat
        = Some ([0; 2; 3; 5; 6; 7; 8]%nat ++ [4%nat]).
Proof.
  assert (heap session0 !! 4%nat = Some plate0) as H4 by vm_refl.
  assert (parentContainer plate0 = Some 1%nat) as Hp by vm_refl.
  assert (heap session0 !! 1%nat = Some kitchen0) as H1 by vm_refl.
  assert (is_Container (cls kitchen0) = true) as Hc by vm_refl.
  assert (cls plate0 ≠ Agent) as Hn.
  { assert (cls plate0 = Dish) as -> by vm_refl. done. }
  assert (heap session0 !! agent session0 = Some agent0) as H0 by vm_refl.
  assert (is_Container (cls agent0) = true) as Hca by vm_refl.
  assert (py_eq (getProperty agent0 "isContainer") (PyBool true) = true)
    as Ha1 by vm_refl.
  assert (py_eq (getProperty agent0 "isOpen") (PyBool true) = true)
    as Ha2 by vm_refl.
  assert (py_eq (getProperty kitchen0 "isContainer") (PyBool true) = true)
    as Hk1 by vm_refl.
  assert (py_eq (getProperty kitchen0 "isOpen") (PyBool true) = true)
    as Hk2 by vm_refl.
  assert (py_eq (getProperty plate0 "isMoveable") (PyBool true) = true)
    as Hm by vm_refl.
  assert (referent0 plate0 = Ok "dirty plate (ID: 4)") as Hr by vm_refl.
  assert (filter (λ y, y ≠ 4%nat) (contains kitchen0)
          = [0; 2; 3; 5; 6; 7; 8]%nat) as Hf by vm_refl.
  destruct (take_then_put_back session0 4 plate0 1 kitchen0 agent0
              "dirty plate (ID: 4)" world0_tree_inv H4 Hp H1 Hc Hn H0 Hca
              Ha1 Ha2 Hk1 Hk2 Hm Hr)
    as (h1 & obs1 & h2 & obs2 & _ & _ & Hinv & _ & _ & _ & Hcont).
  exists h2. split; [exact Hinv|]. rewrite <- Hf. exact Hcont.
Defined.

(** ** Scoring from scratch *)

Lemma game_of_eta (r : result TextGame) :
  is_Ok r = true → r = Ok (game_of r).
Proof. by destruct r. Qed.

Lemma score_loop (h : Heap) (l : list nat) (sc : Z) (n : nat) :
  forM_ l
    (fun '(sc, numDirtyDishes) obj =>
       o ← getObj h obj;
       if bool_decide (cls o = Dish)
          && py_eq (getProperty o "isDirty") (PyBool true)
       then Ok (sc - 1, S numDirtyDishes)
       else Ok (sc, numDirtyDishes))
    (sc, n)
  = (k ← count_dirty h l; Ok (sc - Z.of_nat k, (n + k)%nat)).
Proof.
  revert sc n. induction l as [|x l IH]; intros sc n.
  - cbn [forM_ count_dirty mbind result_bind]. do 2 f_equal; lia.
  - cbn [forM_ count_dirty]. destruct (getObj h x) as [o|e]; [|done].
    cbn [mbind result_bind]. unfold is_dirty_dish.
    destruct (bool_decide (cls o = Dish)
              && py_eq (getProperty o "isDirty") (PyBool true));
      cbn [mbind result_bind]; rewrite IH;
      destruct (count_dirty h l) as [k|e]; [|done| |done];
      cbn [mbind result_bind]; do 2 f_equal; lia.
Qed.

Lemma calculateScore_eq g :
  calculateScore g
  = (l ← getAllContainedObjectsRecursive recursionLimit (heap g)
           (rootObject g);
     k ← count_dirty (heap g) l;
     Ok (scored g k)).
Proof.
  unfold calculateScore. cbn [heap rootObject set_score score].
  destruct (getAllContainedObjectsRecursive recursionLimit (heap g)
              (rootObject g)) as [l|e]; [|done].
  cbn [mbind result_bind]. rewrite score_loop.
  destruct (count_dirty (heap g) l) as [k|e]; [|done].
  cbn [mbind result_bind Nat.add]. unfold scored.
  cbn [numStartingDirtyDishes set_score].
  case_bool_decide; reflexivity.
Qed.

(** X8: [calculateScore] recomputes the score from the object graph alone:
    it is the number of dirty dishes the game started with minus the number
    of dirty dishes among the objects contained in the root; the game is
    over and won when that number is zero and the two flags are left alone
    otherwise; the object graph is not touched; and rescoring the rescored
    game changes nothing. *)
Theorem calculateScore_counts_dirty_dishes g g' :
  calculateScore g = Ok g' →
  ∃ allObjects k,
    getAllContainedObjectsRecursive recursionLimit (heap g) (rootObject g)
    = Ok allObjects ∧
    count_dirty (heap g) allObjects = Ok k ∧
    score g' = numStartingDirtyDishes g - Z.of_nat k ∧
    gameOver g' = bool_decide (k = 0%nat) || gameOver g ∧
    gameWon g' = bool_decide (k = 0%nat) || gameWon g ∧
    heap g' = heap g ∧
    calculateScore g' = Ok g'.
Proof.
  rewrite calculateScore_eq. intros H.
  apply bind_Ok in H as (l & Hl & H). apply bind_Ok in H as (k & Hk & H).
  injection H as <-. exists l, k.
  assert (heap (scored g k) = heap g ∧ rootObject (scored g k) = rootObject g
          ∧ numStartingDirtyDishes (scored g k) = numStartingDirtyDishes g)
    as (Hh & Hroot & Hstart) by (unfold scored; by case_bool_decide).
  split_and!; try done.
  - unfold scored. by case_bool_decide.
  - unfold scored. by case_bool_decide.
  - unfold scored. by case_bool_decide.
  - rewrite calculateScore_eq, Hh, Hroot, Hl. cbn [mbind result_bind].
    rewrite Hk. cbn [mbind result_bind]. f_equal.
    unfold scored. destruct g. by case_bool_decide.
Qed.

Lemma calculateScore_counts_dirty_dishes_witness :
  calculateScore (game_of (calculateScore session0))
  = Ok (game_of (calculateScore session0)).
Proof.
  assert (is_Ok (calculateScore session0) = true) as Hok by vm_refl.
  destruct (calculateScore_counts_dirty_dishes session0
              (game_of (calculateScore session0))
              (game_of_eta _ Hok)) as (l & k & _ & _ & _ & _ & _ & _ & H).
  exact H.
Defined.

(** ** What a step leaves alone *)

Lemma interpret_numSteps g a g' :
  interpret g a = Ok g' → numSteps g' = numSteps g.
Proof.
  unfold interpret. intros H.
  repeat case_bool_decide; ok_inv_all; by subst.
Qed.

(** X9: a step call never rebuilds the command catalog: the catalog, the
    agent, the root and the starting count are as before the call, so the
    caller has to call [generatePossibleActions] itself; the step counter
    goes up by one for a command of the catalog and stays for any other
    string. *)
Theorem step_keeps_catalog g actionStr g' r :
  step g actionStr = Ok (g', r) →
  possibleActions g' = possibleActions g ∧
  agent g' = agent g ∧ rootObject g' = rootObject g ∧
  numStartingDirtyDishes g' = numStartingDirtyDishes g ∧
  numSteps g'
  = (if dict_get actionStr (possibleActions g) is Some _
     then S (numSteps g) else numSteps g).
Proof.
  unfold step. intros H.
  apply bind_Ok in H as ([g1 ret] & Ha & H).
  apply bind_Ok in H as (g2 & Ht & H).
  apply bind_Ok in H as ([g3 rw] & Hs & H). injection H as <- <-.
  assert (numSteps g1
          = (if dict_get actionStr (possibleActions g) is Some _
             then S (numSteps g) else numSteps g)) as Hn1.
  { unfold step_action in Ha. cbn [possibleActions set_observationStr] in Ha.
    destruct (dict_get actionStr (possibleActions g)) as [actions|].
    - apply bind_Ok in Ha as (x & _ & Ha).
      apply bind_Ok in Ha as (g1' & Hi & Ha). injection Ha as <- <-.
      by apply interpret_numSteps in Hi.
    - by injection Ha as <- <-. }
  apply step_action_scoreboard in Ha. apply doWorldTick_scoreboard in Ht as Ht'.
  assert (numSteps g2 = numSteps g1) as Hn2.
  { unfold step_tick, doWorldTick in Ht. ok_inv_all. by subst. }
  unfold step_calculate_score in Hs.
  apply bind_Ok in Hs as (g4 & Hc & Hs). injection Hs as <- <-.
  rewrite calculateScore_eq in Hc.
  apply bind_Ok in Hc as (l & _ & Hc). apply bind_Ok in Hc as (k & _ & Hc).
  injection Hc as <-.
  unfold scoreboard in *. simplify_eq.
  unfold scored. case_bool_decide; cbn; split_and!; congruence.
Qed.

Lemma step_keeps_catalog_witness :
  numSteps (after_step game0 "look") = 1%nat ∧
  numSteps (after_step game0 "frobnicate") = 0%nat.
Proof.
  assert (is_Ok (step game0 "look") = true) as H1 by vm_refl.
  assert (is_Ok (step game0 "frobnicate") = true) as H2 by vm_refl.
  assert (dict_get "look" (possibleActions game0)
          = Some [mkAction "look around" []]) as Hl by vm_refl.
  assert (dict_get "frobnicate" (possibleActions game0) = None) as Hf
    by vm_refl.
  assert (numSteps game0 = 0%nat) as H0 by vm_refl.
  destruct (step_keeps_catalog game0 "look" _ _ (step_eta _ _ H1))
    as (_ & _ & _ & _ & Ha).
  destruct (step_keeps_catalog game0 "frobnicate" _ _ (step_eta _ _ H2))
    as (_ & _ & _ & _ & Hb).
  rewrite Hl, H0 in Ha. rewrite Hf, H0 in Hb. split; [exact Ha | exact Hb].
Defined.

(** ** Constructors *)

(** X10: every constructor draws exactly one uuid, however many
    [__init__] methods of the class hierarchy run: the new object is
    numbered with the counter's value and named "<name> (ID: <uuid>)", the
    counter moves on by one, the object is in no container and holds
    nothing, and its property bag carries isContainer (true for the
    container classes) and isMoveable (false for the dishwasher only). *)
Theorem constructors_draw_one_uuid (U : nat) (dishType foodName prefix : string)
    (isDirty : bool) :
  fresh_object Agent "agent" U (Agent_init U) ∧
  fresh_object World "kitchen" U (World_init U) ∧
  fresh_object DishWasher "dishwasher" U (DishWasher_init U) ∧
  fresh_object DishSoapBottle "bottle of dish soap" U (DishSoapBottle_init U) ∧
  fresh_object Soap "dish soap" U (Soap_init U) ∧
  fresh_object Food foodName U (Food_init foodName U) ∧
  fresh_object Dish dishType U (Dish_init dishType isDirty foodName prefix U).
Proof.
  unfold fresh_object. destruct isDirty; repeat split; vm_compute; reflexivity.
Qed.

(** ** New objects and property updates on the object graph *)

Lemma tree_inv_alloc (h : Heap) k o :
  tree_inv h → h !! k = None →
  parentContainer o = None → contains o = [] →
  tree_inv (<[k := o]> h).
Proof.
  intros Hinv Hk Hp Hc. split.
  - intros p op c Hpo Hin. destruct (decide (p = k)) as [->|Hne].
    + rewrite lookup_insert_eq in Hpo. simplify_eq. rewrite Hc in Hin.
      by apply elem_of_nil in Hin.
    + rewrite lookup_insert_ne in Hpo by done.
      destruct (inv_child h Hinv p op c Hpo Hin) as (oc & Hoc & Hpar).
      assert (c ≠ k) by congruence.
      rewrite lookup_insert_ne by done. eauto.
  - intros c oc p Hco Hpar. destruct (decide (c = k)) as [->|Hne].
    + rewrite lookup_insert_eq in Hco. simplify_eq; congruence.
    + rewrite lookup_insert_ne in Hco by done.
      destruct (inv_parent h Hinv c oc p Hco Hpar) as (op & Hop & Hin).
      assert (p ≠ k) by congruence.
      rewrite lookup_insert_ne by done. eauto.
  - intros p op Hpo. destruct (decide (p = k)) as [->|Hne].
    + rewrite lookup_insert_eq in Hpo. simplify_eq. rewrite Hc.
      apply NoDup_nil_2.
    + rewrite lookup_insert_ne in Hpo by done. by eapply inv_nodup.
Qed.

(** Replacing an object by one with the same parent and the same children
    keeps the invariant. *)
Lemma tree_inv_update (h : Heap) k o o' :
  tree_inv h → h !! k = Some o →
  parentContainer o' = parentContainer o → contains o' = contains o →
  tree_inv (<[k := o']> h).
Proof.
  intros Hinv Hk Hp Hc. split.
  - intros p op c Hpo Hin.
    assert (∃ op0, h !! p = Some op0 ∧ c ∈ contains op0) as (op0 & Hp0 & Hin0).
    { destruct (decide (p = k)) as [->|Hne].
      - rewrite lookup_insert_eq in Hpo. simplify_eq. rewrite Hc in Hin. eauto.
      - rewrite lookup_insert_ne in Hpo by done. eauto. }
    destruct (inv_child h Hinv p op0 c Hp0 Hin0) as (oc & Hoc & Hpar).
    destruct (decide (c = k)) as [->|Hne].
    + rewrite lookup_insert_eq. eexists; split; [done|]. congruence.
    + rewrite lookup_insert_ne by done. eauto.
  - intros c oc p Hco Hpar.
    assert (∃ oc0, h !! c = Some oc0 ∧ parentContainer oc0 = Some p)
      as (oc0 & Hc0 & Hpar0).
    { destruct (decide (c = k)) as [->|Hne].
      - rewrite lookup_insert_eq in Hco. simplify_eq. exists o. split; congruence.
      - rewrite lookup_insert_ne in Hco by done. eauto. }
    destruct (inv_parent h Hinv c oc0 p Hc0 Hpar0) as (op & Hop & Hin).
    destruct (decide (p = k)) as [->|Hne].
    + rewrite lookup_insert_eq. eexists; split; [done|]. congruence.
    + rewrite lookup_insert_ne by done. eauto.
  - intros p op Hpo. destruct (decide (p = k)) as [->|Hne].
    + rewrite lookup_insert_eq in Hpo. simplify_eq. rewrite Hc.
      by eapply inv_nodup.
    + rewrite lookup_insert_ne in Hpo by done. by eapply inv_nodup.
Qed.

Lemma ids_below_fresh U (h : Heap) : ids_below U h → h !! U = None.
Proof.
  intros Hb. destruct (h !! U) as [o|] eqn:H; [|done].
  apply Hb in H. lia.
Qed.

(** ** Squirting soap *)

(** X11: using the bottle of dish soap on a dish or on the dishwasher
    makes a new Soap object with the next uuid, moves the counter on by one
    and appends the soap to the target's child list, whether or not the
    target is open: no door is tested on this path.  Every object that was
    there keeps its parent and its properties, and the containment
    invariant and the bound on the uuids still hold. *)
Theorem squirt_soap (h : Heap) (U : nat) self s patient p r :
  tree_inv h → ids_below U h →
  h !! self = Some s → cls s = DishSoapBottle →
  h !! patient = Some p → cls p = Dish ∨ cls p = DishWasher →
  referent0 p = Ok r →
  ∃ h' obs soap,
    useWithObject h U self patient = Ok (h', S U, (obs, true)) ∧
    obs = (if bool_decide (cls p = Dish)
           then "You squirt some dish soap on the " +:+ r +:+ "."
           else "You squirt some dish soap into the dishwasher.") ∧
    h' !! U = Some soap ∧ cls soap = Soap ∧
    name soap = "dish soap (ID: " +:+ pretty U +:+ ")" ∧
    parentContainer soap = Some patient ∧
    contains <$> h' !! patient = Some (contains p ++ [U]) ∧
    (∀ k, k ≠ U →
          parentContainer <$> h' !! k = parentContainer <$> h !! k ∧
          properties <$> h' !! k = properties <$> h !! k) ∧
    tree_inv h' ∧ ids_below (S U) h'.
Proof.
  intros Hinv Hb Hs Hcls Hp Hpc Hr.
  pose proof (ids_below_fresh U h Hb) as HU.
  assert (patient ≠ U) as HpU by congruence.
  assert (self ≠ U) as HsU by congruence.
  set (soap := (Soap_init U).1).
  assert (Soap_init U = (soap, S U)) as Hsoap by reflexivity.
  assert (uuid soap = U) as Huuid by reflexivity.
  assert (parentContainer soap = None) as Hsp by reflexivity.
  assert (contains soap = []) as Hsc by reflexivity.
  set (h0 := <[U := soap]> h).
  assert (tree_inv h0) as Hinv0 by (by apply tree_inv_alloc).
  assert (h0 !! U = Some soap) as HU0 by apply lookup_insert_eq.
  assert (h0 !! patient = Some p) as Hp0
    by (unfold h0; by rewrite lookup_insert_ne).
  assert (addObject (alloc h soap) patient (uuid soap)
          = Ok (reparent_all U None (Some patient) h0)) as Hadd.
  { unfold alloc. rewrite Huuid. fold h0.
    rewrite (addObject_spec h0 patient U soap Hinv0 HU0) by eauto.
    by rewrite Hsp. }
  pose proof (λ k, reparent_all_facts h0 U soap (Some patient) k Hinv0 HU0)
    as Hfacts.
  cbv zeta in Hfacts. rewrite Hsp in Hfacts.
  set (h' := reparent_all U None (Some patient) h0) in *.
  assert (h' !! patient = Some (reparent U None (Some patient) patient p))
    as Hp' by (unfold h'; by rewrite lookup_reparent_all, Hp0).
  assert (U ∉ contains p) as Hnin.
  { intros Hin. destruct (inv_child h Hinv patient p U Hp Hin) as (? & ? & _).
    congruence. }
  exists h', (if bool_decide (cls p = Dish)
              then "You squirt some dish soap on the " +:+ r +:+ "."
              else "You squirt some dish soap into the dishwasher."),
    (reparent U None (Some patient) U soap).
  split_and!.
  - unfold useWithObject.
    rewrite (asDevice_Ok h self s Hs) by (by rewrite Hcls).
    cbn [mbind result_bind]. rewrite (getObj_Some _ _ _ Hp).
    cbn [mbind result_bind]. rewrite Hcls.
    destruct Hpc as [Hd|Hd].
    + rewrite !(bool_decide_eq_true_2 (cls p = Dish)) by done.
      rewrite Hsoap, Hadd. cbn [mbind result_bind].
      rewrite (getObj_Some _ _ _ Hp'). cbn [mbind result_bind].
      rewrite referent0_reparent, Hr. done.
    + rewrite !(bool_decide_eq_false_2 (cls p = Dish)) by congruence.
      rewrite (bool_decide_eq_true_2 (cls p = DishWasher)) by done.
      rewrite Hsoap, Hadd. done.
  - done.
  - unfold h'. by rewrite lookup_reparent_all, HU0.
  - done.
  - done.
  - cbn. by rewrite decide_True.
  - destruct (Hfacts patient) as (_ & _ & _ & _ & _ & _ & H & _).
    rewrite H by done. rewrite Hp0. cbn. by rewrite filter_ne_id.
  - intros k Hk. destruct (Hfacts k) as (H1 & _ & _ & H2 & _).
    rewrite H1, H2 by done. unfold h0. by rewrite lookup_insert_ne.
  - pose proof (tree_inv_reparent h0 U soap (Some patient) Hinv0 HU0) as Hi.
    rewrite Hsp in Hi. apply Hi. intros ? [= <-]. eauto.
  - intros k o Hk. unfold h' in Hk. rewrite lookup_reparent_all in Hk.
    unfold h0 in Hk. destruct (decide (k = U)) as [->|Hne]; [lia|].
    rewrite lookup_insert_ne in Hk by done.
    destruct (h !! k) as [o0|] eqn:Hk0; [|done].
    apply Hb in Hk0. lia.
Qed.

Lemma ids_below_world0 : ids_below 9 world0.
Proof. apply ids_below_b_sound. vm_refl. Qed.

Lemma squirt_soap_witness :
  ∃ h' : Heap,
    contains <$> h' !! 2%nat = Some (contains dishwasher0 ++ [9%nat]) ∧
        properties dishwasher0 !! "isOpen" = Some (PyBool false).
Proof.
  assert (world0 !! 3%nat = Some bottle0) as H3 by vm_refl.
  assert (cls bottle0 = DishSoapBottle) as Hc by vm_refl.
  assert (world0 !! 2%nat = Some dishwasher0) as H2 by vm_refl.
  assert (cls dishwasher0 = DishWasher) as Hd by vm_refl.
  assert (referent0 dishwasher0 = Ok "dishwasher (ID: 2)") as Hr by vm_refl.
  assert (properties dishwasher0 !! "isOpen" = Some (PyBool false)) as Ho
    by vm_refl.
  destruct (squirt_soap world0 9 3 bottle0 2 dishwasher0 "dishwasher (ID: 2)"
              world0_tree_inv ids_below_world0 H3 Hc H2 (or_intror Hd) Hr)
    as (h' & obs & soap & _ & _ & _ & _ & _ & _ & H & _).
  exists h'. split; [exact H | exact Ho].
Defined.

(** ** Eating *)

(** X12: eating a food that is in the inventory with a clean dish takes
    the food out of the object graph (it has no parent and is in no child
    list afterwards), makes the dish dirty with the food's full name, uuid
    suffix included, as foodMessName, and moves the dish to the end of the
    root's child list from wherever it was, without testing any door.  The
    containment invariant still holds. *)
Theorem actionEat_dirties_the_dish g obj dish o a d v r fn dt :
  tree_inv (heap g) → obj ≠ dish →
  heap g !! obj = Some o → parentContainer o = Some (agent g) →
  heap g !! agent g = Some a → is_Container (cls a) = true →
  py_eq (getProperty a "isContainer") (PyBool true) = true →
  py_eq (getProperty a "isOpen") (PyBool true) = true →
  heap g !! dish = Some d → cls d = Dish →
  properties d !! "isDirty" = Some v → py_truthy v = false →
  properties d !! "dishType" = Some (PyStr dt) →
  py_eq (getProperty o "isFood") (PyBool true) = true →
  py_eq (getProperty o "isMoveable") (PyBool true) = true →
  referent0 o = Ok r → foodName o = Some fn →
  is_Some (heap g !! rootObject g) →
  ∃ h',
    actionEat g obj dish
    = Ok (h', "You eat the " +:+ fn +:+ " using the " +:+ dt +:+ ".") ∧
    tree_inv h' ∧
    parentContainer <$> h' !! obj = Some None ∧
    (∀ k o', h' !! k = Some o' → obj ∉ contains o') ∧
    parentContainer <$> h' !! dish = Some (Some (rootObject g)) ∧
    properties <$> h' !! dish
    = Some (<["foodMessName" := PyStr (name o)]>
              (<["isDirty" := PyBool true]> (properties d))) ∧
    (∃ root', h' !! rootObject g = Some root' ∧
              last (contains root') = Some dish).
Proof.
  intros Hinv Hne Ho Hpar Ha Hca Ha1 Ha2 Hd Hcd Hdirty Hv Hdt Hfood Hm Hr Hfn
    [root Hroot].
  destruct (inv_parent _ Hinv obj o _ Ho Hpar) as (a' & Ha' & Hin).
  assert (a' = a) as -> by congruence.
  destruct (takeObjectFromContainer_succeeds (heap g) (agent g) obj a o r
              Hinv Ha Hca Ho) as [_ Htake]; [|done|].
  { apply orb4_false; [done..|]. by apply bool_decide_eq_true. }
  pose proof (tree_inv_reparent (heap g) obj o None Hinv Ho) as Hinv1.
  rewrite Hpar in Hinv1. specialize (Hinv1 ltac:(done)).
  set (h1 := reparent_all obj (Some (agent g)) None (heap g)) in *.
  set (o1 := reparent obj (Some (agent g)) None obj o).
  set (d1 := reparent obj (Some (agent g)) None dish d).
  assert (h1 !! obj = Some o1) as Ho1
    by (unfold h1; by rewrite lookup_reparent_all, Ho).
  assert (h1 !! dish = Some d1) as Hd1
    by (unfold h1; by rewrite lookup_reparent_all, Hd).
  set (d2 := makeDirty (name o1) d1).
  set (h2 := <[dish := d2]> h1).
  assert (tree_inv h2) as Hinv2 by (by apply (tree_inv_update h1 dish d1 d2)).
  assert (h2 !! dish = Some d2) as Hd2 by apply lookup_insert_eq.
  assert (h2 !! obj = Some o1) as Ho2
    by (unfold h2; by rewrite lookup_insert_ne).
  assert (parentContainer d2 = parentContainer d) as Hpd2.
  { unfold d2, d1. cbn. by rewrite decide_False. }
  assert (is_Some (h2 !! rootObject g)) as Hroot2.
  { unfold h2. destruct (decide (rootObject g = dish)) as [->|?].
    - rewrite lookup_insert_eq. eauto.
    - rewrite lookup_insert_ne by done. unfold h1.
      rewrite lookup_reparent_all, Hroot. eauto. }
  pose proof (addObject_spec h2 (rootObject g) dish d2 Hinv2 Hd2 Hroot2)
    as Hadd.
  set (h3 := reparent_all dish (parentContainer d2) (Some (rootObject g)) h2)
    in *.
  pose proof (λ k, reparent_all_facts h2 dish d2 (Some (rootObject g)) k
                     Hinv2 Hd2) as Hfacts.
  cbv zeta in Hfacts. fold h3 in Hfacts.
  assert (tree_inv h3) as Hinv3.
  { apply tree_inv_reparent; [done..|]. intros ? [= <-]. done. }
  assert (h3 !! obj = Some (reparent dish (parentContainer d2)
                              (Some (rootObject g)) obj o1)) as Ho3
    by (unfold h3; by rewrite lookup_reparent_all, Ho2).
  assert (h3 !! dish = Some (reparent dish (parentContainer d2)
                               (Some (rootObject g)) dish d2)) as Hd3
    by (unfold h3; by rewrite lookup_reparent_all, Hd2).
  assert (parentContainer <$> h3 !! obj = Some None) as Hpo3.
  { rewrite Ho3. cbn. rewrite decide_False by done. by rewrite decide_True. }
  exists h3. split_and!.
  - unfold actionEat. cbv zeta. rewrite (getObj_Some _ _ _ Ho).
    cbn [mbind result_bind]. rewrite bool_decide_eq_true_2 by done.
    cbn [negb]. rewrite (getObj_Some _ _ _ Hd). cbn [mbind result_bind].
    rewrite bool_decide_eq_true_2 by done. cbn [negb].
    rewrite (prop_Some _ _ _ Hdirty). cbn [mbind result_bind].
    rewrite Hv, Hfood, Hpar. cbn [of_option mbind result_bind].
    rewrite Htake. cbn [mbind result_bind].
    rewrite bool_decide_eq_false_2 by done.
    rewrite (getObj_Some _ _ _ Ho1). cbn [mbind result_bind].
    rewrite (getObj_Some _ _ _ Hd1). cbn [mbind result_bind].
    fold d2. fold h2. rewrite Hadd. cbn [mbind result_bind].
    rewrite (getObj_Some _ _ _ Ho3). cbn [mbind result_bind].
    assert (foodName (reparent dish (parentContainer d2)
                        (Some (rootObject g)) obj o1) = Some fn) as ->
      by exact Hfn.
    cbn [of_option mbind result_bind].
    rewrite (getObj_Some _ _ _ Hd3). cbn [mbind result_bind].
    assert (prop (reparent dish (parentContainer d2) (Some (rootObject g))
                    dish d2) "dishType" = Ok (PyStr dt)) as ->.
    { apply prop_Some. cbn. rewrite !lookup_insert_ne by done. exact Hdt. }
    done.
  - done.
  - done.
  - intros k o' Hk Hin3.
    destruct (inv_child h3 Hinv3 k o' obj Hk Hin3) as (oc & Hoc & Hp).
    rewrite Hoc in Hpo3. cbn in Hpo3. congruence.
  - destruct (Hfacts dish) as (_ & _ & _ & _ & H & _). exact H.
  - destruct (Hfacts dish) as (H & _). rewrite H, Hd2. done.
  - destruct (Hfacts (rootObject g)) as (_ & _ & _ & _ & _ & _ & H & _).
    specialize (H eq_refl). destruct Hroot2 as [root2 Hroot2].
    rewrite Hroot2 in H.
    destruct (h3 !! rootObject g) as [root3|]; [|done].
    exists root3. split; [done|]. cbn in H. injection H as ->.
    apply last_snoc.
Qed.

Lemma world_pizza_tree_inv : tree_inv world_pizza.
Proof. apply tree_inv_b_sound. vm_refl. Qed.

Lemma actionEat_dirties_the_dish_witness :
  ∃ h', tree_inv h' ∧ parentContainer <$> h' !! 8%nat = Some None ∧
        parentContainer <$> h' !! 7%nat = Some (Some 1%nat).
Proof.
  assert (8%nat ≠ 7%nat) as Hne by done.
  assert (heap session_pizza !! 8%nat = Some pizza1) as H8 by vm_refl.
  assert (parentContainer pizza1 = Some (agent session_pizza)) as Hp
    by vm_refl.
  assert (heap session_pizza !! agent session_pizza = Some agent1) as H0
    by vm_refl.
  assert (is_Container (cls agent1) = true) as Hca by vm_refl.
  assert (py_eq (getProperty agent1 "isContainer") (PyBool true) = true)
    as Ha1 by vm_refl.
  assert (py_eq (getProperty agent1 "isOpen") (PyBool true) = true)
    as Ha2 by vm_refl.
  assert (heap session_pizza !! 7%nat = Some mug1) as H7 by vm_refl.
  assert (cls mug1 = Dish) as Hcd by vm_refl.
  assert (properties mug1 !! "isDirty" = Some (PyBool false)) as Hd
    by vm_refl.
  assert (properties mug1 !! "dishType" = Some (PyStr "mug")) as Hdt
    by vm_refl.
  assert (py_eq (getProperty pizza1 "isFood") (PyBool true) = true) as Hf
    by vm_refl.
  assert (py_eq (getProperty pizza1 "isMoveable") (PyBool true) = true)
    as Hm by vm_refl.
  assert (referent0 pizza1 = Ok "pizza (ID: 8)") as Hr by vm_refl.
  assert (foodName pizza1 = Some "pizza") as Hfn by vm_refl.
  assert (is_Some (heap session_pizza !! rootObject session_pizza)) as Hroot.
  { exists kitchen1. vm_refl. }
  destruct (actionEat_dirties_the_dish session_pizza 8 7 pizza1 agent1 mug1
              (PyBool false) "pizza (ID: 8)" "pizza" "mug"
              world_pizza_tree_inv Hne H8 Hp H0 Hca Ha1 Ha2 H7 Hcd Hd
              eq_refl Hdt Hf Hm Hr Hfn Hroot)
    as (h' & _ & Hi & Ha & _ & Hb & _).
  exists h'. split_and!; [exact Hi | exact Ha | exact Hb].
Defined.

(** ** Every handler keeps the object graph well-formed *)

Lemma keeps_refl h : keeps h h.
Proof. by split. Qed.

Lemma keeps_trans h1 h2 h3 : keeps h1 h2 → keeps h2 h3 → keeps h1 h3.
Proof. intros [A B] [C D]. split; [tauto | intros U ?; by apply D, B]. Qed.

Lemma keeps_update (h : Heap) k o o' :
  h !! k = Some o →
  parentContainer o' = parentContainer o → contains o' = contains o →
  keeps h (<[k := o']> h).
Proof.
  intros Hk Hp Hc. split.
  - intros Hinv. by apply (tree_inv_update h k o o').
  - intros U Hb j oj Hj. destruct (decide (j = k)) as [->|Hne].
    + by apply (Hb k o).
    + rewrite lookup_insert_ne in Hj by done. by apply (Hb j oj).
Qed.

Lemma keeps_reparent (h : Heap) c oc new :
  h !! c = Some oc → (∀ p, new = Some p → is_Some (h !! p)) →
  keeps h (reparent_all c (parentContainer oc) new h).
Proof.
  intros Hc Hnew. split.
  - intros Hinv. by apply tree_inv_reparent.
  - intros U Hb j oj Hj. rewrite lookup_reparent_all in Hj.
    destruct (h !! j) as [o|] eqn:Hjo; [|done]. by apply (Hb j o).
Qed.

Lemma keeps_removeSelf (h h' : Heap) c :
  tree_inv h → removeSelfFromContainer h c = Ok h' → keeps h h'.
Proof.
  intros Hinv H.
  assert (∃ oc, h !! c = Some oc) as [oc Hc].
  { unfold removeSelfFromContainer in H.
    apply bind_Ok in H as (oc & Hc%getObj_Ok & _). eauto. }
  rewrite (removeSelfFromContainer_spec h c oc Hinv Hc) in H.
  injection H as <-. by apply keeps_reparent.
Qed.

Lemma keeps_addObject (h h' : Heap) p c :
  tree_inv h → addObject h p c = Ok h' → keeps h h'.
Proof.
  intros Hinv H.
  assert (∃ oc, h !! c = Some oc) as [oc Hc].
  { unfold addObject in H. apply bind_Ok in H as (h1 & H1 & _).
    unfold removeSelfFromContainer in H1.
    apply bind_Ok in H1 as (oc & Hc%getObj_Ok & _). eauto. }
  assert (is_Some (h !! p)) as Hp.
  { unfold addObject in H.
    rewrite (removeSelfFromContainer_spec h c oc Hinv Hc) in H.
    cbn [mbind result_bind] in H.
    apply bind_Ok in H as (s & Hs%getObj_Ok & _).
    rewrite lookup_reparent_all in Hs. destruct (h !! p); [eauto|done]. }
  rewrite (addObject_spec h p c oc Hinv Hc Hp) in H. injection H as <-.
  apply keeps_reparent; [done|]. by intros ? [= <-].
Qed.

(** the invariant goes through a call that keeps well-formedness *)
Lemma keeps_tree_inv h h' : keeps h h' → tree_inv h → tree_inv h'.
Proof. by intros [A _]. Qed.

Lemma keeps_takeObject (h h' : Heap) self obj x :
  tree_inv h → takeObjectFromContainer h self obj = Ok (h', x) → keeps h h'.
Proof.
  intros Hinv H. unfold takeObjectFromContainer in H.
  apply bind_Ok in H as (s & _ & H). apply bind_Ok in H as (o & _ & H).
  repeat (match type of H with
          | (if ?b then _ else _) = Ok _ => destruct b
          end; [injection H as <- _; apply keeps_refl|]).
  apply bind_Ok in H as (h1 & H1 & H). apply bind_Ok in H as (? & _ & H).
  apply bind_Ok in H as (? & _ & H). apply bind_Ok in H as (? & _ & H).
  injection H as <- _. by apply (keeps_removeSelf h h1 obj).
Qed.

Lemma keeps_placeObject (h h' : Heap) self obj x :
  tree_inv h → placeObjectInContainer h self obj = Ok (h', x) → keeps h h'.
Proof.
  intros Hinv H. unfold placeObjectInContainer in H.
  apply bind_Ok in H as (s & _ & H). apply bind_Ok in H as (o & _ & H).
  repeat (match type of H with
          | (if ?b then _ else _) = Ok _ => destruct b
          end; [injection H as <- _; apply keeps_refl|]).
  apply bind_Ok in H as (h1 & H1 & H). apply bind_Ok in H as (? & _ & H).
  apply bind_Ok in H as (? & _ & H). apply bind_Ok in H as (? & _ & H).
  injection H as <- _. by apply (keeps_addObject h h1 self obj).
Qed.

Lemma asContainer_inv (h : Heap) self s :
  asContainer h self = Ok s → h !! self = Some s.
Proof.
  unfold asContainer. intros H. apply bind_Ok in H as (s' & Hs%getObj_Ok & H).
  destruct (is_Container (cls s')); by simplify_eq.
Qed.

Lemma asDevice_inv (h : Heap) self s :
  asDevice h self = Ok s → h !! self = Some s.
Proof.
  unfold asDevice. intros H. apply bind_Ok in H as (s' & Hs%getObj_Ok & H).
  destruct (is_Device (cls s')); by simplify_eq.
Qed.

Lemma keeps_openContainer (h h' : Heap) self x :
  openContainer h self = Ok (h', x) → keeps h h'.
Proof.
  unfold openContainer. intros H.
  apply bind_Ok in H as (s & Hs%asContainer_inv & H).
  repeat (match type of H with
          | (if ?b then _ else _) = Ok _ => destruct b
          end; [injection H as <- _; apply keeps_refl|]).
  injection H as <- _. by apply (keeps_update h self s).
Qed.

Lemma keeps_closeContainer (h h' : Heap) self x :
  closeContainer h self = Ok (h', x) → keeps h h'.
Proof.
  unfold closeContainer. intros H.
  apply bind_Ok in H as (s & Hs%asContainer_inv & H).
  repeat (match type of H with
          | (if ?b then _ else _) = Ok _ => destruct b
          end; [injection H as <- _; apply keeps_refl|]).
  injection H as <- _. by apply (keeps_update h self s).
Qed.

Lemma keeps_Device_turnOn (h h' : Heap) self x :
  Device_turnOn h self = Ok (h', x) → keeps h h'.
Proof.
  unfold Device_turnOn. intros H.
  apply bind_Ok in H as (s & Hs%asDevice_inv & H).
  destruct (py_eq _ _).
  { apply bind_Ok in H as (? & _ & H). injection H as <- _. apply keeps_refl. }
  apply bind_Ok in H as (isOn & _ & H). destruct (py_truthy isOn).
  { apply bind_Ok in H as (? & _ & H). injection H as <- _. apply keeps_refl. }
  cbv zeta in H. apply bind_Ok in H as (? & _ & H). injection H as <- _.
  by apply (keeps_update h self s).
Qed.

Lemma keeps_Device_turnOff (h h' : Heap) self x :
  Device_turnOff h self = Ok (h', x) → keeps h h'.
Proof.
  unfold Device_turnOff. intros H.
  apply bind_Ok in H as (s & Hs%asDevice_inv & H).
  destruct (py_eq _ _).
  { apply bind_Ok in H as (? & _ & H). injection H as <- _. apply keeps_refl. }
  apply bind_Ok in H as (isOn & _ & H). destruct (negb (py_truthy isOn)).
  { apply bind_Ok in H as (? & _ & H). injection H as <- _. apply keeps_refl. }
  cbv zeta in H. apply bind_Ok in H as (? & _ & H). injection H as <- _.
  by apply (keeps_update h self s).
Qed.

Lemma keeps_turnOn (h h' : Heap) self x :
  turnOn h self = Ok (h', x) → keeps h h'.
Proof.
  unfold turnOn. intros H. apply bind_Ok in H as (c & _ & H).
  destruct c; try done; [|by apply keeps_Device_turnOn in H].
  unfold DishWasher_turnOn in H. apply bind_Ok in H as (s & _ & H).
  apply bind_Ok in H as (isOpen & _ & H). destruct (py_truthy isOpen).
  - injection H as <- _. apply keeps_refl.
  - by apply keeps_Device_turnOn in H.
Qed.

(** Walks down a handler that returned: binds are inverted, tests are
    split, and the calls met on the way stay as hypotheses. *)
Ltac ok_walk H :=
  repeat (first
    [ progress ok_inv H
    | match type of H with
      | (if ?b then _ else _) = Ok _ => destruct b
      | (match ?x with _ => _ end) = Ok _ => destruct x
      end ]).

(** Turns the calls met on the way into [keeps] facts, carrying the
    invariant along. *)
Ltac keeps_step :=
  match goal with
  | Hinv : tree_inv ?h, E : takeObjectFromContainer ?h _ _ = Ok _ |- _ =>
      let K := fresh "K" in
      pose proof (keeps_takeObject _ _ _ _ _ Hinv E) as K; clear E;
      pose proof (keeps_tree_inv _ _ K Hinv)
  | Hinv : tree_inv ?h, E : placeObjectInContainer ?h _ _ = Ok _ |- _ =>
      let K := fresh "K" in
      pose proof (keeps_placeObject _ _ _ _ _ Hinv E) as K; clear E;
      pose proof (keeps_tree_inv _ _ K Hinv)
  | Hinv : tree_inv ?h, E : addObject ?h _ _ = Ok _ |- _ =>
      let K := fresh "K" in
      pose proof (keeps_addObject _ _ _ _ Hinv E) as K; clear E;
      pose proof (keeps_tree_inv _ _ K Hinv)
  | Hinv : tree_inv ?h, E : removeSelfFromContainer ?h _ = Ok _ |- _ =>
      let K := fresh "K" in
      pose proof (keeps_removeSelf _ _ _ Hinv E) as K; clear E;
      pose proof (keeps_tree_inv _ _ K Hinv)
  end.

Ltac keeps_done :=
  repeat keeps_step; simplify_eq; eauto using keeps_refl, keeps_trans.

Lemma keeps_turnOff (h h' : Heap) self x :
  turnOff h self = Ok (h', x) → keeps h h'.
Proof. apply keeps_Device_turnOff. Qed.

Lemma keeps_actionOpen g obj h' x :
  actionOpen g obj = Ok (h', x) → keeps (heap g) h'.
Proof.
  unfold actionOpen. intros H. ok_walk H; simplify_eq;
    eauto using keeps_refl, keeps_openContainer.
Qed.

Lemma keeps_actionClose g obj h' x :
  actionClose g obj = Ok (h', x) → keeps (heap g) h'.
Proof.
  unfold actionClose. intros H. ok_walk H; simplify_eq;
    eauto using keeps_refl, keeps_closeContainer.
Qed.

Lemma keeps_actionTurnOn g obj h' x :
  actionTurnOn g obj = Ok (h', x) → keeps (heap g) h'.
Proof.
  unfold actionTurnOn. intros H. ok_walk H; simplify_eq;
    eauto using keeps_refl, keeps_turnOn.
Qed.

Lemma keeps_actionTurnOff g obj h' x :
  actionTurnOff g obj = Ok (h', x) → keeps (heap g) h'.
Proof.
  unfold actionTurnOff. intros H. ok_walk H; simplify_eq;
    eauto using keeps_refl, keeps_turnOff.
Qed.

Lemma keeps_actionTake g obj h' x :
  tree_inv (heap g) → actionTake g obj = Ok (h', x) → keeps (heap g) h'.
Proof.
  intros Hinv H. unfold actionTake in H. cbv zeta in H.
  ok_walk H; keeps_done.
Qed.

Lemma keeps_actionPut g obj c h' x :
  tree_inv (heap g) → actionPut g obj c = Ok (h', x) → keeps (heap g) h'.
Proof.
  intros Hinv H. unfold actionPut in H. cbv zeta in H.
  ok_walk H; keeps_done.
Qed.

Lemma keeps_actionEat g obj dish h' x :
  tree_inv (heap g) → actionEat g obj dish = Ok (h', x) → keeps (heap g) h'.
Proof.
  intros Hinv H. unfold actionEat in H. cbv zeta in H.
  ok_walk H; try (by keeps_done).
  keeps_step.
  match goal with
  | Ed : getObj ?h1 dish = Ok ?d,
    Ea : addObject (<[dish := ?d']> ?h1) _ _ = Ok _ |- _ =>
      apply getObj_Ok in Ed;
      pose proof (keeps_update h1 dish d d' Ed eq_refl eq_refl) as Kd;
      pose proof (keeps_tree_inv _ _ Kd ltac:(assumption))
  end.
  keeps_done.
Qed.

Lemma ids_below_mono U U' (h : Heap) :
  (U ≤ U')%nat → ids_below U h → ids_below U' h.
Proof. intros HU Hb k o Hk. apply Hb in Hk. lia. Qed.

Lemma ids_below_alloc U (h : Heap) o :
  uuid o = U → ids_below U h → ids_below (S U) (alloc h o).
Proof.
  intros Hu Hb k ok Hk. unfold alloc in Hk. rewrite Hu in Hk.
  destruct (decide (k = U)) as [->|Hne]; [lia|].
  rewrite lookup_insert_ne in Hk by done. apply Hb in Hk. lia.
Qed.

Lemma useWithObject_graph (h h' : Heap) U U' self patient x :
  tree_inv h → ids_below U h →
  useWithObject h U self patient = Ok (h', U', x) →
  tree_inv h' ∧ ids_below U' h'.
Proof.
  intros Hinv Hb H.
  pose proof (ids_below_fresh U h Hb) as HU.
  set (soap := (Soap_init U).1).
  assert (tree_inv (alloc h soap)) as Hinv0
    by (by apply tree_inv_alloc).
  assert (ids_below (S U) (alloc h soap)) as Hb0
    by (by apply ids_below_alloc).
  unfold useWithObject in H.
  change (Soap_init U) with (soap, S U) in H. cbv beta iota in H.
  apply bind_Ok in H as (s & _ & H). apply bind_Ok in H as (p & _ & H).
  destruct (cls s); ok_walk H; simplify_eq; try done;
    match goal with
    | E : addObject (alloc h soap) _ _ = Ok _ |- _ =>
        pose proof (keeps_addObject _ _ _ _ Hinv0 E) as [K1 K2]; by auto
    end.
Qed.

Lemma actionUse_graph g dev patient h' U' x :
  game_ok g → actionUse g dev patient = Ok (h', U', x) →
  tree_inv h' ∧ ids_below U' h'.
Proof.
  intros [Hinv Hb] H. unfold actionUse in H.
  apply bind_Ok in H as (o & _ & H). destruct (py_eq _ _).
  - apply bind_Ok in H as ([[h1 U1] [obs ?]] & E & H). cbv beta iota in H.
    injection H as <- <- _. by apply useWithObject_graph in E.
  - by injection H as <- <- _.
Qed.

Lemma keeps_forM_ {A} (l : list A) (body : Heap → A → result Heap)
    (h h' : Heap) :
  (∀ h x h1, tree_inv h → body h x = Ok h1 → keeps h h1) →
  tree_inv h → forM_ l body h = Ok h' → keeps h h'.
Proof.
  intros Hbody Hinv H.
  apply (forM__invariant (λ s, tree_inv s ∧ keeps h s) l body h h');
    [|done|by split; [|apply keeps_refl]].
  intros s x s1 _ [Hs Ks] Hx. pose proof (Hbody s x s1 Hs Hx) as K.
  split; [by apply (keeps_tree_inv s)|by apply (keeps_trans h s)].
Qed.

Lemma keeps_DishWasher_tick fuel (h h' : Heap) self :
  tree_inv h → DishWasher_tick fuel h self = Ok h' → keeps h h'.
Proof.
  intros Hinv H. unfold DishWasher_tick in H.
  apply bind_Ok in H as (s & Hs%getObj_Ok & H).
  apply bind_Ok in H as (isOpen & _ & H). cbv zeta in H.
  set (s1 := if py_eq isOpen (PyBool true) then _ else s) in H.
  assert (keeps h (<[self := s1]> h)) as K1.
  { apply (keeps_update h self s); [done|..];
      unfold s1; by destruct (py_eq _ _). }
  pose proof (keeps_tree_inv _ _ K1 Hinv) as Hinv1.
  assert ((<[self := s1]> h) !! self = Some s1) as Hs1
    by apply lookup_insert_eq.
  set (h1 := <[self := s1]> h) in *.
  apply bind_Ok in H as (isOn & _ & H).
  destruct (py_eq isOn _); [|by injection H as <-].
  apply bind_Ok in H as (stage & _ & H). apply bind_Ok in H as (n & _ & H).
  set (s2 := if bool_decide (n < 3) then _ else s1) in H.
  assert (keeps h1 (<[self := s2]> h1)) as K2.
  { apply (keeps_update h1 self s1); [done|..];
      unfold s2; by destruct (bool_decide _). }
  pose proof (keeps_tree_inv _ _ K2 Hinv1) as Hinv2.
  assert ((<[self := s2]> h1) !! self = Some s2) as Hs2
    by apply lookup_insert_eq.
  set (h2 := <[self := s2]> h1) in *.
  apply (keeps_trans h h1); [done|]. apply (keeps_trans h1 h2); [done|].
  apply bind_Ok in H as (stage' & _ & H).
  destruct (py_eq stage' (PyInt 2)); [|destruct (py_eq stage' (PyInt 3))].
  - apply bind_Ok in H as (all1 & _ & H).
    apply bind_Ok in H as (classes & _ & H).
    apply bind_Ok in H as (hA & HA & H).
    assert (keeps h2 hA) as KA.
    { destruct (bool_decide (Soap ∈ classes)); [|by injection HA as <-; apply keeps_refl].
      apply bind_Ok in HA as (all2 & _ & HA).
      apply (keeps_forM_ _ _ _ _) in HA; [done| |done].
      intros h0 x h3 Hinv0 Hx. apply bind_Ok in Hx as (o & Ho%getObj_Ok & Hx).
      destruct (bool_decide (cls o = Dish)); injection Hx as <-;
        [by apply (keeps_update h0 x o)|apply keeps_refl]. }
    apply (keeps_trans h2 hA); [done|].
    apply bind_Ok in H as (all3 & _ & H).
    apply (keeps_forM_ _ _ _ _) in H; [done| |by apply (keeps_tree_inv h2)].
    intros h0 x h3 Hinv0 Hx. apply bind_Ok in Hx as (o & _ & Hx).
    destruct (bool_decide (cls o = Soap));
      [by apply keeps_removeSelf in Hx|injection Hx as <-; apply keeps_refl].
  - apply bind_Ok in H as ([h3 ?] & Hoff & H). injection H as <-.
    apply keeps_turnOff in Hoff.
    eapply keeps_trans; [|exact Hoff]. by apply (keeps_update h2 self s2).
  - injection H as <-. apply keeps_refl.
Qed.

Lemma keeps_tick fuel (h h' : Heap) self :
  tree_inv h → tick fuel h self = Ok h' → keeps h h'.
Proof.
  intros Hinv H. unfold tick in H. apply bind_Ok in H as (c & _ & H).
  destruct c; try (injection H as <-; apply keeps_refl).
  by apply keeps_DishWasher_tick in H.
Qed.

Lemma doWorldTick_graph g g' :
  game_ok g → doWorldTick g = Ok g' → game_ok g'.
Proof.
  intros [Hinv Hb] H. unfold doWorldTick in H.
  apply bind_Ok in H as (all & _ & H). apply bind_Ok in H as (h & Hh & H).
  injection H as <-.
  apply (keeps_forM_ _ _ _ _) in Hh as [K1 K2]; [|by eauto using keeps_tick|done].
  split; [by apply K1|by apply K2].
Qed.

Lemma interpret_graph g a g' :
  game_ok g → interpret g a = Ok g' → game_ok g'.
Proof.
  intros Hg H. pose proof Hg as [Hinv Hb]. unfold interpret in H.
  cbv zeta in H.
  repeat case_bool_decide; ok_walk H; subst g'; try exact Hg;
    try (by eapply actionUse_graph);
    match goal with
    | E : _ = Ok (?h, _) |- game_ok _ =>
        assert (keeps (heap g) h) as [K1 K2]
          by eauto using keeps_actionEat, keeps_actionOpen, keeps_actionClose,
               keeps_actionTake, keeps_actionPut, keeps_actionTurnOn,
               keeps_actionTurnOff;
        split; [by apply K1|by apply K2]
    end.
Qed.

Lemma step_action_graph g a g' r :
  game_ok g → step_action g a = Ok (g', r) → game_ok g'.
Proof.
  intros Hg H. unfold step_action in H. cbv zeta in H.
  destruct (dict_get a _) as [actions|].
  - apply bind_Ok in H as (x & _ & H). apply bind_Ok in H as (g1 & Hi & H).
    injection H as <- _. by apply interpret_graph in Hi.
  - by injection H as <- _.
Qed.

Lemma calculateScore_graph g g' :
  calculateScore g = Ok g' → heap g' = heap g ∧ UUID g' = UUID g.
Proof.
  unfold calculateScore. intros H. ok_inv_all.
  case_bool_decide; simplify_eq; done.
Qed.

Lemma step_graph g actionStr g' r :
  game_ok g → step g actionStr = Ok (g', r) → game_ok g'.
Proof.
  intros Hg H. unfold step in H.
  apply bind_Ok in H as ([g1 r1] & H1 & H). cbv beta iota in H.
  apply bind_Ok in H as (g2 & H2 & H).
  apply bind_Ok in H as ([g3 rw] & H3 & H). cbv beta iota in H.
  injection H as <- _.
  apply step_action_graph in H1; [|done].
  apply doWorldTick_graph in H2; [|done].
  unfold step_calculate_score in H3. apply bind_Ok in H3 as (g4 & H4 & H3).
  injection H3 as <- _. apply calculateScore_graph in H4 as [Hh HU].
  destruct H2 as [A B]. split; [by rewrite Hh|by rewrite Hh, HU].
Qed.

(** X13: a turn never breaks the object graph.  If before a call of step
    every child list and every parent link agree, no child is listed twice
    and every uuid is below the counter, then the same holds after the
    handler, the tick of every object and the rescoring, whatever the
    command was. *)
Theorem step_keeps_graph g actionStr g' r :
  game_ok g → step g actionStr = Ok (g', r) → game_ok g'.
Proof. apply step_graph. Qed.

Lemma step_keeps_graph_witness : game_ok (after_step game_running "look").
Proof.
  assert (is_Ok (step game_running "look") = true) as Hok by vm_refl.
  assert (tree_inv_b (heap game_running) = true) as Ht by vm_refl.
  assert (ids_below_b (UUID game_running) (heap game_running) = true) as Hb
    by vm_refl.
  exact (step_keeps_graph _ _ _ _
           (conj (tree_inv_b_sound _ Ht) (ids_below_b_sound _ _ Hb))
           (step_eta _ _ Hok)).
Defined.

(** ** A whole session *)

Lemma constructors_new_at (U : nat) (dishType foodName prefix : string)
    (isDirty : bool) :
  new_at U (Agent_init U) ∧ new_at U (World_init U) ∧
  new_at U (DishWasher_init U) ∧ new_at U (DishSoapBottle_init U) ∧
  new_at U (Food_init foodName U) ∧
  new_at U (Dish_init dishType isDirty foodName prefix U).
Proof.
  unfold new_at. destruct isDirty; repeat split; vm_compute; reflexivity.
Qed.

Lemma alloc_add_graph (h h' : Heap) U r p c :
  tree_inv h → ids_below U h → new_at U r →
  addObject (alloc h r.1) p c = Ok h' →
  tree_inv h' ∧ ids_below r.2 h'.
Proof.
  intros Hinv Hb (HU & Hu & Hp & Hc) H.
  assert (tree_inv (alloc h r.1)) as Hinv0.
  { unfold alloc. rewrite Hu.
    apply tree_inv_alloc; [done|by apply ids_below_fresh|done..]. }
  pose proof (ids_below_alloc U h r.1 Hu Hb) as Hb0.
  destruct (keeps_addObject _ _ _ _ Hinv0 H) as [K1 K2].
  rewrite HU. auto.
Qed.

Lemma initializeWorld_graph d (h h' : Heap) U U' agent w :
  tree_inv h → ids_below U h →
  initializeWorld d h U agent = Ok (h', U', w) →
  tree_inv h' ∧ ids_below U' h'.
Proof.
  intros Hinv Hb H. unfold initializeWorld in H.
  pose proof (constructors_new_at U "" "" "" false) as (_ & HW & _).
  destruct (World_init U) as [world U1]. cbv zeta in H.
  apply bind_Ok in H as (h1 & H1 & H).
  apply (alloc_add_graph h _ U (world, U1)) in H1 as [Hinv1 Hb1]; [|done..].
  cbn [fst snd] in *. clear HW.
  pose proof (constructors_new_at U1 "" "" "" false) as (_ & _ & HW & _).
  destruct (DishWasher_init U1) as [dishwasher U2].
  apply bind_Ok in H as (h2 & H2 & H).
  apply (alloc_add_graph h1 _ U1 (dishwasher, U2)) in H2 as [Hinv2 Hb2];
    [|done..].
  cbn [fst snd] in *. clear HW.
  pose proof (constructors_new_at U2 "" "" "" false) as (_ & _ & _ & HW & _).
  destruct (DishSoapBottle_init U2) as [bottle U3].
  apply bind_Ok in H as (h3 & H3 & H).
  apply (alloc_add_graph h2 _ U2 (bottle, U3)) in H3 as [Hinv3 Hb3]; [|done..].
  cbn [fst snd] in *. clear HW.
  apply bind_Ok in H as ([h4 U4] & H4 & H). cbv beta iota in H.
  apply bind_Ok in H as ([h5 U5] & H5 & H). cbv beta iota in H.
  apply bind_Ok in H as ([h6 U6] & H6 & H). cbv beta iota in H.
  injection H as <- <- _.
  set (P := λ s : Heap * nat, tree_inv s.1 ∧ ids_below s.2 s.1).
  assert (P (h4, U4)) as P4.
  { apply (forM__invariant P _ _ _ _) in H4; [done| |done].
    intros [h0 U0] i [h7 U7] _ [Hi0 Hb0] Hx. cbv beta iota in Hx.
    apply bind_Ok in Hx as (dishType & _ & Hx).
    apply bind_Ok in Hx as (foodName & _ & Hx).
    apply bind_Ok in Hx as (prefix & _ & Hx).
    pose proof (constructors_new_at U0 dishType foodName prefix true)
      as (_ & _ & _ & _ & _ & HD).
    destruct (Dish_init dishType true foodName prefix U0) as [dish U8].
    apply bind_Ok in Hx as (h8 & H8 & Hx). injection Hx as <- <-.
    by apply (alloc_add_graph h0 _ U0 (dish, U8)) in H8. }
  assert (P (h5, U5)) as P5.
  { apply (forM__invariant P _ _ _ _) in H5; [done| |done].
    intros [h0 U0] i [h7 U7] _ [Hi0 Hb0] Hx. cbv beta iota in Hx.
    apply bind_Ok in Hx as (dishType & _ & Hx).
    pose proof (constructors_new_at U0 dishType "" "in" false)
      as (_ & _ & _ & _ & _ & HD).
    destruct (Dish_init dishType false "" "in" U0) as [dish U8].
    apply bind_Ok in Hx as (h8 & H8 & Hx). injection Hx as <- <-.
    by apply (alloc_add_graph h0 _ U0 (dish, U8)) in H8. }
  apply (forM__invariant P _ _ _ _) in H6; [done| |done].
  intros [h0 U0] i [h7 U7] _ [Hi0 Hb0] Hx. cbv beta iota in Hx.
  apply bind_Ok in Hx as (foodName & _ & Hx).
  pose proof (constructors_new_at U0 "" foodName "" false)
    as (_ & _ & _ & _ & HF & _).
  destruct (Food_init foodName U0) as [food U8].
  apply bind_Ok in Hx as (h8 & H8 & Hx). injection Hx as <- <-.
  by apply (alloc_add_graph h0 _ U0 (food, U8)) in H8.
Qed.

Lemma tree_inv_empty : tree_inv (∅ : Heap).
Proof. split; intros *; by rewrite lookup_empty. Qed.

Lemma generatePossibleActions_graph g g' :
  generatePossibleActions g = Ok g' → heap g' = heap g ∧ UUID g' = UUID g.
Proof.
  unfold generatePossibleActions. intros H.
  repeat (match type of H with
          | mbind _ ?m = Ok _ =>
              let E := fresh "E" in
              destruct m eqn:E; simpl in H; [clear E|discriminate H]
          end).
  by simplify_eq.
Qed.

Lemma TextGame_init_graph d g : TextGame_init d = Ok g → game_ok g.
Proof.
  intros H. unfold TextGame_init in H. cbv zeta in H.
  pose proof (constructors_new_at 0 "" "" "" false) as (HA & _).
  destruct (Agent_init 0) as [a U1].
  apply bind_Ok in H as ([[h U] root] & Hi & H). cbv beta iota in H.
  apply bind_Ok in H as (obs & _ & H). apply bind_Ok in H as (g1 & Hc & H).
  apply calculateScore_graph in Hc as [Hh HU].
  apply generatePossibleActions_graph in H as [Hh' HU'].
  unfold game_ok. rewrite Hh', HU', Hh, HU. cbn [heap UUID set_observationStr].
  destruct HA as (HU1 & Hu & Hp & Hc). cbn [fst snd] in *. subst U1.
  apply (initializeWorld_graph d (alloc ∅ a) h 1 U (uuid a) root); [| |done].
  - unfold alloc. apply tree_inv_alloc; [apply tree_inv_empty|done..].
  - apply (ids_below_alloc 0 ∅ a Hu). by intros k o; rewrite lookup_empty.
Qed.

Lemma play_graph g actionStrs g' :
  game_ok g → play g actionStrs = Ok g' → game_ok g'.
Proof.
  unfold play. revert g. induction actionStrs as [|a l IH]; intros g Hg H.
  - simpl in H. by simplify_eq.
  - cbn [forM_] in H. apply bind_Ok in H as (g1 & Ht & H).
    apply (IH g1); [|done]. apply bind_Ok in Ht as ([g2 r2] & Ht & Hg1).
    simplify_eq. unfold turn in Ht.
    apply bind_Ok in Ht as ([g3 r3] & Hs & Ht).
    apply bind_Ok in Ht as (g4 & Hgen & Ht). simplify_eq.
    apply generatePossibleActions_graph in Hgen as [Hh HU].
    apply step_graph in Hs; [|done]. destruct Hs as [A B].
    split; [by rewrite Hh|by rewrite Hh, HU].
Qed.

(** X14: in every state a session can reach, from a new game with any
    draws of the random generator and through any commands, the object
    graph is well-formed: child lists and parent links agree, no child is
    listed twice, every uuid is below the counter, and no object is in the
    child lists of two different containers. *)
Theorem session_graph_well_formed d actionStrs g0 g :
  TextGame_init d = Ok g0 → play g0 actionStrs = Ok g →
  game_ok g ∧
  ∀ p1 p2 o1 o2 c,
    heap g !! p1 = Some o1 → heap g !! p2 = Some o2 →
    c ∈ contains o1 → c ∈ contains o2 → p1 = p2.
Proof.
  intros H0 H. apply TextGame_init_graph in H0.
  apply (play_graph g0 actionStrs g H0) in H. split; [done|].
  destruct H as [Hinv _]. intros p1 p2 o1 o2 c H1 H2 Hc1 Hc2.
  destruct (inv_child _ Hinv p1 o1 c H1 Hc1) as (oc & Hoc & Hp1).
  destruct (inv_child _ Hinv p2 o2 c H2 Hc2) as (oc' & Hoc' & Hp2).
  congruence.
Qed.

Lemma game0_init : TextGame_init draws0 = Ok game0.
Proof. vm_refl. Qed.

Lemma session_graph_well_formed_witness :
  game_ok (game_of (play game0 load_and_start)).
Proof.
  assert (is_Ok (play game0 load_and_start) = true) as H1 by vm_refl.
  exact (proj1 (session_graph_well_formed draws0 load_and_start _ _
                  game0_init (game_of_eta _ H1))).
Defined.

(** ** The guards of put and eat *)

(** C10, amended: the put handler tests the destination before the
    inventory.  A destination whose isContainer property is False gives
    "You can't put things in the ...", whether or not the object is held;
    for every other destination an object that is not a direct child of
    the agent gives "You don't currently have the ... in your inventory.".
    The eat handler tests the inventory first, before it looks at the
    dish, and gives the same observation.  None of these paths changes the
    object graph. *)
Theorem put_and_eat_guards g obj dst dish o c ro rc :
  heap g !! obj = Some o → heap g !! dst = Some c →
  referent0 o = Ok ro → referent0 c = Ok rc →
  (py_eq (getProperty c "isContainer") (PyBool false) = true →
   actionPut g obj dst
   = Ok (heap g, "You can't put things in the " +:+ rc +:+ ".")) ∧
  (py_eq (getProperty c "isContainer") (PyBool false) = false →
   parentContainer o ≠ Some (agent g) →
   actionPut g obj dst
   = Ok (heap g,
         "You don't currently have the " +:+ ro +:+ " in your inventory.")) ∧
  (parentContainer o ≠ Some (agent g) →
   actionEat g obj dish
   = Ok (heap g,
         "You don't currently have the " +:+ ro +:+ " in your inventory.")).
Proof.
  intros Ho Hc Hro Hrc. split_and!.
  - intros Hf. unfold actionPut. cbv zeta. rewrite (getObj_Some _ _ _ Hc).
    cbn [mbind result_bind]. rewrite Hf, Hrc. done.
  - intros Hf Hpar. unfold actionPut. cbv zeta.
    rewrite (getObj_Some _ _ _ Hc). cbn [mbind result_bind]. rewrite Hf.
    rewrite (getObj_Some _ _ _ Ho). cbn [mbind result_bind].
    rewrite bool_decide_eq_false_2 by done. cbn [negb]. rewrite Hro. done.
  - intros Hpar. unfold actionEat. cbv zeta.
    rewrite (getObj_Some _ _ _ Ho). cbn [mbind result_bind].
    rewrite bool_decide_eq_false_2 by done. cbn [negb]. rewrite Hro. done.
Qed.

Lemma put_and_eat_guards_witness :
  actionPut session0 8 3
  = Ok (heap session0,
        "You can't put things in the bottle of dish soap (ID: 3).") ∧
  actionEat session0 8 7
  = Ok (heap session0,
        "You don't currently have the pizza (ID: 8) in your inventory.").
Proof.
  assert (heap session0 !! 8%nat = Some pizza0) as H8 by vm_refl.
  assert (heap session0 !! 3%nat = Some bottle0) as H3 by vm_refl.
  assert (referent0 pizza0 = Ok "pizza (ID: 8)") as Hr8 by vm_refl.
  assert (referent0 bottle0 = Ok "bottle of dish soap (ID: 3)") as Hr3
    by vm_refl.
  assert (py_eq (getProperty bottle0 "isContainer") (PyBool false) = true)
    as Hf by vm_refl.
  assert (parentContainer pizza0 ≠ Some (agent session0)) as Hp.
  { assert (parentContainer pizza0 = Some 1%nat) as -> by vm_refl.
    assert (agent session0 = 0%nat) as -> by vm_refl. done. }
  destruct (put_and_eat_guards session0 8 3 7 pizza0 bottle0 _ _ H8 H3 Hr8 Hr3)
    as (H1 & _ & H2).
  split; [exact (H1 Hf) | exact (H2 Hp)].
Defined.

(** C10, the claim as it is written, fails: in a new game the pizza is in
    the kitchen, not in the inventory, and the dispatched command to put it
    in the bottle of dish soap is answered with the sentence about the
    destination, not with the sentence about the inventory. *)
Lemma put_names_the_destination_first :
  parentContainer pizza0 ≠ Some (agent game0) ∧
  heap game0 !! 8%nat = Some pizza0 ∧
  ∃ g' sc rw over won,
    step game0 "put pizza (ID: 8) in bottle of dish soap (ID: 3)"
    = Ok (g', ("You can't put things in the bottle of dish soap (ID: 3).",
               sc, rw, over, won)).
Proof.
  assert (parentContainer pizza0 = Some 1%nat) as Hp by vm_refl.
  assert (agent game0 = 0%nat) as Ha by vm_refl.
  assert (heap game0 !! 8%nat = Some pizza0) as H8 by vm_refl.
  assert (is_Ok (step game0 "put pizza (ID: 8) in bottle of dish soap (ID: 3)")
          = true) as Hok by vm_refl.
  assert ((step_out game0
             "put pizza (ID: 8) in bottle of dish soap (ID: 3)").1.1.1.1
          = "You can't put things in the bottle of dish soap (ID: 3).")
    as Hobs by vm_refl.
  split_and!; [by rewrite Hp, Ha|exact H8|].
  pose proof (step_eta _ _ Hok) as Hstep.
  rewrite (step_result_eta (step_out _ _)) in Hstep. rewrite Hobs in Hstep.
  eexists _, _, _, _, _. exact Hstep.
Qed.

(** ** A put whose insertion fails *)

Lemma placeObjectInContainer_refuses (h : Heap) self obj s o :
  h !! self = Some s → is_Container (cls s) = true → h !! obj = Some o →
  py_eq (getProperty o "isMoveable") (PyBool true) = true →
  negb (py_eq (getProperty s "isContainer") (PyBool true))
  || negb (py_eq (getProperty s "isOpen") (PyBool true)) = true →
  placeObjectInContainer h self obj = Ok (h, Tuple2 (place_refusal s) false).
Proof.
  intros Hs Hc Ho H2 Hf. unfold placeObjectInContainer, place_refusal.
  rewrite (asContainer_Ok h self s Hs Hc), (getObj_Some h obj o Ho).
  cbn [mbind result_bind]. rewrite H2.
  destruct (py_eq (getProperty s "isContainer") (PyBool true)); [|done].
  cbn [negb orb] in Hf. by rewrite Hf.
Qed.

(** C2: the put handler works in two phases and rolls back.  For every
    call that reaches the second phase (the destination's isContainer is
    not False, the object is held, and the inventory lets it go), the
    object is first taken out of the inventory and has no parent; when the
    destination then refuses it, because its isContainer is not True or
    because it is closed, nothing further has changed, the handler puts
    the object back into the inventory and returns the destination's
    sentence.  Afterwards the object is in the child list of the agent and
    of no other object, every parent pointer and every property bag is as
    before, and the inventory is the old one with the object moved to its
    end. *)
Theorem actionPut_rolls_back g obj dst o a c r :
  tree_inv (heap g) →
  heap g !! obj = Some o → parentContainer o = Some (agent g) →
  heap g !! agent g = Some a → is_Container (cls a) = true →
  py_eq (getProperty a "isContainer") (PyBool true) = true →
  py_eq (getProperty a "isOpen") (PyBool true) = true →
  py_eq (getProperty o "isMoveable") (PyBool true) = true →
  referent0 o = Ok r →
  heap g !! dst = Some c → is_Container (cls c) = true →
  py_eq (getProperty c "isContainer") (PyBool false) = false →
  negb (py_eq (getProperty c "isContainer") (PyBool true))
  || negb (py_eq (getProperty c "isOpen") (PyBool true)) = true →
  ∃ h1 obs1 h',
    takeObjectFromContainer (heap g) (agent g) obj
    = Ok (h1, (obs1, Some obj, true)) ∧
    parentContainer <$> h1 !! obj = Some None ∧
    placeObjectInContainer h1 dst obj
    = Ok (h1, Tuple2 (place_refusal c) false) ∧
    addObject h1 (agent g) obj = Ok h' ∧
    actionPut g obj dst = Ok (h', place_refusal c) ∧
    tree_inv h' ∧
    (∀ p op, h' !! p = Some op → obj ∈ contains op ↔ p = agent g) ∧
    (∀ k, parentContainer <$> h' !! k = parentContainer <$> heap g !! k) ∧
    (∀ k, properties <$> h' !! k = properties <$> heap g !! k) ∧
    (∀ k, k ≠ agent g → contains <$> h' !! k = contains <$> heap g !! k) ∧
    contains <$> h' !! agent g
    = Some (filter (λ y, y ≠ obj) (contains a) ++ [obj]).
Proof.
  intros Hinv Ho Hpar Ha Hca Ha1 Ha2 Hm Hr Hc Hcc Hc1 Hc2.
  destruct (inv_parent _ Hinv obj o _ Ho Hpar) as (a' & Ha' & Hin).
  assert (a' = a) as -> by congruence.
  destruct (takeObjectFromContainer_succeeds (heap g) (agent g) obj a o r
              Hinv Ha Hca Ho) as [_ Htake]; [|done|].
  { apply orb4_false; [done..|]. by apply bool_decide_eq_true. }
  pose proof (tree_inv_reparent (heap g) obj o None Hinv Ho) as Hinv1.
  rewrite Hpar in Hinv1. specialize (Hinv1 ltac:(done)).
  set (h1 := reparent_all obj (Some (agent g)) None (heap g)) in *.
  assert (h1 !! obj = Some (reparent obj (Some (agent g)) None obj o)) as Ho1
    by (unfold h1; by rewrite lookup_reparent_all, Ho).
  assert (h1 !! dst = Some (reparent obj (Some (agent g)) None dst c)) as Hc'
    by (unfold h1; by rewrite lookup_reparent_all, Hc).
  assert (h1 !! agent g = Some (reparent obj (Some (agent g)) None (agent g) a))
    as Ha1' by (unfold h1; by rewrite lookup_reparent_all, Ha).
  pose proof (placeObjectInContainer_refuses h1 dst obj _ _ Hc' Hcc Ho1 Hm
                Hc2) as Hplace.
  pose proof (addObject_spec h1 (agent g) obj _ Hinv1 Ho1 ltac:(eauto))
    as Hadd.
  rewrite parent_reparent, decide_True in Hadd by done.
  pose proof (reparent_all_compose (heap g) obj o None (Some (agent g)) Hinv Ho)
    as Hcomp.
  rewrite Hpar in Hcomp. fold h1 in Hcomp. rewrite Hcomp in Hadd.
  set (h' := reparent_all obj (Some (agent g)) (Some (agent g)) (heap g)) in *.
  pose proof (λ k, reparent_all_facts (heap g) obj o (Some (agent g)) k Hinv Ho)
    as Hfacts.
  cbv zeta in Hfacts. rewrite Hpar in Hfacts. fold h' in Hfacts.
  assert (tree_inv h') as Hinv'.
  { pose proof (tree_inv_reparent (heap g) obj o (Some (agent g)) Hinv Ho)
      as Hi.
    rewrite Hpar in Hi. apply Hi. intros ? [= <-]. eauto. }
  assert (contains <$> h' !! agent g
          = Some (filter (λ y, y ≠ obj) (contains a) ++ [obj])) as Hlist.
  { destruct (Hfacts (agent g)) as (_ & _ & _ & _ & _ & _ & H & _).
    rewrite H by done. by rewrite Ha. }
  eexists h1, _, h'. split; [exact Htake|].
  split.
  { rewrite Ho1. cbn [fmap option_fmap option_map].
    by rewrite parent_reparent, decide_True. }
  split; [exact Hplace|].
  split; [exact Hadd|]. split.
  { unfold actionPut. cbv zeta. rewrite (getObj_Some _ _ _ Hc).
    cbn [mbind result_bind]. rewrite Hc1.
    rewrite (getObj_Some _ _ _ Ho). cbn [mbind result_bind].
    rewrite bool_decide_eq_true_2 by done. cbn [negb].
    rewrite Hpar. cbn [of_option mbind result_bind].
    rewrite Htake. cbn [mbind result_bind].
    rewrite bool_decide_eq_false_2 by done.
    rewrite Hplace. cbn [mbind result_bind unpack2].
    rewrite bool_decide_eq_true_2 by done. rewrite Hadd. done. }
  split; [exact Hinv'|]. split_and!.
  - intros p op Hp. split.
    + intros Hin'.
      destruct (inv_child h' Hinv' p op obj Hp Hin') as (oc & Hoc & Hpc).
      destruct (Hfacts obj) as (_ & _ & _ & _ & H2 & _).
      rewrite Hoc in H2. simplify_eq/=. congruence.
    + intros ->. rewrite Hp in Hlist. simplify_eq/=. rewrite Hlist.
      apply elem_of_app. right. by left.
  - intros k. destruct (Hfacts k) as (_ & _ & _ & H1 & H2 & _).
    destruct (decide (k = obj)) as [->|Hne]; [|by apply H1].
    by rewrite H2, Ho, <- Hpar.
  - intros k. destruct (Hfacts k) as (H & _). exact H.
  - intros k Hk. destruct (Hfacts k) as (_ & _ & _ & _ & _ & H & _).
    apply H; congruence.
  - exact Hlist.
Qed.

Lemma actionPut_rolls_back_witness :
  ∃ h',
    actionPut session_pizza 8 2 = Ok (h', place_refusal dishwasher1) ∧
    tree_inv h' ∧
    contains <$> h' !! agent session_pizza
    = Some (filter (λ y, y ≠ 8%nat) (contains agent1) ++ [8%nat]).
Proof.
  assert (heap session_pizza !! 8%nat = Some pizza1) as H8 by vm_refl.
  assert (parentContainer pizza1 = Some (agent session_pizza)) as Hp
    by vm_refl.
  assert (heap session_pizza !! agent session_pizza = Some agent1) as H0
    by vm_refl.
  assert (is_Container (cls agent1) = true) as Hca by vm_refl.
  assert (py_eq (getProperty agent1 "isContainer") (PyBool true) = true)
    as Ha1 by vm_refl.
  assert (py_eq (getProperty agent1 "isOpen") (PyBool true) = true)
    as Ha2 by vm_refl.
  assert (heap session_pizza !! 2%nat = Some dishwasher1) as H2 by vm_refl.
  assert (is_Container (cls dishwasher1) = true) as Hcd by vm_refl.
  assert (py_eq (getProperty dishwasher1 "isContainer") (PyBool false) = false)
    as Hd0 by vm_refl.
  assert (negb (py_eq (getProperty dishwasher1 "isContainer") (PyBool true))
          || negb (py_eq (getProperty dishwasher1 "isOpen") (PyBool true))
          = true) as Hd2 by vm_refl.
  assert (py_eq (getProperty pizza1 "isMoveable") (PyBool true) = true)
    as Hm by vm_refl.
  assert (referent0 pizza1 = Ok "pizza (ID: 8)") as Hr by vm_refl.
  destruct (actionPut_rolls_back session_pizza 8 2 pizza1 agent1
              dishwasher1 "pizza (ID: 8)" world_pizza_tree_inv H8 Hp H0 Hca
              Ha1 Ha2 Hm Hr H2 Hcd Hd0 Hd2)
    as (h1 & obs1 & h' & _ & _ & _ & _ & Hput & Hi & _ & _ & _ & _ & Hc).
  exists h'. split_and!; [exact Hput|exact Hi|exact Hc].
Defined.

(** ** The traversal *)

Lemma flat_mapM_Ok {A B} (f : A → result (list B)) (l : list A) (L : list B) :
  flat_mapM f l = Ok L →
  (∀ c, c ∈ l → ∃ a, f c = Ok a) ∧
  (∀ x, x ∈ L ↔ ∃ c a, c ∈ l ∧ f c = Ok a ∧ x ∈ a).
Proof.
  revert L. induction l as [|c l IH]; intros L H.
  - simpl in H. injection H as <-. split.
    + by intros c ?%elem_of_nil.
    + intros x. split; [by intros ?%elem_of_nil|].
      by intros (c & a & ?%elem_of_nil & _).
  - cbn [flat_mapM] in H. apply bind_Ok in H as (a & Ha & H).
    apply bind_Ok in H as (b & Hb & H). injection H as <-.
    destruct (IH b Hb) as [IH1 IH2]. split.
    + intros c' [->|Hc']%elem_of_cons; [eauto|by apply IH1].
    + intros x. rewrite elem_of_app, IH2. split.
      * intros [Hx|(c' & a' & Hc' & Ha' & Hx)].
        -- exists c, a. split; [left|done].
        -- exists c', a'. split; [by right|done].
      * intros (c' & a' & [->|Hc']%elem_of_cons & Ha' & Hx).
        -- left. congruence.
        -- right. eauto.
Qed.

Lemma flat_mapM_NoDup {A B} (f : A → result (list B)) (l : list A)
    (L : list B) :
  flat_mapM f l = Ok L → NoDup l →
  (∀ c a, c ∈ l → f c = Ok a → NoDup a) →
  (∀ c1 c2 a1 a2 x, c1 ∈ l → c2 ∈ l → c1 ≠ c2 →
     f c1 = Ok a1 → f c2 = Ok a2 → x ∈ a1 → x ∈ a2 → False) →
  NoDup L.
Proof.
  revert L. induction l as [|c l IH]; intros L H Hnd Hin Hdis.
  - simpl in H. injection H as <-. apply NoDup_nil_2.
  - cbn [flat_mapM] in H. apply bind_Ok in H as (a & Ha & H).
    apply bind_Ok in H as (b & Hb & H). injection H as <-.
    apply NoDup_cons in Hnd as [Hc Hnd].
    apply NoDup_app. split_and!.
    + apply (Hin c); [left|done].
    + intros x Hxa Hxb.
      apply (proj2 (flat_mapM_Ok f l b Hb)) in Hxb
        as (c' & a' & Hc' & Ha' & Hx').
      apply (Hdis c c' a a' x); [left|by right|congruence|done..].
    + apply IH; [done..| |].
      * intros c' a' Hc'. apply Hin. by right.
      * intros c1 c2 a1 a2 x H1 H2. apply Hdis; by right.
Qed.

(** one level of the traversal *)
Lemma traversal_unfold fuel (h : Heap) self L :
  getAllContainedObjectsRecursive (S fuel) h self = Ok L →
  ∃ s, h !! self = Some s ∧
    (∀ c, c ∈ contains s →
          ∃ Lc, getAllContainedObjectsRecursive fuel h c = Ok Lc) ∧
    (∀ k, k ∈ L ↔
          ∃ c Lc, c ∈ contains s ∧
                  getAllContainedObjectsRecursive fuel h c = Ok Lc ∧
                  (k = c ∨ k ∈ Lc)).
Proof.
  intros H. cbn [getAllContainedObjectsRecursive] in H.
  apply bind_Ok in H as (s & Hs%getObj_Ok & H). exists s. split; [done|].
  apply flat_mapM_Ok in H as [H1 H2]. split.
  - intros c Hc. destruct (H1 c Hc) as (a & Ha).
    apply bind_Ok in Ha as (Lc & HLc & _). eauto.
  - intros k. rewrite H2. split.
    + intros (c & a & Hc & Ha & Hk).
      apply bind_Ok in Ha as (Lc & HLc & Ha). injection Ha as <-.
      exists c, Lc. split_and!; [done..|]. by apply elem_of_cons in Hk.
    + intros (c & Lc & Hc & HLc & Hk). exists c, (c :: Lc).
      split_and!; [done| |by apply elem_of_cons].
      by rewrite HLc.
Qed.

Lemma descendant_below (h : Heap) x c k :
  child_of h c x → descendant h c k → descendant h x k.
Proof.
  intros Hc Hk. induction Hk as [k Hk|k p _ IH Hk].
  - apply (desc_step h x k c); [by apply desc_child|done].
  - by apply (desc_step h x k p).
Qed.

Lemma descendant_first (h : Heap) x k :
  descendant h x k → ∃ c, child_of h c x ∧ (k = c ∨ descendant h c k).
Proof.
  intros Hk. induction Hk as [k Hk|k p _ (c & Hc & IH) Hk].
  - exists k. by split; [|left].
  - exists c. split; [done|]. right. destruct IH as [->|IH].
    + by apply desc_child.
    + by apply (desc_step h c k p).
Qed.

(** The traversal of an object that is below itself does not return. *)
Lemma traversal_cycle fuel (h : Heap) x L :
  descendant h x x → getAllContainedObjectsRecursive fuel h x = Ok L → False.
Proof.
  revert x L. induction fuel as [|fuel IH]; intros x L Hx H; [done|].
  apply traversal_unfold in H as (s & Hs & Hsub & _).
  apply descendant_first in Hx as (c & (s' & Hs' & Hc) & Hx).
  assert (s' = s) as -> by congruence.
  destruct (Hsub c Hc) as (Lc & HLc).
  apply (IH c Lc); [|done].
  assert (child_of h c x) as Hcx by (by exists s).
  destruct Hx as [->|Hx]; [by apply desc_child|].
  by apply (desc_step h c c x).
Qed.

Lemma traversal_elem fuel (h : Heap) self L k :
  getAllContainedObjectsRecursive fuel h self = Ok L →
  k ∈ L ↔ descendant h self k.
Proof.
  revert self L k. induction fuel as [|fuel IH]; intros self L k H; [done|].
  apply traversal_unfold in H as (s & Hs & Hsub & HL). split.
  - intros (c & Lc & Hc & HLc & Hk)%HL.
    assert (child_of h c self) as Hcs by (by exists s).
    destruct Hk as [->|Hk]; [by apply desc_child|].
    apply (descendant_below h self c k Hcs). by apply (IH c Lc).
  - intros Hk. apply descendant_first in Hk as (c & (s' & Hs' & Hc) & Hk).
    assert (s' = s) as -> by congruence.
    destruct (Hsub c Hc) as (Lc & HLc).
    apply HL. exists c, Lc. split_and!; [done..|].
    destruct Hk as [->|Hk]; [by left|right]. by apply (IH c Lc).
Qed.

Lemma child_of_parent (h : Heap) k p1 p2 :
  tree_inv h → child_of h k p1 → child_of h k p2 → p1 = p2.
Proof.
  intros Hinv (o1 & H1 & Hk1) (o2 & H2 & Hk2).
  destruct (inv_child h Hinv p1 o1 k H1 Hk1) as (ok & Hok & Hp1).
  destruct (inv_child h Hinv p2 o2 k H2 Hk2) as (ok' & Hok' & Hp2).
  congruence.
Qed.

(** With one parent per object, the objects above [k] form a chain. *)
Lemma descendant_chain (h : Heap) a b k :
  tree_inv h → descendant h a k → descendant h b k →
  a = b ∨ descendant h a b ∨ descendant h b a.
Proof.
  intros Hinv Ha. revert b. induction Ha as [k Hk|k p Hp IH Hk]; intros b Hb.
  - inversion Hb as [? Hkb|? p' Hp' Hkb]; subst.
    + left. by apply (child_of_parent h k).
    + assert (p' = a) as -> by (by apply (child_of_parent h k)).
      right. by right.
  - inversion Hb as [? Hkb|? p' Hp' Hkb]; subst.
    + assert (b = p) as -> by (by apply (child_of_parent h k)).
      right. by left.
    + assert (p' = p) as -> by (by apply (child_of_parent h k)).
      by apply IH.
Qed.

(** Two children of one object whose traversals return are not below one
    another. *)
Lemma sibling_not_below fuel fuel' (h : Heap) x c1 c2 L L2 :
  tree_inv h → child_of h c1 x → child_of h c2 x →
  getAllContainedObjectsRecursive fuel h x = Ok L →
  getAllContainedObjectsRecursive fuel' h c2 = Ok L2 →
  descendant h c2 c1 → False.
Proof.
  intros Hinv H1 H2 HL HL2 Hd.
  inversion Hd as [? Hc|? p Hp Hc]; subst.
  - assert (c2 = x) as -> by (by apply (child_of_parent h c1)).
    apply (traversal_cycle fuel h x L); [by apply desc_child|done].
  - assert (p = x) as -> by (by apply (child_of_parent h c1)).
    apply (traversal_cycle fuel' h c2 L2); [|done].
    by apply (desc_step h c2 c2 x).
Qed.

Lemma traversal_NoDup fuel (h : Heap) self L :
  tree_inv h → getAllContainedObjectsRecursive fuel h self = Ok L → NoDup L.
Proof.
  intros Hinv. revert self L.
  induction fuel as [|fuel IH]; intros self L H; [done|].
  pose proof H as H0.
  cbn [getAllContainedObjectsRecursive] in H.
  apply bind_Ok in H as (s & Hs%getObj_Ok & H).
  assert (∀ c, c ∈ contains s → child_of h c self) as Hch
    by (intros c Hc; by exists s).
  apply (flat_mapM_NoDup _ _ _ H).
  - by apply (inv_nodup h Hinv self).
  - intros c a Hc Ha. apply bind_Ok in Ha as (Lc & HLc & Ha).
    injection Ha as <-. apply NoDup_cons. split; [|by apply (IH c)].
    intros Hin. apply (traversal_elem fuel h c Lc c HLc) in Hin.
    by apply (traversal_cycle fuel h c Lc).
  - intros c1 c2 a1 a2 k Hc1 Hc2 Hne Ha1 Ha2 Hk1 Hk2.
    apply bind_Ok in Ha1 as (L1 & HL1 & Ha1). injection Ha1 as <-.
    apply bind_Ok in Ha2 as (L2 & HL2 & Ha2). injection Ha2 as <-.
    apply elem_of_cons in Hk1 as [->|Hk1];
      apply elem_of_cons in Hk2 as [Heq|Hk2]; try done.
    + apply (traversal_elem fuel h c2 L2 c1 HL2) in Hk2.
      by apply (sibling_not_below (S fuel) fuel h self c1 c2 L L2); auto.
    + subst k. apply (traversal_elem fuel h c1 L1 c2 HL1) in Hk1.
      by apply (sibling_not_below (S fuel) fuel h self c2 c1 L L1); auto.
    + apply (traversal_elem fuel h c1 L1 k HL1) in Hk1.
      apply (traversal_elem fuel h c2 L2 k HL2) in Hk2.
      destruct (descendant_chain h c1 c2 k Hinv Hk1 Hk2) as [?|[Hd|Hd]];
        [done| |].
      * by apply (sibling_not_below (S fuel) fuel h self c2 c1 L L1); auto.
      * by apply (sibling_not_below (S fuel) fuel h self c1 c2 L L2); auto.
Qed.

(** X15: when getAllContainedObjectsRecursive returns, its list holds
    exactly the objects below the receiver (its children, their children,
    and so on) and never the receiver itself; in a well-formed object graph
    it holds each of them once.  So a world tick calls tick once per object
    below the root, and rescoring counts each dish once. *)
Theorem traversal_lists_descendants_once fuel (h : Heap) self L :
  getAllContainedObjectsRecursive fuel h self = Ok L →
  (∀ k, k ∈ L ↔ descendant h self k) ∧ (self ∉ L) ∧ (tree_inv h → NoDup L).
Proof.
  intros H. split_and!.
  - intros k. by apply (traversal_elem fuel).
  - intros Hin. apply (traversal_elem fuel h self L self H) in Hin.
    by apply (traversal_cycle fuel h self L).
  - intros Hinv. by apply (traversal_NoDup fuel h self).
Qed.

Lemma traversal_lists_descendants_once_witness :
  (1%nat ∉ [0; 2; 3; 4; 5; 6; 7; 8]%nat) ∧
  NoDup [0; 2; 3; 4; 5; 6; 7; 8]%nat.
Proof.
  assert (getAllContainedObjectsRecursive recursionLimit world0 1
          = Ok [0; 2; 3; 4; 5; 6; 7; 8]%nat) as H by vm_refl.
  destruct (traversal_lists_descendants_once _ _ _ _ H) as (_ & H1 & H2).
  split; [exact H1 | exact (H2 world0_tree_inv)].
Defined.

(** ** The wash *)





(** ** The game-over flag across sessions and games *)














(** ** Placing and taking *)

(** C7: placeObjectInContainer refuses, with a sentence and without touching
    the object graph, when the receiver's isContainer is not True, when the
    object's isMoveable is not True, or when the receiver's isOpen is not
    True; otherwise it moves the object to the end of the receiver's child
    list and returns "The ... is placed in the ...".
    takeObjectFromContainer makes the same three tests and also refuses an
    object that is not in the receiver's child list; otherwise it detaches
    the object, which then has no parent, and returns "The ... is removed
    from the ...".  A refusal has the success flag False, a move has it
    True, and the containment invariant is kept. *)
Theorem place_and_take_contract (h : Heap) self obj s o r :
  tree_inv h →
  h !! self = Some s → is_Container (cls s) = true → h !! obj = Some o →
  referent0 o = Ok r →
  (if negb (py_eq (getProperty s "isContainer") (PyBool true))
      || negb (py_eq (getProperty o "isMoveable") (PyBool true))
      || negb (py_eq (getProperty s "isOpen") (PyBool true))
   then ∃ t, placeObjectInContainer h self obj = Ok (h, t) ∧
             tuple_success t = false ∧ tuple_obs t ≠ ""
   else ∃ h', placeObjectInContainer h self obj
              = Ok (h', Tuple2 ("The " +:+ r +:+ " is placed in the " +:+
                                name s +:+ ".") true) ∧
              h' = reparent_all obj (parentContainer o) (Some self) h ∧
              parentContainer <$> h' !! obj = Some (Some self) ∧
              contains <$> h' !! self
              = Some (filter (λ y, y ≠ obj) (contains s) ++ [obj]) ∧
              tree_inv h') ∧
  (if negb (py_eq (getProperty s "isContainer") (PyBool true))
      || negb (py_eq (getProperty o "isMoveable") (PyBool true))
      || negb (py_eq (getProperty s "isOpen") (PyBool true))
      || negb (bool_decide (obj ∈ contains s))
   then ∃ msg, takeObjectFromContainer h self obj
               = Ok (h, (msg, None, false)) ∧ msg ≠ ""
   else ∃ h', takeObjectFromContainer h self obj
              = Ok (h', ("The " +:+ r +:+ " is removed from the " +:+
                         name s +:+ ".", Some obj, true)) ∧
              h' = reparent_all obj (Some self) None h ∧
              parentContainer <$> h' !! obj = Some None ∧
              contains <$> h' !! self
              = Some (filter (λ y, y ≠ obj) (contains s)) ∧
              tree_inv h').
Proof.
  intros Hinv Hs Hc Ho Hr. split.
  - destruct (negb (py_eq (getProperty s "isContainer") (PyBool true))
              || negb (py_eq (getProperty o "isMoveable") (PyBool true))
              || negb (py_eq (getProperty s "isOpen") (PyBool true))) eqn:Hb.
    + by apply (placeObjectInContainer_fails h self obj s o).
    + eexists. split;
        [by apply (placeObjectInContainer_succeeds h self obj s o r)|].
      pose proof (reparent_all_facts h obj o (Some self) self Hinv Ho)
        as (_ & _ & _ & _ & Hp & _ & Hl & _).
      pose proof (reparent_all_facts h obj o (Some self) obj Hinv Ho)
        as (_ & _ & _ & _ & Hp' & _).
      cbv zeta in *. split_and!; [done|exact Hp'| |].
      * rewrite Hl by done. by rewrite Hs.
      * apply tree_inv_reparent; [done..|]. intros ? [= <-]. eauto.
  - destruct (negb (py_eq (getProperty s "isContainer") (PyBool true))
              || negb (py_eq (getProperty o "isMoveable") (PyBool true))
              || negb (py_eq (getProperty s "isOpen") (PyBool true))
              || negb (bool_decide (obj ∈ contains s))) eqn:Hb.
    + by apply (takeObjectFromContainer_fails h self obj s o).
    + destruct (takeObjectFromContainer_succeeds h self obj s o r Hinv Hs Hc
                  Ho Hb Hr) as [Hpar Htake].
      eexists. split; [exact Htake|].
      pose proof (reparent_all_facts h obj o None self Hinv Ho)
        as (_ & _ & _ & _ & _ & _ & _ & Hl).
      pose proof (reparent_all_facts h obj o None obj Hinv Ho)
        as (_ & _ & _ & _ & Hp' & _).
      cbv zeta in *. rewrite Hpar in *. split_and!; [done|exact Hp'| |].
      * rewrite Hl by done. by rewrite Hs.
      * pose proof (tree_inv_reparent h obj o None Hinv Ho) as Hi.
        rewrite Hpar in Hi. by apply Hi.
Qed.

Lemma place_and_take_contract_witness :
  (∃ h', takeObjectFromContainer world0 1 4
         = Ok (h', ("The " +:+ "dirty plate (ID: 4)" +:+ " is removed from the "
                    +:+ name kitchen0 +:+ ".", Some 4%nat, true)) ∧
         parentContainer <$> h' !! 4%nat = Some None) ∧
  (∃ t, placeObjectInContainer world0 2 4 = Ok (world0, t) ∧
        tuple_success t = false).
Proof.
  assert (world0 !! 1%nat = Some kitchen0) as H1 by vm_refl.
  assert (is_Container (cls kitchen0) = true) as Hc1 by vm_refl.
  assert (world0 !! 2%nat = Some dishwasher0) as H2 by vm_refl.
  assert (is_Container (cls dishwasher0) = true) as Hc2 by vm_refl.
  assert (world0 !! 4%nat = Some plate0) as H4 by vm_refl.
  assert (referent0 plate0 = Ok "dirty plate (ID: 4)") as Hr by vm_refl.
  assert (negb (py_eq (getProperty kitchen0 "isContainer") (PyBool true))
          || negb (py_eq (getProperty plate0 "isMoveable") (PyBool true))
          || negb (py_eq (getProperty kitchen0 "isOpen") (PyBool true))
          || negb (bool_decide (4%nat ∈ contains kitchen0)) = false) as Hk
    by vm_refl.
  assert (negb (py_eq (getProperty dishwasher0 "isContainer") (PyBool true))
          || negb (py_eq (getProperty plate0 "isMoveable") (PyBool true))
          || negb (py_eq (getProperty dishwasher0 "isOpen") (PyBool true))
          = true) as Hd by vm_refl.
  pose proof (place_and_take_contract world0 1 4 kitchen0 plate0
                "dirty plate (ID: 4)" world0_tree_inv H1 Hc1 H4 Hr)
    as [_ Htake].
  pose proof (place_and_take_contract world0 2 4 dishwasher0 plate0
                "dirty plate (ID: 4)" world0_tree_inv H2 Hc2 H4 Hr)
    as [Hplace _].
  rewrite Hk in Htake. rewrite Hd in Hplace.
  destruct Htake as (h' & Ht & _ & Hp & _).
  destruct Hplace as (t & Hpl & Hs & _).
  split; [exists h'; split; [exact Ht | exact Hp] | exists t; split; [exact Hpl | exact Hs]].
Defined.

(** ** Sequences of take and put *)

Lemma removeSelf_Ok_inv (h h' : Heap) c :
  tree_inv h → removeSelfFromContainer h c = Ok h' →
  ∃ oc, h !! c = Some oc ∧ h' = reparent_all c (parentContainer oc) None h.
Proof.
  intros Hinv H.
  assert (∃ oc, h !! c = Some oc) as [oc Hc].
  { unfold removeSelfFromContainer in H.
    apply bind_Ok in H as (oc & Hc%getObj_Ok & _). eauto. }
  rewrite (removeSelfFromContainer_spec h c oc Hinv Hc) in H.
  injection H as <-. eauto.
Qed.

Lemma addObject_Ok_inv (h h' : Heap) p c :
  tree_inv h → addObject h p c = Ok h' →
  ∃ oc, h !! c = Some oc ∧ is_Some (h !! p) ∧
        h' = reparent_all c (parentContainer oc) (Some p) h.
Proof.
  intros Hinv H.
  assert (∃ oc, h !! c = Some oc) as [oc Hc].
  { unfold addObject in H. apply bind_Ok in H as (h1 & H1 & _).
    unfold removeSelfFromContainer in H1.
    apply bind_Ok in H1 as (oc & Hc%getObj_Ok & _). eauto. }
  assert (is_Some (h !! p)) as Hp.
  { unfold addObject in H.
    rewrite (removeSelfFromContainer_spec h c oc Hinv Hc) in H.
    cbn [mbind result_bind] in H.
    apply bind_Ok in H as (s & Hs%getObj_Ok & _).
    rewrite lookup_reparent_all in Hs. destruct (h !! p); [eauto|done]. }
  rewrite (addObject_spec h p c oc Hinv Hc Hp) in H. injection H as <-.
  eauto.
Qed.

Lemma same_parents_refl c h : same_parents_but c h h.
Proof. by intros k _. Qed.

Lemma same_parents_trans c h1 h2 h3 :
  same_parents_but c h1 h2 → same_parents_but c h2 h3 →
  same_parents_but c h1 h3.
Proof. intros A B k Hk. by rewrite (B k Hk), (A k Hk). Qed.

Lemma same_parents_reparent c old new (h : Heap) :
  same_parents_but c h (reparent_all c old new h).
Proof.
  intros k Hk. rewrite lookup_reparent_all.
  destruct (h !! k) as [o|]; [|done]. cbn [fmap option_fmap option_map].
  by rewrite parent_reparent, decide_False.
Qed.

Lemma parent_of_reparented c old new (h : Heap) oc :
  reparent_all c old new h !! c = Some oc → parentContainer oc = new.
Proof.
  rewrite lookup_reparent_all. destruct (h !! c) as [o|]; [|done].
  intros [= <-]. by rewrite parent_reparent, decide_True.
Qed.

Lemma takeObject_parents (h h' : Heap) self obj x :
  tree_inv h → takeObjectFromContainer h self obj = Ok (h', x) →
  same_parents_but obj h h' ∧ (x.2 = false → h' = h).
Proof.
  intros Hinv H. unfold takeObjectFromContainer in H.
  apply bind_Ok in H as (s & _ & H). apply bind_Ok in H as (o & _ & H).
  repeat (match type of H with
          | (if ?b then _ else _) = Ok _ => destruct b
          end; [injection H as <- <-; split; [apply same_parents_refl|done]|]).
  apply bind_Ok in H as (h1 & H1 & H). apply bind_Ok in H as (? & _ & H).
  apply bind_Ok in H as (? & _ & H). apply bind_Ok in H as (? & _ & H).
  injection H as <- <-. split; [|done].
  apply removeSelf_Ok_inv in H1 as (oc & _ & ->); [|done].
  apply same_parents_reparent.
Qed.

Lemma addObject_parents (h h' : Heap) p c :
  tree_inv h → addObject h p c = Ok h' →
  same_parents_but c h h' ∧
  (∀ oc, h' !! c = Some oc → parentContainer oc = Some p).
Proof.
  intros Hinv H. apply addObject_Ok_inv in H as (oc & _ & _ & ->); [|done].
  split; [apply same_parents_reparent|].
  intros oc'. apply parent_of_reparented.
Qed.

Lemma placeObject_parents (h h' : Heap) self obj t :
  tree_inv h → placeObjectInContainer h self obj = Ok (h', t) →
  same_parents_but obj h h' ∧
  (tuple_success t = false → h' = h) ∧
  (tuple_success t = true →
   ∀ oc, h' !! obj = Some oc → parentContainer oc = Some self).
Proof.
  intros Hinv H. unfold placeObjectInContainer in H.
  apply bind_Ok in H as (s & _ & H). apply bind_Ok in H as (o & _ & H).
  repeat (match type of H with
          | (if ?b then _ else _) = Ok _ => destruct b
          end; [injection H as <- <-;
                split_and!; [apply same_parents_refl|done|done]|]).
  apply bind_Ok in H as (h1 & H1 & H). apply bind_Ok in H as (? & _ & H).
  apply bind_Ok in H as (? & _ & H). apply bind_Ok in H as (? & _ & H).
  injection H as <- <-.
  destruct (addObject_parents h h1 self obj Hinv H1) as [A B].
  split_and!; [done|done|by intros _].
Qed.

(** moving one object under some parent leaves no object without one *)
Lemma rooted_moved root c (h h' : Heap) :
  rooted root h → same_parents_but c h h' →
  (∀ oc, h' !! c = Some oc → is_Some (parentContainer oc)) →
  rooted root h'.
Proof.
  intros Hr Hs Hc k o' Hk Hne. destruct (decide (k = c)) as [->|Hkc].
  - by apply Hc.
  - pose proof (Hs k Hkc) as Hp. rewrite Hk in Hp.
    destruct (h !! k) as [o|] eqn:Ho; [|done].
    injection Hp as Hp. rewrite Hp. by apply (Hr k o).
Qed.

(** As [ok_walk], keeping what each test decided. *)
Ltac ok_walk_eq H :=
  repeat (first
    [ progress ok_inv H
    | match type of H with
      | context [bool_decide ?P] =>
          destruct (decide P);
          [rewrite (bool_decide_eq_true_2 P) in H by assumption
          |rewrite (bool_decide_eq_false_2 P) in H by assumption];
          cbn [negb] in H
      | (if ?b then _ else _) = Ok _ => destruct b eqn:?
      | (match ?x with _ => _ end) = Ok _ => destruct x eqn:?
      end ]).

(** Turns the calls met on the way into facts about the parents. *)
Ltac parents_step :=
  match goal with
  | Hinv : tree_inv ?h, E : takeObjectFromContainer ?h _ _ = Ok _ |- _ =>
      let K := fresh "K" in
      let A := fresh "A" in
      let B := fresh "B" in
      pose proof (keeps_tree_inv _ _ (keeps_takeObject _ _ _ _ _ Hinv E) Hinv)
        as K;
      destruct (takeObject_parents _ _ _ _ _ Hinv E) as [A B]; clear E
  | Hinv : tree_inv ?h, E : placeObjectInContainer ?h _ _ = Ok _ |- _ =>
      let K := fresh "K" in
      let A := fresh "A" in
      let B := fresh "B" in
      let C := fresh "C" in
      pose proof (keeps_tree_inv _ _ (keeps_placeObject _ _ _ _ _ Hinv E) Hinv)
        as K;
      destruct (placeObject_parents _ _ _ _ _ Hinv E) as (A & B & C); clear E
  | Hinv : tree_inv ?h, E : addObject ?h _ _ = Ok _ |- _ =>
      let K := fresh "K" in
      let A := fresh "A" in
      let C := fresh "C" in
      pose proof (keeps_tree_inv _ _ (keeps_addObject _ _ _ _ Hinv E) Hinv)
        as K;
      destruct (addObject_parents _ _ _ _ Hinv E) as [A C]; clear E
  end.

Ltac rooted_done :=
  first
    [ by simplify_eq
    | match goal with
      | B : _ = false → ?h' = ?h |- rooted _ ?h' =>
          rewrite (B eq_refl); assumption
      end
    | eapply rooted_moved;
      [eassumption
      |eauto using same_parents_trans, same_parents_refl
      |let oc := fresh "oc" in
       let Hoc := fresh "Hoc" in
       intros oc Hoc;
       match goal with
       | C : ∀ oc, _ → parentContainer oc = Some _ |- _ =>
           rewrite (C oc Hoc); eauto
       end] ].

Lemma actionTake_rooted g obj h' x root :
  tree_inv (heap g) → rooted root (heap g) →
  actionTake g obj = Ok (h', x) → rooted root h'.
Proof.
  intros Hinv Hr H. unfold actionTake in H. cbv zeta in H.
  ok_walk_eq H; simplify_eq; repeat parents_step; rooted_done.
Qed.

Lemma actionPut_rooted g obj dst h' x root :
  tree_inv (heap g) → rooted root (heap g) →
  actionPut g obj dst = Ok (h', x) → rooted root h'.
Proof.
  intros Hinv Hr H. unfold actionPut in H. cbv zeta in H.
  ok_walk_eq H; simplify_eq; repeat parents_step;
    try match goal with
        | E : unpack2 ?t = Ok _ |- _ =>
            destruct t; [injection E as <- <-|discriminate E]
        end;
    cbn [tuple_success] in *;
    try match goal with
        | Hb : ?b ≠ false, C : ?b = true → _ |- _ =>
            specialize (C (not_false_is_true _ Hb))
        end;
    rooted_done.
Qed.

Lemma alloc_add_back (h h' : Heap) U r w :
  tree_inv h → ids_below U h → new_at U r →
  addObject (alloc h r.1) w (uuid r.1) = Ok h' →
  ∀ k o', h' !! k = Some o' →
    (k = U ∧ parentContainer o' = Some w) ∨
    (∃ o, h !! k = Some o ∧ parentContainer o' = parentContainer o).
Proof.
  intros Hinv Hb (HU & Hu & Hp & Hc) H k o' Hk.
  assert (tree_inv (alloc h r.1)) as Hinv0.
  { unfold alloc. rewrite Hu.
    apply tree_inv_alloc; [done|by apply ids_below_fresh|done..]. }
  rewrite Hu in H.
  apply addObject_Ok_inv in H as (oc & _ & _ & ->); [|done].
  destruct (decide (k = U)) as [->|Hne].
  - left. split; [done|]. by apply parent_of_reparented in Hk.
  - right. rewrite lookup_reparent_all in Hk. unfold alloc in Hk.
    rewrite Hu, lookup_insert_ne in Hk by done.
    destruct (h !! k) as [o|]; [|done]. exists o. split; [done|].
    injection Hk as <-. by rewrite parent_reparent, decide_False.
Qed.

(** After [initializeWorld] every object but the room is a child of the
    room. *)
Lemma initializeWorld_flat d (h h' : Heap) U U' agent w :
  tree_inv h → ids_below U h → (∀ k o, h !! k = Some o → k = agent) →
  initializeWorld d h U agent = Ok (h', U', w) →
  ∀ k o, h' !! k = Some o → k ≠ w → parentContainer o = Some w.
Proof.
  intros Hinv Hb Honly H. unfold initializeWorld in H.
  pose proof (constructors_new_at U "" "" "" false) as (_ & HW & _).
  destruct (World_init U) as [world U1]. cbv zeta in H.
  apply bind_Ok in H as (h1 & H1 & H).
  set (R := λ h : Heap,
              ∀ k o, h !! k = Some o → k ≠ uuid world →
                     parentContainer o = Some (uuid world)).
  assert (R h1) as R1.
  { pose proof HW as (_ & Hu & Hp & Hc). cbn [fst snd] in *.
    assert (tree_inv (alloc h world)) as Hinv0.
    { unfold alloc. rewrite Hu.
      apply tree_inv_alloc; [done|by apply ids_below_fresh|done..]. }
    pose proof H1 as H1'.
    apply addObject_Ok_inv in H1' as (oc & _ & _ & ->); [|done].
    intros k o Hk Hne. rewrite lookup_reparent_all in Hk. unfold alloc in Hk.
    rewrite lookup_insert_ne in Hk by done.
    destruct (h !! k) as [o0|] eqn:Hk0; [|done].
    apply Honly in Hk0 as ->. injection Hk as <-.
    by rewrite parent_reparent, decide_True. }
  apply (alloc_add_graph h _ U (world, U1)) in H1 as [Hinv1 Hb1]; [|done..].
  cbn [fst snd] in *. clear HW.
  assert (∀ (h0 h9 : Heap) U0 r,
            tree_inv h0 → ids_below U0 h0 → R h0 → new_at U0 r →
            addObject (alloc h0 r.1) (uuid world) (uuid r.1) = Ok h9 →
            tree_inv h9 ∧ ids_below r.2 h9 ∧ R h9) as Hstep.
  { intros h0 h9 U0 r Hi0 Hb0 R0 Hr Hadd.
    destruct (alloc_add_graph h0 h9 U0 r _ _ Hi0 Hb0 Hr Hadd) as [A B].
    split_and!; [done..|]. intros k o Hk Hne.
    destruct (alloc_add_back h0 h9 U0 r _ Hi0 Hb0 Hr Hadd k o Hk)
      as [[_ Hp]|(o0 & Hk0 & Hp)]; [done|].
    rewrite Hp. by apply (R0 k o0). }
  pose proof (constructors_new_at U1 "" "" "" false) as (_ & _ & HW & _).
  destruct (DishWasher_init U1) as [dishwasher U2].
  apply bind_Ok in H as (h2 & H2 & H).
  apply (Hstep h1 _ U1 (dishwasher, U2)) in H2 as (Hinv2 & Hb2 & R2);
    [|done..].
  cbn [fst snd] in *. clear HW.
  pose proof (constructors_new_at U2 "" "" "" false) as (_ & _ & _ & HW & _).
  destruct (DishSoapBottle_init U2) as [bottle U3].
  apply bind_Ok in H as (h3 & H3 & H).
  apply (Hstep h2 _ U2 (bottle, U3)) in H3 as (Hinv3 & Hb3 & R3); [|done..].
  cbn [fst snd] in *. clear HW.
  apply bind_Ok in H as ([h4 U4] & H4 & H). cbv beta iota in H.
  apply bind_Ok in H as ([h5 U5] & H5 & H). cbv beta iota in H.
  apply bind_Ok in H as ([h6 U6] & H6 & H). cbv beta iota in H.
  injection H as <- <- <-.
  set (Q := λ s : Heap * nat, tree_inv s.1 ∧ ids_below s.2 s.1 ∧ R s.1).
  assert (Q (h4, U4)) as Q4.
  { apply (forM__invariant Q _ _ _ _) in H4; [done| |done].
    intros [h7 U7] i [h9 U9] _ (Hi0 & Hb0 & R0) Hx. cbv beta iota in Hx.
    apply bind_Ok in Hx as (dishType & _ & Hx).
    apply bind_Ok in Hx as (foodName & _ & Hx).
    apply bind_Ok in Hx as (prefix & _ & Hx).
    pose proof (constructors_new_at U7 dishType foodName prefix true)
      as (_ & _ & _ & _ & _ & HD).
    destruct (Dish_init dishType true foodName prefix U7) as [dish U8].
    apply bind_Ok in Hx as (h8 & H8 & Hx). injection Hx as <- <-.
    by apply (Hstep h7 _ U7 (dish, U8)) in H8. }
  assert (Q (h5, U5)) as Q5.
  { apply (forM__invariant Q _ _ _ _) in H5; [done| |done].
    intros [h7 U7] i [h9 U9] _ (Hi0 & Hb0 & R0) Hx. cbv beta iota in Hx.
    apply bind_Ok in Hx as (dishType & _ & Hx).
    pose proof (constructors_new_at U7 dishType "" "in" false)
      as (_ & _ & _ & _ & _ & HD).
    destruct (Dish_init dishType false "" "in" U7) as [dish U8].
    apply bind_Ok in Hx as (h8 & H8 & Hx). injection Hx as <- <-.
    by apply (Hstep h7 _ U7 (dish, U8)) in H8. }
  assert (Q (h6, U6)) as (_ & _ & R6); [|exact R6].
  apply (forM__invariant Q _ _ _ _) in H6; [done| |done].
  intros [h7 U7] i [h9 U9] _ (Hi0 & Hb0 & R0) Hx. cbv beta iota in Hx.
  apply bind_Ok in Hx as (foodName & _ & Hx).
  pose proof (constructors_new_at U7 "" foodName "" false)
    as (_ & _ & _ & _ & HF & _).
  destruct (Food_init foodName U7) as [food U8].
  apply bind_Ok in Hx as (h8 & H8 & Hx). injection Hx as <- <-.
  by apply (Hstep h7 _ U7 (food, U8)) in H8.
Qed.

Lemma calculateScore_root g g' :
  calculateScore g = Ok g' → rootObject g' = rootObject g.
Proof.
  unfold calculateScore. intros H. ok_inv_all.
  case_bool_decide; simplify_eq; done.
Qed.

Lemma generatePossibleActions_root g g' :
  generatePossibleActions g = Ok g' → rootObject g' = rootObject g.
Proof.
  unfold generatePossibleActions. intros H.
  repeat (match type of H with
          | mbind _ ?m = Ok _ =>
              let E := fresh "E" in
              destruct m eqn:E; simpl in H; [clear E|discriminate H]
          end).
  by simplify_eq.
Qed.

(** A new game: well-formed, and every object but the room has a parent. *)
Lemma TextGame_init_rooted d g :
  TextGame_init d = Ok g → rooted (rootObject g) (heap g).
Proof.
  intros H. unfold TextGame_init in H. cbv zeta in H.
  pose proof (constructors_new_at 0 "" "" "" false) as (HA & _).
  destruct (Agent_init 0) as [a U1].
  apply bind_Ok in H as ([[h U] root] & Hi & H). cbv beta iota in H.
  apply bind_Ok in H as (obs & _ & H). apply bind_Ok in H as (g1 & Hc & H).
  pose proof (calculateScore_root _ _ Hc) as Hroot.
  apply calculateScore_graph in Hc as [Hh _].
  pose proof (generatePossibleActions_root _ _ H) as Hroot'.
  apply generatePossibleActions_graph in H as [Hh' _].
  rewrite Hh', Hroot', Hh, Hroot. cbn [heap rootObject set_observationStr].
  destruct HA as (HU1 & Hu & Hp & Hcn). cbn [fst snd] in *. subst U1.
  intros k o Hk Hne.
  rewrite (initializeWorld_flat d (alloc ∅ a) h 1 U (uuid a) root) with (o := o) (k := k);
    [eauto| | | |done..].
  - unfold alloc. apply tree_inv_alloc; [apply tree_inv_empty|done..].
  - apply (ids_below_alloc 0 ∅ a Hu). by intros k0 o0; rewrite lookup_empty.
  - intros k0 o0. unfold alloc. intros Hk0.
    destruct (decide (k0 = uuid a)) as [->|Hn]; [done|].
    by rewrite lookup_insert_ne, lookup_empty in Hk0.
Qed.

Lemma do_moves_inv g ms g' :
  tree_inv (heap g) → rooted (rootObject g) (heap g) →
  do_moves g ms = Ok g' →
  tree_inv (heap g') ∧ rooted (rootObject g') (heap g').
Proof.
  unfold do_moves. revert g. induction ms as [|m ms IH]; intros g Hinv Hr H.
  - simpl in H. by simplify_eq.
  - cbn [forM_] in H. apply bind_Ok in H as (g1 & Hm & H).
    apply (IH g1); [| |done].
    + destruct m as [obj|obj dst]; cbn [do_move] in Hm;
        apply bind_Ok in Hm as ([h1 x] & Hm & Hg); injection Hg as <-;
        cbn [heap set_heap].
      * by apply (keeps_tree_inv _ _ (keeps_actionTake g obj h1 x Hinv Hm)).
      * by apply (keeps_tree_inv _ _ (keeps_actionPut g obj dst h1 x Hinv Hm)).
    + destruct m as [obj|obj dst]; cbn [do_move] in Hm;
        apply bind_Ok in Hm as ([h1 x] & Hm & Hg); injection Hg as <-;
        cbn [heap rootObject set_heap].
      * by apply (actionTake_rooted g obj h1 x).
      * by apply (actionPut_rooted g obj dst h1 x).
Qed.

(** C3: after any sequence of take and put calls from the world of a new
    game, an object has at most one parent (its one parentContainer
    field); an object with a parent is in that parent's child list, which
    has no object twice, and in no other child list; and every object but
    the room still has a parent.  addObject is a detach-then-append: the
    object graph after it is the one before with the object out of the
    child list of its old parent, at the end of the child list of the new
    one, and with the new parent in its parentContainer. *)
Theorem containment_after_moves d g0 ms g :
  TextGame_init d = Ok g0 → do_moves g0 ms = Ok g →
  tree_inv (heap g) ∧
  (∀ k o p, heap g !! k = Some o → parentContainer o = Some p →
     ∃ op, heap g !! p = Some op ∧ k ∈ contains op ∧ NoDup (contains op) ∧
           ∀ q oq, heap g !! q = Some oq → k ∈ contains oq → q = p) ∧
  (∀ k o, heap g !! k = Some o → k ≠ rootObject g →
          is_Some (parentContainer o)) ∧
  (∀ (h : Heap) p c oc,
     tree_inv h → h !! c = Some oc → is_Some (h !! p) →
     addObject h p c = Ok (reparent_all c (parentContainer oc) (Some p) h)).
Proof.
  intros H0 H.
  pose proof (TextGame_init_rooted d g0 H0) as Hr0.
  apply TextGame_init_graph in H0 as [Hinv0 _].
  destruct (do_moves_inv g0 ms g Hinv0 Hr0 H) as [Hinv Hr].
  split_and!; [done| |done|].
  - intros k o p Hk Hp.
    destruct (inv_parent _ Hinv k o p Hk Hp) as (op & Hop & Hin).
    exists op. split_and!; [done..|by apply (inv_nodup _ Hinv p)|].
    intros q oq Hq Hkq.
    destruct (inv_child _ Hinv q oq k Hq Hkq) as (o' & Hk' & Hp').
    congruence.
  - intros h p c oc. apply addObject_spec.
Qed.

Lemma containment_after_moves_witness :
  tree_inv (heap (game_of (do_moves game0 [Take 4; Put 4 2; Put 4 1]))).
Proof.
  assert (is_Ok (do_moves game0 [Take 4; Put 4 2; Put 4 1]) = true)%nat as H1
    by vm_refl.
  exact (proj1 (containment_after_moves draws0 game0 _ _ game0_init
                  (game_of_eta _ H1))).
Defined.

(** ** The tick of every object *)

(** C4: in every step call that returns, whatever the command and whatever
    the handler did, the tick phase runs tick on the objects of one list,
    in its order: the list getAllContainedObjectsRecursive gives for the
    root on the object graph the handler left.  The list has every object
    below the root, once, each object before its own contents, and not the
    root itself, whose tick is the empty one of GameObject, so that running
    it first as well gives the same object graph.  makeNameToObjectDict,
    with which the catalog is built, enumerates the objects with the same
    call. *)
Theorem ticks_once_per_object g actionStr g' r :
  game_ok g → step g actionStr = Ok (g', r) →
  ∃ g1 ret allObjects,
    step_action g actionStr = Ok (g1, ret) ∧
    getAllContainedObjectsRecursive recursionLimit (heap g1) (rootObject g1)
    = Ok allObjects ∧
    forM_ allObjects (fun h obj => tick recursionLimit h obj) (heap g1)
    = Ok (heap g') ∧
    NoDup allObjects ∧
    (∀ k, k ∈ allObjects ↔ descendant (heap g1) (rootObject g1) k) ∧
    (rootObject g1 ∉ allObjects) ∧
    (∀ o, heap g1 !! rootObject g1 = Some o → cls o = World →
          forM_ (rootObject g1 :: allObjects)
            (fun h obj => tick recursionLimit h obj) (heap g1)
          = Ok (heap g')) ∧
    (∀ fuel (h : Heap) x s, h !! x = Some s →
       getAllContainedObjectsRecursive (S fuel) h x
       = flat_mapM (fun obj =>
                      sub ← getAllContainedObjectsRecursive fuel h obj;
                      Ok (obj :: sub)) (contains s)) ∧
    makeNameToObjectDict g1
    = forM_ allObjects
        (fun nameToObjectDict obj =>
           o ← getObj (heap g1) obj;
           names ← getReferents o;
           Ok (foldl (fun d nm => dict_append nm obj d) nameToObjectDict
                 names)) [].
Proof.
  intros Hg H. unfold step in H.
  apply bind_Ok in H as ([g1 ret] & H1 & H). cbv beta iota in H.
  apply bind_Ok in H as (g2 & H2 & H).
  apply bind_Ok in H as ([g3 rw] & H3 & H). cbv beta iota in H.
  injection H as <- _.
  pose proof (step_action_graph g actionStr g1 ret Hg H1) as [Hinv1 _].
  unfold step_tick, doWorldTick in H2.
  apply bind_Ok in H2 as (allObjects & HL & H2).
  apply bind_Ok in H2 as (h2 & Hh2 & H2). injection H2 as <-.
  unfold step_calculate_score in H3. apply bind_Ok in H3 as (g4 & H4 & H3).
  injection H3 as <- _. apply calculateScore_graph in H4 as [Hh _].
  cbn [heap set_heap] in Hh. rewrite Hh.
  exists g1, ret, allObjects. split_and!; [done..| | | | | |].
  - by apply (traversal_NoDup recursionLimit (heap g1) (rootObject g1)).
  - intros k. by apply (traversal_elem recursionLimit).
  - intros Hin.
    apply (traversal_elem recursionLimit _ _ _ _ HL) in Hin.
    by apply (traversal_cycle recursionLimit (heap g1) (rootObject g1)
                allObjects).
  - intros o Ho Hcls.
    assert (tick recursionLimit (heap g1) (rootObject g1) = Ok (heap g1))
      as Ht.
    { unfold tick. by rewrite (type_of_Ok _ _ _ Ho), Hcls. }
    cbn [forM_]. rewrite Ht. exact Hh2.
  - intros fuel h x s Hs. cbn [getAllContainedObjectsRecursive].
    by rewrite (getObj_Some _ _ _ Hs).
  - unfold makeNameToObjectDict. by rewrite HL.
Qed.

Lemma ticks_once_per_object_witness :
  ∃ g1 allObjects,
    getAllContainedObjectsRecursive recursionLimit (heap g1) (rootObject g1)
    = Ok allObjects ∧
    forM_ allObjects (fun h obj => tick recursionLimit h obj) (heap g1)
    = Ok (heap (after_step game_running "look")) ∧
    NoDup allObjects.
Proof.
  assert (is_Ok (step game_running "look") = true) as Hok by vm_refl.
  assert (tree_inv_b (heap game_running) = true) as Ht by vm_refl.
  assert (ids_below_b (UUID game_running) (heap game_running) = true) as Hb
    by vm_refl.
  destruct (ticks_once_per_object _ _ _ _
              (conj (tree_inv_b_sound _ Ht) (ids_below_b_sound _ _ Hb))
              (step_eta _ _ Hok))
    as (g1 & ret & allObjects & _ & HL & Hf & Hn & _).
  exists g1, allObjects. split_and!; [exact HL|exact Hf|exact Hn].
Defined.

(** ** The wash cycle *)





















